(** * Fit-Check: the undoable layered-outfit editor of [src/App.tsx]

    A shallow embedding of the editor's state machine: the generic undo/redo
    hook [useUndoableState], the editor snapshot it stores ([EditorState] of
    [types.ts]), the derivation of the displayed image, and the event
    handlers of [App] that read and install snapshots.

    Conventions of the embedding.
    - A JavaScript [number] used as an array index is a [Z]; the cursor of the
      hook, which the code only moves inside [0, length), is a [nat].
    - [null] and [undefined] for a [string | null] are the [None] of an
      [option]; an object used as a dictionary ([Record<string, string>]) is
      a list of key/value pairs in own-property order: the keys that are
      array indices first, in ascending order, then the others in the
      order of their insertion.
    - A handler of [App] is described as it runs when it is called in the
      render that created it and to completion before the next one starts:
      the closure variables it reads are then the fields of the current
      state. A call through a handler kept from an earlier render (the
      [onGarmentSelect] that [WardrobePanel] calls after an [await]) reads
      the cells of that render and is outside this description. The hook
      [useUndoableState] is described with its closure explicit
      ([UndoableState.setStatesInRender]). *)

From stdpp Require Import base list strings.
From Stdlib Require Import ZArith Lia.

Local Open Scope string_scope.
Local Open Scope list_scope.

(** ** Completions

    How the evaluation of a piece of the source ends: normally with a value,
    with a thrown exception (reduced to its message, which is all the
    handlers read), or by building a value that is outside the declared
    TypeScript type ([undefined] where a [string] or an [OutfitLayer] is
    declared, an array with holes). The embedding follows the typed
    fragment and stops at [IllTyped]. *)

Inductive Completion (A : Type) : Type :=
| Normal (a : A)
| Thrown (message : string)
| IllTyped.

Arguments Normal {A} a.
Arguments Thrown {A} message.
Arguments IllTyped {A}.

(** ** Arrays and dictionaries of the source *)

Module JS.
Import Stdlib.Strings.Ascii.

(** [arr[i]] for a numeric [i]: [undefined] outside [0, length). *)
Definition index {A} (arr : list A) (i : Z) : option A :=
  if (i <? 0)%Z then None else arr !! Z.to_nat i.

(** [arr.slice(0, e)]: a negative [e] counts from the end. *)
Definition slice0 {A} (arr : list A) (e : Z) : list A :=
  if (e <? 0)%Z then take (Z.to_nat (Z.max (Z.of_nat (length arr) + e) 0)) arr
  else take (Z.to_nat e) arr.

(** [const a = [...arr]; a[i] = x]: an element of the copy is replaced.
    Outside [0, length) the copy would get holes or a non-index property,
    and is no longer an array of [A]. *)
Definition assign {A} (arr : list A) (i : Z) (x : A) : option (list A) :=
  if ((0 <=? i) && (i <? Z.of_nat (length arr)))%Z
  then Some (<[Z.to_nat i := x]> arr) else None.

(** A string is falsy exactly when it is empty; [null] and [undefined]
    are falsy. *)
Definition truthy (v : option string) : bool :=
  match v with
  | Some s => negb (bool_decide (s = ""))
  | None => false
  end.

(** Dictionaries with string keys: the own properties of a
    [Record<string, string>] in own-property order, which lists the keys
    that are array indices first, in ascending numeric order, and then the
    other keys in the order in which they were added. *)
Definition Dict := list (string * string).

(** The array index that a key denotes, if any: the key is the canonical
    decimal numeral of a number below [2^32 - 1]. *)
Definition digit (c : ascii) : option Z :=
  let n := Z.of_nat (nat_of_ascii c) in
  if ((48 <=? n) && (n <=? 57))%Z then Some (n - 48)%Z else None.

Fixpoint numeral (s : string) (acc : Z) : option Z :=
  match s with
  | EmptyString => Some acc
  | String c s' =>
      match digit c with
      | Some d => numeral s' (10 * acc + d)%Z
      | None => None
      end
  end.

Definition arrayIndex (k : string) : option Z :=
  match k with
  | EmptyString => None
  | String c rest =>
      if bool_decide (c = "0"%char) && negb (bool_decide (rest = ""))
      then None
      else
        match numeral k 0 with
        | Some n => if (n <? 4294967295)%Z then Some n else None
        | None => None
        end
  end.

(** The names of the members that every object inherits from
    [Object.prototype]. *)
Definition inheritedNames : list string :=
  [ "constructor"; "hasOwnProperty"; "isPrototypeOf"; "propertyIsEnumerable";
    "toLocaleString"; "toString"; "valueOf"; "__proto__";
    "__defineGetter__"; "__defineSetter__"; "__lookupGetter__";
    "__lookupSetter__" ].

Definition inherited (k : string) : bool :=
  existsb (fun name => bool_decide (name = k)) inheritedNames.

#[global] Arguments arrayIndex : simpl never.
#[global] Arguments inherited : simpl never.

(** [obj[k]] where [k] is an own key or names no inherited member. For an
    [inherited] key that is not an own key the source reads the member of
    [Object.prototype], which is not a string; [get] gives [None] there,
    and what is stated about a miss is stated for keys that are not
    [inherited]. *)
Fixpoint get (obj : Dict) (k : string) : option string :=
  match obj with
  | [] => None
  | (k', v) :: rest => if bool_decide (k' = k) then Some v else get rest k
  end.

(** [k in obj]: an own key, or the name of an inherited member. *)
Definition has (obj : Dict) (k : string) : bool :=
  match get obj k with Some _ => true | None => inherited k end.

(** The truthiness of [obj[k]]: that of the own value when [k] is an own
    key; an inherited member is a function or an object, which is truthy;
    [undefined] is falsy. *)
Definition truthyAt (obj : Dict) (k : string) : bool :=
  match get obj k with
  | Some v => truthy (Some v)
  | None => inherited k
  end.

(** The value of an own key replaced where it stands. *)
Fixpoint replace (obj : Dict) (k v : string) : Dict :=
  match obj with
  | [] => []
  | (k', v') :: rest =>
      if bool_decide (k' = k) then (k', v) :: rest else (k', v') :: replace rest k v
  end.

(** A new array-index key put after the smaller array-index keys. *)
Fixpoint insertIndex (obj : Dict) (n : Z) (k v : string) : Dict :=
  match obj with
  | [] => [(k, v)]
  | (k', v') :: rest =>
      match arrayIndex k' with
      | Some n' =>
          if (n' <? n)%Z then (k', v') :: insertIndex rest n k v
          else (k, v) :: obj
      | None => (k, v) :: obj
      end
  end.

(** [{ ...obj, [k]: v }]: an existing key keeps its place; a new key goes
    among the array-index keys when it is one, and last otherwise. *)
Definition set (obj : Dict) (k v : string) : Dict :=
  match get obj k with
  | Some _ => replace obj k v
  | None =>
      match arrayIndex k with
      | Some n => insertIndex obj n k v
      | None => obj ++ [(k, v)]
      end
  end.

(** [Object.keys(obj)] and [Object.values(obj)]. *)
Definition keys (obj : Dict) : list string := fst <$> obj.
Definition values (obj : Dict) : list string := snd <$> obj.

End JS.

(** ** The undo/redo hook: [useUndoableState] *)

Module UndoableState.
Section Hook.

Context {T : Type}.

(** [JSON.stringify(a) === JSON.stringify(b)], the comparison that
    [setState] uses to detect an update that changes nothing. *)
Variable sameJSON : T -> T -> bool.

(** The two [useState] cells of the hook. *)
Record Undoable : Type := mkUndoable {
  history : list T;
  currentIndex : nat
}.

Definition useUndoableState (initialState : T) : Undoable :=
  {| history := [initialState]; currentIndex := 0 |}.

(** [const state = history[currentIndex]]. *)
Definition state (h : Undoable) : option T :=
  history h !! currentIndex h.

(** The argument of [setState]: a value or a function of the previous
    state. *)
Inductive SetStateAction : Type :=
| Value (newState : T)
| Functional (update : T -> Completion T).

Definition resolve (newState : SetStateAction) (st : T) : Completion T :=
  match newState with
  | Value v => Normal v
  | Functional update => update st
  end.

(** The body of [setState] once [resolvedState] is known. *)
Definition install (resolvedState st : T) (h : Undoable) : Undoable :=
  if sameJSON resolvedState st then h
  else
    let newHistory := take (currentIndex h + 1) (history h) ++ [resolvedState] in
    {| history := newHistory; currentIndex := length newHistory - 1 |}.

(** [setState]. With a cursor outside the history [state] would be
    [undefined], not a [T]. *)
Definition setState (newState : SetStateAction) (h : Undoable)
  : Completion Undoable :=
  match state h with
  | None => IllTyped
  | Some st =>
      match resolve newState st with
      | Normal resolvedState => Normal (install resolvedState st h)
      | Thrown m => Thrown m
      | IllTyped => IllTyped
      end
  end.

Definition undo (h : Undoable) : Undoable :=
  if bool_decide (0 < currentIndex h)
  then {| history := history h; currentIndex := currentIndex h - 1 |}
  else h.

Definition redo (h : Undoable) : Undoable :=
  if bool_decide (currentIndex h < length (history h) - 1)
  then {| history := history h; currentIndex := currentIndex h + 1 |}
  else h.

Definition canUndo (h : Undoable) : bool :=
  bool_decide (0 < currentIndex h).

Definition canRedo (h : Undoable) : bool :=
  bool_decide (currentIndex h < length (history h) - 1).

Definition resetState (newState : T) : Undoable :=
  {| history := [newState]; currentIndex := 0 |}.

(** The [setState] calls that one render makes. Each call reads
    [history], [currentIndex] and [state] from the closure of its render,
    [closure]; a call that is not coalesced writes both cells, and of
    several writes the last one stands. [written] is the hook as the
    calls so far have written it; a functional update that throws ends
    the calls and leaves what was written. *)
Fixpoint setStatesInRender (calls : list SetStateAction) (closure written : Undoable)
  : Completion unit * Undoable :=
  match calls with
  | [] => (Normal tt, written)
  | newState :: calls' =>
      match state closure with
      | None => (IllTyped, written)
      | Some st =>
          match resolve newState st with
          | Normal resolvedState =>
              setStatesInRender calls' closure
                (if sameJSON resolvedState st then written
                 else install resolvedState st closure)
          | Thrown m => (Thrown m, written)
          | IllTyped => (IllTyped, written)
          end
      end
  end.

(** A run of renders, each with its [setState] calls: the hook that the
    calls of a render leave is the closure of the next render. *)
Fixpoint setStates (renders : list (list SetStateAction)) (h : Undoable)
  : Completion unit * Undoable :=
  match renders with
  | [] => (Normal tt, h)
  | calls :: renders' =>
      match setStatesInRender calls h h with
      | (Normal _, h') => setStates renders' h'
      | abrupt => abrupt
      end
  end.

(** The cursor points into the history. *)
Definition wf (h : Undoable) : Prop :=
  currentIndex h < length (history h).

(** The value that the undo/redo law of the specification names, for a
    store that resolves each [set] against the value that the [set] before
    it left: the value held just before the most recent [set] that was
    not coalesced. [before] is the value an undo reaches when no such
    [set] happened and [cur] the value the run starts from. *)
Fixpoint beforeMostRecentDistinctSet (before cur : T) (calls : list SetStateAction)
  : T :=
  match calls with
  | [] => before
  | newState :: calls' =>
      match resolve newState cur with
      | Normal r =>
          if sameJSON r cur then beforeMostRecentDistinctSet before cur calls'
          else beforeMostRecentDistinctSet cur r calls'
      | _ => beforeMostRecentDistinctSet before cur calls'
      end
  end.

(** The value that the last call of a render which is not coalesced
    resolves to, all calls reading the value [cur] of the render. *)
Fixpoint lastDistinct (cur : T) (calls : list SetStateAction) : option T :=
  match calls with
  | [] => None
  | newState :: calls' =>
      match lastDistinct cur calls' with
      | Some r => Some r
      | None =>
          match resolve newState cur with
          | Normal r => if sameJSON r cur then None else Some r
          | _ => None
          end
      end
  end.

(** The value of the render that made the most recent [set] which was
    not coalesced. *)
Fixpoint beforeMostRecentRender (before cur : T) (renders : list (list SetStateAction))
  : T :=
  match renders with
  | [] => before
  | calls :: renders' =>
      match lastDistinct cur calls with
      | Some r => beforeMostRecentRender cur r renders'
      | None => beforeMostRecentRender before cur renders'
      end
  end.

End Hook.
End UndoableState.

(** ** The editor snapshot ([types.ts])

    [WardrobeItem.type] has the single value ['top'] and is left out. *)

Module Types.

Record WardrobeItem : Type := mkWardrobeItem {
  id : string;
  name : string;
  url : string
}.

Record OutfitLayer : Type := mkOutfitLayer {
  garment : option WardrobeItem;
  poseImages : JS.Dict
}.

Record EditorState : Type := mkEditorState {
  modelImageUrl : option string;
  outfitHistory : list OutfitLayer;
  currentOutfitIndex : Z;
  currentPose : string
}.

#[global] Instance WardrobeItem_eq_dec : EqDecision WardrobeItem.
Proof. solve_decision. Defined.

#[global] Instance OutfitLayer_eq_dec : EqDecision OutfitLayer.
Proof. solve_decision. Defined.

#[global] Instance EditorState_eq_dec : EqDecision EditorState.
Proof. solve_decision. Defined.

(** [JSON.stringify] of two editor states gives the same text exactly when
    they have the same fields, layers and dictionary entries in the same
    order: every state of the editor is built by spreading a previous one,
    which keeps the order of the keys. *)
Definition sameJSON (a b : EditorState) : bool := bool_decide (a = b).

End Types.

(** ** The Remote Generation Gateway ([services/geminiService.ts])

    The handlers see the gateway only through the promise each call
    returns: it is fulfilled with an image (a data URL, or the handle of a
    [File]) or rejected with an [Error], of which the handlers read the
    message. *)

Module Gateway.

(** The handle of a browser [File]. *)
Definition File := string.

Inductive Call : Type :=
| cleanupGarmentImage (garmentFile : File)
| generateVirtualTryOnImage (modelImageUrl : string) (garmentImage : File)
| generatePoseVariation (tryOnImageUrl poseInstruction : string)
| generateBackground (baseImageUrl prompt : string)
| repatternGarment (baseImageUrl garmentName patternPrompt : string).

Inductive Settled : Type :=
| Fulfilled (value : string)
| Rejected (message : string).

Definition rejected (s : Settled) : bool :=
  match s with Rejected _ => true | Fulfilled _ => false end.

End Gateway.

(** ** The component [App] *)

Module App.
Import Types.
Export UndoableState.

Definition POSE_INSTRUCTIONS : list string :=
  [ "Full frontal view, hands on hips";
    "Slightly turned, 3/4 view";
    "Side profile view";
    "Jumping in the air, mid-action shot";
    "Walking towards camera";
    "Leaning against a wall" ].

(** [POSE_INSTRUCTIONS[0]]. *)
Definition POSE_0 : string := "Full frontal view, hands on hips".

Definition defaultWardrobe : list WardrobeItem :=
  [ {| id := "gray-sweatshirt"; name := "Gray Sweatshirt";
       url := "https://raw.githubusercontent.com/ammaarreshi/app-images/refs/heads/main/gemini-sweat-2.png" |};
    {| id := "white-tee"; name := "White T-Shirt";
       url := "https://raw.githubusercontent.com/ammaarreshi/app-images/refs/heads/main/Gemini-tee.png" |} ].

Definition initialEditorState : EditorState :=
  {| modelImageUrl := None;
     outfitHistory := [];
     currentOutfitIndex := 0;
     currentPose := POSE_0 |}.

(** The [useState] cells of [App] that the editing handlers read or write.
    Theme, tutorial, modal, saved-look and photoshoot cells are only read by
    the view and are left out. *)
Record AppState : Type := mkAppState {
  editor : Undoable (T := EditorState);
  isLoading : bool;
  loadingMessage : string;
  error : option string;
  wardrobe : list WardrobeItem;
  stylistSuggestion : option string;
  colorPalette : option (list string);
  isStyling : bool;
  isShooting : bool;
  repatternTarget : option (Z * string)
}.

Definition initialAppState : AppState :=
  {| editor := useUndoableState initialEditorState;
     isLoading := false;
     loadingMessage := "";
     error := None;
     wardrobe := defaultWardrobe;
     stylistSuggestion := None;
     colorPalette := None;
     isStyling := false;
     isShooting := false;
     repatternTarget := None |}.

(** [const isBusy = isLoading || isStyling || isShooting]. *)
Definition isBusy (a : AppState) : bool :=
  isLoading a || isStyling a || isShooting a.

(** *** Values derived at each render *)

(** [displayImageUrl]. When [currentPose] names an inherited member that
    is not an own key of the layer, the source returns that member, which
    is not a string; what is stated of the displayed image of a layer
    without an image for the active pose is stated for poses that are not
    [JS.inherited]. *)
Definition displayImageUrl (s : EditorState) : option string :=
  if bool_decide (length (outfitHistory s) = 0) then modelImageUrl s
  else
    match JS.index (outfitHistory s) (currentOutfitIndex s) with
    | None => modelImageUrl s
    | Some currentLayer =>
        match JS.get (poseImages currentLayer) (currentPose s) with
        | Some image => Some image
        | None => head (JS.values (poseImages currentLayer))
        end
    end.

(** [activeOutfitLayers], the layers handed to [OutfitStack]. *)
Definition activeOutfitLayers (s : EditorState) : list OutfitLayer :=
  JS.slice0 (outfitHistory s) (currentOutfitIndex s + 1).

(** [components/OutfitStack.tsx]: the indices for which the stack renders
    the remove button, [index > 0 && <button onClick={() =>
    onRemoveLayer(index)}>], over the layers it was given. *)
Definition removeButtons (layers : list OutfitLayer) : list Z :=
  filter (fun index => (0 < index)%Z) (Z.of_nat <$> seq 0 (length layers)).

(** *** Updates of an editor state: the arrow functions given to
    [setEditorState] *)

(** [prev => ({ ...prev, currentOutfitIndex: prev.currentOutfitIndex + 1 })]. *)
Definition advanceLayer (prev : EditorState) : Completion EditorState :=
  Normal {| modelImageUrl := modelImageUrl prev;
            outfitHistory := outfitHistory prev;
            currentOutfitIndex := currentOutfitIndex prev + 1;
            currentPose := currentPose prev |}.

(** The update of [handleGarmentSelect] after the gateway answered. *)
Definition appendLayer (newLayer : OutfitLayer) (prev : EditorState)
  : Completion EditorState :=
  let newHistory := JS.slice0 (outfitHistory prev) (currentOutfitIndex prev + 1) in
  Normal {| modelImageUrl := modelImageUrl prev;
            outfitHistory := newHistory ++ [newLayer];
            currentOutfitIndex := currentOutfitIndex prev + 1;
            currentPose := currentPose prev |}.

(** [prev => ({ ...prev, currentPose: newPose })]. *)
Definition switchPose (newPose : string) (prev : EditorState)
  : Completion EditorState :=
  Normal {| modelImageUrl := modelImageUrl prev;
            outfitHistory := outfitHistory prev;
            currentOutfitIndex := currentOutfitIndex prev;
            currentPose := newPose |}.

(** The shape shared by the updates that rewrite the dictionary of the
    layer at [prev.currentOutfitIndex]: copy the array, copy the layer,
    give it the dictionary [newPoseImages], store it back. Spreading an
    [undefined] layer gives an object with no [garment], which is not an
    [OutfitLayer]. *)
Definition rewriteCurrentLayer
    (newPoseImages : EditorState -> JS.Dict -> JS.Dict)
    (newPose : EditorState -> string) (prev : EditorState)
  : Completion EditorState :=
  match JS.index (outfitHistory prev) (currentOutfitIndex prev) with
  | None => IllTyped
  | Some layer =>
      let updatedLayer :=
        {| garment := garment layer;
           poseImages := newPoseImages prev (poseImages layer) |} in
      match JS.assign (outfitHistory prev) (currentOutfitIndex prev) updatedLayer with
      | None => IllTyped
      | Some newOutfitHistory =>
          Normal {| modelImageUrl := modelImageUrl prev;
                    outfitHistory := newOutfitHistory;
                    currentOutfitIndex := currentOutfitIndex prev;
                    currentPose := newPose prev |}
      end
  end.

(** The update of [handlePoseSelect]:
    [{ ...updatedLayer.poseImages, [newPose]: newImageUrl }] and
    [currentPose: newPose]. *)
Definition addPoseImage (newPose newImageUrl : string)
  : EditorState -> Completion EditorState :=
  rewriteCurrentLayer (fun _ images => JS.set images newPose newImageUrl)
                      (fun _ => newPose).

(** The update of [handleBackgroundChange]:
    [{ ...currentLayer.poseImages, [prev.currentPose]: newImageUrl }]. *)
Definition replacePoseImage (newImageUrl : string)
  : EditorState -> Completion EditorState :=
  rewriteCurrentLayer (fun prev images => JS.set images (currentPose prev) newImageUrl)
                      currentPose.

(** The update of [handleRepattern]:
    [currentLayer.poseImages = { [prev.currentPose]: newImageUrl }]. *)
Definition repatternLayer (newImageUrl : string)
  : EditorState -> Completion EditorState :=
  rewriteCurrentLayer (fun prev _ => [(currentPose prev, newImageUrl)])
                      currentPose.

(** The two reads inside the update of [handleRemoveLayer]. *)
Definition lastValidLayer (layerIndex : Z) (prev : EditorState)
  : option OutfitLayer :=
  JS.index (JS.slice0 (outfitHistory prev) layerIndex) (layerIndex - 1).

Definition lastValidPose (layer : OutfitLayer) : option string :=
  head (JS.keys (poseImages layer)).

(** The update of [handleRemoveLayer]. Reading [poseImages] of an
    [undefined] layer throws a [TypeError]; an [undefined] first key would
    be stored as [currentPose], which is declared a [string]. *)
Definition removeFrom (layerIndex : Z) (prev : EditorState)
  : Completion EditorState :=
  let newHistory := JS.slice0 (outfitHistory prev) layerIndex in
  let newIndex := (layerIndex - 1)%Z in
  match JS.index newHistory newIndex with
  | None => Thrown "Cannot read properties of undefined (reading 'poseImages')"
  | Some lastValidLayer =>
      let keep (pose : string) :=
        Normal {| modelImageUrl := modelImageUrl prev;
                  outfitHistory := newHistory;
                  currentOutfitIndex := newIndex;
                  currentPose := pose |} in
      if JS.has (poseImages lastValidLayer) (currentPose prev)
      then keep (currentPose prev)
      else match lastValidPose lastValidLayer with
           | Some pose => keep pose
           | None => IllTyped
           end
  end.

(** *** The setters of the [useState] cells *)

Definition setEditor (h : Undoable) (a : AppState) : AppState :=
  {| editor := h; isLoading := isLoading a; loadingMessage := loadingMessage a;
     error := error a; wardrobe := wardrobe a;
     stylistSuggestion := stylistSuggestion a; colorPalette := colorPalette a;
     isStyling := isStyling a; isShooting := isShooting a;
     repatternTarget := repatternTarget a |}.

Definition setIsLoading (b : bool) (a : AppState) : AppState :=
  {| editor := editor a; isLoading := b; loadingMessage := loadingMessage a;
     error := error a; wardrobe := wardrobe a;
     stylistSuggestion := stylistSuggestion a; colorPalette := colorPalette a;
     isStyling := isStyling a; isShooting := isShooting a;
     repatternTarget := repatternTarget a |}.

Definition setLoadingMessage (m : string) (a : AppState) : AppState :=
  {| editor := editor a; isLoading := isLoading a; loadingMessage := m;
     error := error a; wardrobe := wardrobe a;
     stylistSuggestion := stylistSuggestion a; colorPalette := colorPalette a;
     isStyling := isStyling a; isShooting := isShooting a;
     repatternTarget := repatternTarget a |}.

Definition setError (e : option string) (a : AppState) : AppState :=
  {| editor := editor a; isLoading := isLoading a; loadingMessage := loadingMessage a;
     error := e; wardrobe := wardrobe a;
     stylistSuggestion := stylistSuggestion a; colorPalette := colorPalette a;
     isStyling := isStyling a; isShooting := isShooting a;
     repatternTarget := repatternTarget a |}.

Definition setWardrobe (f : list WardrobeItem -> list WardrobeItem) (a : AppState)
  : AppState :=
  {| editor := editor a; isLoading := isLoading a; loadingMessage := loadingMessage a;
     error := error a; wardrobe := f (wardrobe a);
     stylistSuggestion := stylistSuggestion a; colorPalette := colorPalette a;
     isStyling := isStyling a; isShooting := isShooting a;
     repatternTarget := repatternTarget a |}.

Definition setIsStyling (b : bool) (a : AppState) : AppState :=
  {| editor := editor a; isLoading := isLoading a; loadingMessage := loadingMessage a;
     error := error a; wardrobe := wardrobe a;
     stylistSuggestion := stylistSuggestion a; colorPalette := colorPalette a;
     isStyling := b; isShooting := isShooting a;
     repatternTarget := repatternTarget a |}.

Definition setRepatternTarget (t : option (Z * string)) (a : AppState) : AppState :=
  {| editor := editor a; isLoading := isLoading a; loadingMessage := loadingMessage a;
     error := error a; wardrobe := wardrobe a;
     stylistSuggestion := stylistSuggestion a; colorPalette := colorPalette a;
     isStyling := isStyling a; isShooting := isShooting a;
     repatternTarget := t |}.

(** [clearSuggestions]. *)
Definition clearSuggestions (a : AppState) : AppState :=
  {| editor := editor a; isLoading := isLoading a; loadingMessage := loadingMessage a;
     error := error a; wardrobe := wardrobe a;
     stylistSuggestion := None; colorPalette := None;
     isStyling := isStyling a; isShooting := isShooting a;
     repatternTarget := repatternTarget a |}.

(** *** Handlers as computations

    A handler reads and writes the cells of [App], awaits gateway calls and
    may end in an exception. [calls] records the gateway calls made, oldest
    first. *)

Record World : Type := mkWorld {
  app : AppState;
  calls : list Gateway.Call
}.

Definition Handler (A : Type) : Type := World -> Completion A * World.

Definition ret {A} (x : A) : Handler A := fun w => (Normal x, w).

Definition bind {A B} (c : Handler A) (k : A -> Handler B) : Handler B :=
  fun w =>
    match c w with
    | (Normal x, w') => k x w'
    | (Thrown m, w') => (Thrown m, w')
    | (IllTyped, w') => (IllTyped, w')
    end.

Notation "x <- c ;; k" := (bind c (fun x => k))
  (at level 100, c at next level, right associativity).
Notation "c ;; k" := (bind c (fun _ => k))
  (at level 100, right associativity).

Definition throw {A} (message : string) : Handler A :=
  fun w => (Thrown message, w).

(** Calling a setter of [App]. *)
Definition call (setter : AppState -> AppState) : Handler unit :=
  fun w => (Normal tt, {| app := setter (app w); calls := calls w |}).

(** [try { body } catch (err) { handler(message of err) } finally
    { finalizer }]. *)
Definition tryCatchFinally {A} (body : Handler A) (handler : string -> Handler A)
    (finalizer : Handler unit) : Handler A :=
  fun w =>
    match body w with
    | (IllTyped, w1) => (IllTyped, w1)
    | (tried, w1) =>
        let '(caught, w2) :=
          match tried with
          | Thrown message => handler message w1
          | _ => (tried, w1)
          end in
        match caught with
        | IllTyped => (IllTyped, w2)
        | _ =>
            match finalizer w2 with
            | (Normal _, w3) => (caught, w3)
            | (Thrown message, w3) => (Thrown message, w3)
            | (IllTyped, w3) => (IllTyped, w3)
            end
        end
    end.

(** The editor state of the current render:
    [const { state: editorState } = useUndoableState(...)], destructured
    into [modelImageUrl], [outfitHistory], [currentOutfitIndex] and
    [currentPose]. *)
Definition editorState (a : AppState) : option EditorState :=
  state (editor a).

Definition render : Handler EditorState :=
  fun w =>
    match editorState (app w) with
    | Some s => (Normal s, w)
    | None => (IllTyped, w)
    end.

(** The cells as the handler's closure sees them. *)
Definition cells : Handler AppState := fun w => (Normal (app w), w).

(** [setEditorState(newState)]. *)
Definition setEditorState (newState : SetStateAction) : Handler unit :=
  fun w =>
    match setState sameJSON newState (editor (app w)) with
    | Normal h => (Normal tt, {| app := setEditor h (app w); calls := calls w |})
    | Thrown m => (Thrown m, w)
    | IllTyped => (IllTyped, w)
    end.

Section Handlers.

(** The answers of the gateway during one handler. *)
Variable gateway : Gateway.Call -> Gateway.Settled.

(** [getFriendlyErrorMessage(message, context)] of [lib/utils] and the
    browser's [URL.createObjectURL]. *)
Variable getFriendlyErrorMessage : string -> string -> string.
Variable createObjectURL : Gateway.File -> string.

(** [await call]. *)
Definition await (c : Gateway.Call) : Handler string :=
  fun w =>
    let w' := {| app := app w; calls := calls w ++ [c] |} in
    match gateway c with
    | Gateway.Fulfilled value => (Normal value, w')
    | Gateway.Rejected message => (Thrown message, w')
    end.

(** [setIsLoading(false); setLoadingMessage('')], the [finally] block of
    the editing handlers. *)
Definition stopLoading : Handler unit :=
  call (setIsLoading false) ;; call (setLoadingMessage "").

(** The [catch] block of the editing handlers:
    [setError(getFriendlyErrorMessage(message, context))]. *)
Definition report (context : string) (message : string) : Handler unit :=
  call (setError (Some (getFriendlyErrorMessage message context))).

Definition handleModelFinalized (url : string) : Handler unit :=
  call (setEditor (resetState
    {| modelImageUrl := Some url;
       outfitHistory := [ {| garment := None; poseImages := [(POSE_0, url)] |} ];
       currentOutfitIndex := currentOutfitIndex initialEditorState;
       currentPose := currentPose initialEditorState |})).

Definition handleStartOver : Handler unit :=
  call (setEditor (resetState initialEditorState)) ;;
  call (setIsLoading false) ;;
  call (setLoadingMessage "") ;;
  call (setError None) ;;
  call (setWardrobe (fun _ => defaultWardrobe)) ;;
  call clearSuggestions ;;
  call (setIsStyling false).

(** [nextLayer && nextLayer.garment?.id === garmentInfo.id]. *)
Definition sameGarment (nextLayer : option OutfitLayer) (garmentInfo : WardrobeItem)
  : bool :=
  match nextLayer with
  | Some layer =>
      match garment layer with
      | Some g => bool_decide (id g = id garmentInfo)
      | None => false
      end
  | None => false
  end.

(** The update of the wardrobe at the end of [handleGarmentSelect]. *)
Definition noteGarment (finalGarmentInfo : WardrobeItem)
    (prev : list WardrobeItem) : list WardrobeItem :=
  if existsb (fun item => bool_decide (id item = id finalGarmentInfo)) prev
  then (fun item => if bool_decide (id item = id finalGarmentInfo)
                    then finalGarmentInfo else item) <$> prev
  else prev ++ [finalGarmentInfo].

Definition handleGarmentSelect (garmentFile : Gateway.File)
    (garmentInfo : WardrobeItem) (enhance : bool) : Handler unit :=
  s <- render ;;
  a <- cells ;;
  match displayImageUrl s with
  | None => ret tt
  | Some image =>
      if negb (JS.truthy (Some image)) || isBusy a then ret tt
      else
        call clearSuggestions ;;
        let nextLayer := JS.index (outfitHistory s) (currentOutfitIndex s + 1) in
        if sameGarment nextLayer garmentInfo
        then setEditorState (Functional advanceLayer)
        else
          call (setError None) ;;
          call (setIsLoading true) ;;
          tryCatchFinally
            ( final <-
                (if enhance
                 then
                   call (setLoadingMessage ("Enhancing " +:+ name garmentInfo +:+ "...")) ;;
                   enhancedFile <- await (Gateway.cleanupGarmentImage garmentFile) ;;
                   ret (enhancedFile,
                        {| id := id garmentInfo; name := name garmentInfo;
                           url := createObjectURL enhancedFile |})
                 else ret (garmentFile, garmentInfo)) ;;
              let '(finalGarmentFile, finalGarmentInfo) := final in
              call (setLoadingMessage ("Adding " +:+ name garmentInfo +:+ "...")) ;;
              newImageUrl <- await (Gateway.generateVirtualTryOnImage image finalGarmentFile) ;;
              let newLayer :=
                {| garment := Some finalGarmentInfo;
                   poseImages := [(currentPose s, newImageUrl)] |} in
              setEditorState (Functional (appendLayer newLayer)) ;;
              call (setWardrobe (noteGarment finalGarmentInfo)) )
            (report "Failed to apply garment")
            stopLoading
  end.

Definition handlePoseSelect (newPose : string) : Handler unit :=
  s <- render ;;
  a <- cells ;;
  if isBusy a || bool_decide (length (outfitHistory s) = 0)
     || bool_decide (newPose = currentPose s)
  then ret tt
  else
    call clearSuggestions ;;
    match JS.index (outfitHistory s) (currentOutfitIndex s) with
    | None => throw "Cannot read properties of undefined (reading 'poseImages')"
    | Some currentLayer =>
        if JS.truthyAt (poseImages currentLayer) newPose
        then setEditorState (Functional (switchPose newPose))
        else
          match head (JS.values (poseImages currentLayer)) with
          | None => ret tt
          | Some baseImageForPoseChange =>
              if negb (JS.truthy (Some baseImageForPoseChange)) then ret tt
              else
                call (setError None) ;;
                call (setIsLoading true) ;;
                call (setLoadingMessage "Changing pose...") ;;
                tryCatchFinally
                  ( newImageUrl <-
                      await (Gateway.generatePoseVariation baseImageForPoseChange newPose) ;;
                    setEditorState (Functional (addPoseImage newPose newImageUrl)) )
                  (report "Failed to change pose")
                  stopLoading
          end
    end.

Definition handleBackgroundChange (backgroundPrompt : string) : Handler unit :=
  s <- render ;;
  a <- cells ;;
  match displayImageUrl s with
  | None => ret tt
  | Some image =>
      if negb (JS.truthy (Some image)) || isBusy a then ret tt
      else
        call clearSuggestions ;;
        call (setError None) ;;
        call (setIsLoading true) ;;
        call (setLoadingMessage "Generating new scene...") ;;
        tryCatchFinally
          ( newImageUrl <- await (Gateway.generateBackground image backgroundPrompt) ;;
            setEditorState (Functional (replacePoseImage newImageUrl)) )
          (report "Failed to change background")
          stopLoading
  end.

(** [onRepattern] of [OutfitStack]: the wand button of a garment layer
    stores the target of the next [handleRepattern]. *)
Definition openRepattern (layerIndex : Z) (garmentName : string) : Handler unit :=
  call (setRepatternTarget (Some (layerIndex, garmentName))).

Definition handleRepattern (patternPrompt : string) : Handler unit :=
  s <- render ;;
  a <- cells ;;
  match displayImageUrl s, repatternTarget a with
  | Some image, Some (layerIndex, garmentName) =>
      if negb (JS.truthy (Some image)) || isBusy a then ret tt
      else
        call (setRepatternTarget None) ;;
        call (setError None) ;;
        call (setIsLoading true) ;;
        call (setLoadingMessage
                ("Applying new pattern to " +:+ garmentName +:+ "...")) ;;
        tryCatchFinally
          ( newImageUrl <-
              await (Gateway.repatternGarment image garmentName patternPrompt) ;;
            setEditorState (Functional (repatternLayer newImageUrl)) )
          (report "Failed to repattern garment")
          stopLoading
  | _, _ => ret tt
  end.

Definition handleRemoveLayer (layerIndex : Z) : Handler unit :=
  a <- cells ;;
  if isBusy a then ret tt
  else setEditorState (Functional (removeFrom layerIndex)).

(** [onUndo={undo}] and [onRedo={redo}]. *)
Definition handleUndo : Handler unit :=
  a <- cells ;; call (setEditor (undo (editor a))).

Definition handleRedo : Handler unit :=
  a <- cells ;; call (setEditor (redo (editor a))).

(** *** Sequences of user actions *)

Inductive Action : Type :=
| ModelFinalized (url : string)
| StartOver
| GarmentSelect (garmentFile : Gateway.File) (garmentInfo : WardrobeItem)
                (enhance : bool)
| PoseSelect (newPose : string)
| BackgroundChange (backgroundPrompt : string)
| OpenRepattern (layerIndex : Z) (garmentName : string)
| Repattern (patternPrompt : string)
| RemoveLayer (layerIndex : Z)
| Undo
| Redo.

Definition handler (act : Action) : Handler unit :=
  match act with
  | ModelFinalized url => handleModelFinalized url
  | StartOver => handleStartOver
  | GarmentSelect garmentFile garmentInfo enhance =>
      handleGarmentSelect garmentFile garmentInfo enhance
  | PoseSelect newPose => handlePoseSelect newPose
  | BackgroundChange backgroundPrompt => handleBackgroundChange backgroundPrompt
  | OpenRepattern layerIndex garmentName => openRepattern layerIndex garmentName
  | Repattern patternPrompt => handleRepattern patternPrompt
  | RemoveLayer layerIndex => handleRemoveLayer layerIndex
  | Undo => handleUndo
  | Redo => handleRedo
  end.

End Handlers.

(** One user action, with the answers the gateway gives while its handler
    runs. The cells afterwards are those of the last render, whether the
    handler returned or threw. *)
Record Event : Type := mkEvent {
  action : Action;
  answers : Gateway.Call -> Gateway.Settled
}.

Section Session.

Variable getFriendlyErrorMessage : string -> string -> string.
Variable createObjectURL : Gateway.File -> string.

Definition perform (e : Event) (a : AppState) : Completion unit * World :=
  handler (answers e) getFriendlyErrorMessage createObjectURL (action e)
          {| app := a; calls := [] |}.

(** The cells after the event; [None] when the handler left the typed
    fragment. *)
Definition after (e : Event) (a : AppState) : option AppState :=
  match perform e a with
  | (IllTyped, _) => None
  | (_, w) => Some (app w)
  end.

Fixpoint session (es : list Event) (a : AppState) : option AppState :=
  match es with
  | [] => Some a
  | e :: es' =>
      match after e a with
      | Some a' => session es' a'
      | None => None
      end
  end.

End Session.

(** *** Invariants of the data model (section 3 of the specification) *)

(** [activeLayerIndex] is a valid index into [layers]. *)
Definition validIndex (s : EditorState) : Prop :=
  (0 <= currentOutfitIndex s < Z.of_nat (length (outfitHistory s)))%Z.

(** [layers[0]] has no garment. *)
Definition baseLayerBare (s : EditorState) : Prop :=
  forall layer, JS.index (outfitHistory s) 0 = Some layer -> garment layer = None.

(** Every layer has at least one pose image. *)
Definition posesNonEmpty (s : EditorState) : Prop :=
  forall layer, layer ∈ outfitHistory s -> poseImages layer <> [].

(** The active layer is the last layer. *)
Definition activeIsLast (s : EditorState) : Prop :=
  outfitHistory s <> [] ->
  currentOutfitIndex s = (Z.of_nat (length (outfitHistory s)) - 1)%Z.

(** The invariant of a snapshot: with no layer there is no model image;
    with layers, the index is valid and the base layer is bare; every
    layer has a pose image; and no layer follows the active one. *)
Definition snapshotInvariant (s : EditorState) : Prop :=
  (outfitHistory s = [] -> modelImageUrl s = None) /\
  (outfitHistory s <> [] -> validIndex s /\ baseLayerBare s) /\
  posesNonEmpty s /\
  activeIsLast s.

(** The invariant of the cells: the cursor of the hook points into its
    history and every snapshot of the history has the snapshot invariant. *)
Definition appInvariant (a : AppState) : Prop :=
  wf (editor a) /\ Forall snapshotInvariant (history (editor a)).

(** *** Vocabulary of the properties *)

(** A dictionary after further insertions [{ ...obj, [k]: v }]. *)
Definition inserts (obj : JS.Dict) (entries : list (string * string)) : JS.Dict :=
  foldl (fun d kv => JS.set d kv.1 kv.2) obj entries.

(** *** [displayedImage] in the words of the specification

    The specification derives the displayed image from pose-variant maps
    that remember the order of insertion. [Variants] is such a map, given
    by its writes, oldest first. *)
Definition Variants : Type := list (string * string).

(** [L.poseVariants[pose]]: the image last written under [pose]. *)
Fixpoint variant (writes : Variants) (pose : string) : option string :=
  match writes with
  | [] => None
  | (k, v) :: later =>
      match variant later pose with
      | Some image => Some image
      | None => if bool_decide (k = pose) then Some v else None
      end
  end.

(** The first-inserted key. *)
Definition firstInserted (writes : Variants) : option string :=
  fst <$> head writes.

(** [displayedImage(snapshot)]: if [layers] is empty, [modelImageRef];
    else let [L = layers[activeLayerIndex]]; return
    [L.poseVariants[activePose]] if present, else the value at the
    first-inserted key of [L.poseVariants]. The specification says
    nothing of an index outside [layers]. *)
Definition displayedImage (modelImageRef : option string) (layers : list Variants)
    (activeLayerIndex : Z) (activePose : string) : option string :=
  match layers with
  | [] => modelImageRef
  | _ =>
      match JS.index layers activeLayerIndex with
      | Some L =>
          match variant L activePose with
          | Some image => Some image
          | None =>
              match firstInserted L with
              | Some k0 => variant L k0
              | None => None
              end
          end
      | None => None
      end
  end.

(** The dictionary that the source holds after the writes: the first write
    makes the object, [{ [k]: v }], and each later one copies it,
    [{ ...obj, [k]: v }]. *)
Definition objectOf (writes : Variants) : JS.Dict := inserts [] writes.

(** The handlers that call the gateway to build a new snapshot. *)
Definition callsGateway (act : Action) : bool :=
  match act with
  | GarmentSelect _ _ _ | PoseSelect _ | BackgroundChange _ | Repattern _ => true
  | _ => false
  end.

(** The scenario of section 8 of the specification: finalize the model,
    apply a garment, undo, apply the same garment again. The result holds
    the cells after each of the first three steps and the world after the
    fourth, whose [calls] are those of the fourth step alone. *)
Definition reapplyScenario (gateway : Gateway.Call -> Gateway.Settled)
    (getFriendlyErrorMessage : string -> string -> string)
    (createObjectURL : Gateway.File -> string)
    (M : string) (garmentFile : Gateway.File) (g1 : WardrobeItem)
  : option (AppState * AppState * AppState * World) :=
  let step act := after getFriendlyErrorMessage createObjectURL
                        {| action := act; answers := gateway |} in
  match step (ModelFinalized M) initialAppState with
  | None => None
  | Some a1 =>
      match step (GarmentSelect garmentFile g1 false) a1 with
      | None => None
      | Some a2 =>
          match step Undo a2 with
          | None => None
          | Some a3 =>
              Some (a1, a2, a3,
                    (perform getFriendlyErrorMessage createObjectURL
                       {| action := GarmentSelect garmentFile g1 false;
                          answers := gateway |} a3).2)
          end
      end
  end.

(** What the cells show: the displayed image and the active layer index. *)
Definition shown (a : AppState) : option (option string * Z) :=
  match editorState a with
  | Some s => Some (displayImageUrl s, currentOutfitIndex s)
  | None => None
  end.

(** The layer that the current snapshot holds at [index]. *)
Definition layerAt (a : AppState) (index : Z) : option OutfitLayer :=
  match editorState a with
  | Some s => JS.index (outfitHistory s) index
  | None => None
  end.

(** The scenario as the specification tells it. *)
Definition scenarioAsSpecified (M X : string) (g1 : WardrobeItem)
    (run : option (AppState * AppState * AppState * World)) : Prop :=
  exists a1 a2 a3 w4,
    run = Some (a1, a2, a3, w4) /\
    shown a1 = Some (Some M, 0%Z) /\
    (exists s1, editorState a1 = Some s1 /\ length (outfitHistory s1) = 1) /\
    shown a2 = Some (Some X, 1%Z) /\
    shown a3 = Some (Some M, 0%Z) /\
    (exists layer, layerAt a3 1 = Some layer /\ garment layer = Some g1) /\
    (exists index, shown (app w4) = Some (Some X, index)) /\
    calls w4 = [].

(** What a handler that reached the gateway leaves behind when a call was
    rejected, and in any case. *)
Definition atomicOnFailure (getFriendlyErrorMessage : string -> string -> string)
    (answers : Gateway.Call -> Gateway.Settled) (a : AppState)
    (outcome : Completion unit * World) : Prop :=
  ((exists c, c ∈ calls outcome.2 /\ Gateway.rejected (answers c) = true) ->
     outcome.1 = Normal tt /\
     editor (app outcome.2) = editor a /\
     (exists message context,
        error (app outcome.2) = Some (getFriendlyErrorMessage message context)) /\
     isLoading (app outcome.2) = false /\
     loadingMessage (app outcome.2) = "" /\
     isBusy (app outcome.2) = false) /\
  (calls outcome.2 <> [] -> outcome.1 <> IllTyped ->
     isLoading (app outcome.2) = false /\ loadingMessage (app outcome.2) = "").

(** A handler stays in the typed fragment and leaves cells with the
    invariant. *)
Definition keepsInvariant (outcome : Completion unit * World) : Prop :=
  outcome.1 <> IllTyped /\ appInvariant (app outcome.2).

(** *** Proof automation *)

(** A rejected call among recorded calls that were all fulfilled. *)
Ltac no_rejection :=
  match goal with
  | H : exists c, c ∈ _ /\ Gateway.rejected _ = true |- _ =>
      let c := fresh "c" in
      let Hin := fresh "Hin" in
      let Hrej := fresh "Hrej" in
      destruct H as (c & Hin & Hrej); cbn in Hin;
      repeat (apply elem_of_cons in Hin as [-> | Hin];
              [match goal with E : _ = Gateway.Fulfilled _ |- _ =>
                 rewrite E in Hrej; discriminate end|]);
      try (by apply elem_of_nil in Hin)
  end.

(** Closing a branch of a handler: nothing was rejected, or the cells
    are read off. *)
Ltac settle_outcome :=
  red; cbn;
  split; [intros Hfail; try no_rejection; try done;
          repeat split; eauto
         |intros Hcalls Hdone; try done].

(** Unfolding the plumbing of a handler up to its next test. *)
Ltac run_handler :=
  cbv beta iota zeta delta
    [bind ret throw call cells render await tryCatchFinally stopLoading report
     app calls negb orb andb].

End App.

(** ** How the handlers write the hook *)

Module Edits.
Import Types App.

(** The snapshot that [handleModelFinalized] installs. *)
Definition finalized (url : string) : EditorState :=
  {| modelImageUrl := Some url;
     outfitHistory := [ {| garment := None; poseImages := [(POSE_0, url)] |} ];
     currentOutfitIndex := 0;
     currentPose := POSE_0 |}.

(** The updates that the handlers pass to [setEditorState] on a snapshot
    [s], each with what its handler has checked before. *)
Inductive edit (s : EditorState) : (EditorState -> Completion EditorState) -> Prop :=
| edit_advance (nextLayer : OutfitLayer) :
    JS.index (outfitHistory s) (currentOutfitIndex s + 1) = Some nextLayer ->
    edit s advanceLayer
| edit_append (image : string) (finalGarmentInfo : WardrobeItem) (newImageUrl : string) :
    displayImageUrl s = Some image ->
    edit s (appendLayer {| garment := Some finalGarmentInfo;
                           poseImages := [(currentPose s, newImageUrl)] |})
| edit_switch (currentLayer : OutfitLayer) (newPose : string) :
    JS.index (outfitHistory s) (currentOutfitIndex s) = Some currentLayer ->
    JS.truthyAt (poseImages currentLayer) newPose = true ->
    edit s (switchPose newPose)
| edit_addPose (currentLayer : OutfitLayer) (newPose newImageUrl : string) :
    JS.index (outfitHistory s) (currentOutfitIndex s) = Some currentLayer ->
    edit s (addPoseImage newPose newImageUrl)
| edit_replace (image newImageUrl : string) :
    displayImageUrl s = Some image ->
    edit s (replacePoseImage newImageUrl)
| edit_repattern (image newImageUrl : string) :
    displayImageUrl s = Some image ->
    edit s (repatternLayer newImageUrl)
| edit_remove (layerIndex : Z) :
    edit s (removeFrom layerIndex).

(** The hook after an editing handler, seen from the cells [a] before
    it: as it was, or with one edit of the current snapshot installed. *)
Inductive editStep (a : AppState) (h' : Undoable) : Prop :=
| kept : h' = editor a -> editStep a h'
| edited (s s' : EditorState) (update : EditorState -> Completion EditorState) :
    editorState a = Some s ->
    edit s update ->
    update s = Normal s' ->
    h' = install sameJSON s' s (editor a) ->
    editStep a h'.

(** The hook after any handler. *)
Inductive transition (a : AppState) (h' : Undoable) : Prop :=
| by_edit : editStep a h' -> transition a h'
| started_over : h' = resetState initialEditorState -> transition a h'
| model_finalized (url : string) : h' = resetState (finalized url) -> transition a h'
| undone : h' = undo (editor a) -> transition a h'
| redone : h' = redo (editor a) -> transition a h'.

(** The actions whose handlers edit the current snapshot. *)
Definition edits (act : Action) : bool :=
  match act with
  | GarmentSelect _ _ _ | PoseSelect _ | BackgroundChange _ | Repattern _
  | RemoveLayer _ | OpenRepattern _ _ => true
  | _ => false
  end.

(** The active layer holds an image for the active pose. *)
Definition poseIsCached (s : EditorState) : Prop :=
  outfitHistory s <> [] ->
  exists layer image,
    JS.index (outfitHistory s) (currentOutfitIndex s) = Some layer /\
    JS.get (poseImages layer) (currentPose s) = Some image.

(** The active pose is cached, unless it is the name of an inherited
    member, which [handleRemoveLayer] keeps whatever the layer holds. *)
Definition cachedUnlessInherited (s : EditorState) : Prop :=
  JS.inherited (currentPose s) = false -> poseIsCached s.

(** The invariant of a snapshot, with one more fact: a snapshot without a
    model image has no layer. *)
Definition steady (s : EditorState) : Prop :=
  snapshotInvariant s /\
  (modelImageUrl s = None -> outfitHistory s = []).

(** The cells have a well-formed hook whose snapshots are all steady and
    share one model image. *)
Definition steadyCells (a : AppState) : Prop :=
  wf (editor a) /\
  Forall steady (history (editor a)) /\
  exists model, Forall (fun s => modelImageUrl s = model) (history (editor a)).

End Edits.

(** ** Vocabulary of the further properties of the editor *)

Module EditsMore.
Import Types App.

(** The handlers that return at once while the editor is busy. *)
Definition gated (act : Action) : bool :=
  match act with
  | GarmentSelect _ _ _ | PoseSelect _ | BackgroundChange _ | Repattern _
  | RemoveLayer _ => true
  | _ => false
  end.


(** The cells after a model "M" was finalized and a garment applied with
    the pose "Side profile view" cached for the top layer. *)
Definition dressed : AppState :=
  let g1 := {| id := "g1"; name := "Shirt"; url := "u1" |} in
  let base := {| garment := None; poseImages := [(POSE_0, "M")] |} in
  let top := {| garment := Some g1;
                poseImages := [(POSE_0, "X"); ("Side profile view", "S")] |} in
  setEditor (resetState {| modelImageUrl := Some "M"; outfitHistory := [base; top];
                           currentOutfitIndex := 1; currentPose := POSE_0 |})
            initialAppState.

End EditsMore.

(** ** Saved looks ([handleSaveLook], [handleLoadLook], [handleDeleteLook])

    The archive of looks is one more [useState] cell of [App]. Its copy in
    [localStorage], written after every change and read when the component
    mounts, is left out: the archive starts empty. *)

Module Looks.
Import Types.

(** [SavedLook] of [types.ts]. *)
Record SavedLook : Type := mkSavedLook {
  id : string;
  thumbnailUrl : string;
  savedAt : string;
  editorState : EditorState
}.

(** The cells of [App] together with [savedLooks]. *)
Record Studio : Type := mkStudio {
  ui : App.AppState;
  savedLooks : list SavedLook
}.

Definition initialStudio : Studio :=
  {| ui := App.initialAppState; savedLooks := [] |}.

(** [isLookSaved]:
    [savedLooks.some(look => look.thumbnailUrl === displayImageUrl)]. *)
Definition isLookSaved (looks : list SavedLook) (displayImageUrl : option string)
  : bool :=
  existsb (fun look =>
             match displayImageUrl with
             | Some image => bool_decide (thumbnailUrl look = image)
             | None => false
             end) looks.

(** [handleSaveLook]. [timestamp] is the text of [Date.now()] and
    [isoDate] that of [new Date().toISOString()] when the handler runs. *)
Definition handleSaveLook (timestamp isoDate : string) (st : Studio)
  : Completion Studio :=
  match App.editorState (ui st) with
  | None => IllTyped
  | Some s =>
      match App.displayImageUrl s with
      | None => Normal st
      | Some image =>
          if negb (JS.truthy (Some image)) || negb (JS.truthy (modelImageUrl s))
             || isLookSaved (savedLooks st) (Some image)
          then Normal st
          else
            let newSavedLook :=
              {| id := "look-" +:+ timestamp;
                 thumbnailUrl := image;
                 savedAt := isoDate;
                 editorState := s |} in
            Normal {| ui := ui st; savedLooks := savedLooks st ++ [newSavedLook] |}
      end
  end.

(** [handleLoadLook]. *)
Definition handleLoadLook (lookId : string) (st : Studio) : Studio :=
  if App.isBusy (ui st) then st
  else
    match List.find (fun look => bool_decide (id look = lookId)) (savedLooks st) with
    | Some lookToLoad =>
        {| ui := App.setEditor (UndoableState.resetState (editorState lookToLoad))
                   (App.setError None (App.clearSuggestions (ui st)));
           savedLooks := savedLooks st |}
    | None => st
    end.

(** [handleDeleteLook]. *)
Definition handleDeleteLook (lookId : string) (st : Studio) : Studio :=
  {| ui := ui st;
     savedLooks := filter (fun look => id look <> lookId) (savedLooks st) |}.

(** The user actions of the editor with the archive. *)
Inductive StudioAction : Type :=
| Edit (e : App.Event)
| SaveLook (timestamp isoDate : string)
| LoadLook (lookId : string)
| DeleteLook (lookId : string).

Section Session.

Variable getFriendlyErrorMessage : string -> string -> string.
Variable createObjectURL : Gateway.File -> string.

(** The studio after an action; [None] when a handler left the typed
    fragment. *)
Definition studioStep (act : StudioAction) (st : Studio) : option Studio :=
  match act with
  | Edit e =>
      match App.after getFriendlyErrorMessage createObjectURL e (ui st) with
      | Some a => Some {| ui := a; savedLooks := savedLooks st |}
      | None => None
      end
  | SaveLook timestamp isoDate =>
      match handleSaveLook timestamp isoDate st with
      | Normal st' => Some st'
      | _ => None
      end
  | LoadLook lookId => Some (handleLoadLook lookId st)
  | DeleteLook lookId => Some (handleDeleteLook lookId st)
  end.

Fixpoint studioSession (acts : list StudioAction) (st : Studio) : option Studio :=
  match acts with
  | [] => Some st
  | act :: acts' =>
      match studioStep act st with
      | Some st' => studioSession acts' st'
      | None => None
      end
  end.

End Session.

(** What holds of every look of an archive that the editor filled: its
    snapshot is steady and displays its thumbnail. *)
Definition soundLook (look : SavedLook) : Prop :=
  Edits.steady (editorState look) /\
  App.displayImageUrl (editorState look) = Some (thumbnailUrl look) /\
  thumbnailUrl look <> "".

Definition studioInvariant (st : Studio) : Prop :=
  Edits.steadyCells (ui st) /\
  Forall soundLook (savedLooks st) /\
  NoDup (thumbnailUrl <$> savedLooks st).

End Looks.

(** ** The image service ([services/geminiService.ts])

    The functions through which the handlers of [App] reach the model:
    the parser of data URLs, the reader of a response, and two of the
    requests built from them. A string of the service is a sequence of
    code units below 256; [ai.models.generateContent] is an oracle from
    requests to answers. *)

Module GeminiService.
Import Stdlib.Strings.Ascii.

(** [s.includes(c)] for a single character. *)
Fixpoint includes (c : ascii) (s : string) : bool :=
  match s with
  | EmptyString => false
  | String c' s' => bool_decide (c' = c) || includes c s'
  end.

(** [s.split(sep)] for a separator of one character: the pieces between
    the separators, of which there is always at least one. *)
Fixpoint split (sep : ascii) (s : string) : list string :=
  match s with
  | EmptyString => [""]
  | String c s' =>
      if bool_decide (c = sep) then "" :: split sep s'
      else
        match split sep s' with
        | piece :: pieces => String c piece :: pieces
        | [] => [String c ""]
        end
  end.

(** The characters that [.] of a regular expression does not match; below
    256 these are the line feed and the carriage return. *)
Definition lineTerminator (c : ascii) : bool :=
  bool_decide (c = "010"%char) || bool_decide (c = "013"%char).

(** [(.*?);] tried at the start of [s]: the shortest run of characters
    that [.] matches up to a [;]. The result is the text of the group. *)
Fixpoint lazyUntilSemicolon (s : string) : option string :=
  match s with
  | EmptyString => None
  | String c s' =>
      if bool_decide (c = ";"%char) then Some ""
      else if lineTerminator c then None
      else String c <$> lazyUntilSemicolon s'
  end.

(** [s.match(/:(.*?);/)]: the pattern is tried at each position from the
    left; the result is group 1 of the first match, [None] for [null]. *)
Fixpoint matchMime (s : string) : option string :=
  match s with
  | EmptyString => None
  | String c s' =>
      if bool_decide (c = ":"%char) then
        match lazyUntilSemicolon s' with
        | Some group1 => Some group1
        | None => matchMime s'
        end
      else matchMime s'
  end.

(** The object [{ mimeType, data }] that [dataUrlToParts] returns. *)
Record Parts : Type := mkParts {
  partsMimeType : string;
  partsData : string
}.

(** [dataUrlToParts]. *)
Definition dataUrlToParts (dataUrl : string) : Completion Parts :=
  match split "," dataUrl with
  | arr0 :: arr1 :: _ =>
      match matchMime arr0 with
      | Some group1 =>
          if negb (JS.truthy (Some group1))
          then Thrown "Could not parse MIME type from data URL"
          else Normal {| partsMimeType := group1; partsData := arr1 |}
      | None => Thrown "Could not parse MIME type from data URL"
      end
  | _ => Thrown "Invalid data URL"
  end.

(** [Blob], [Part], [Content], [Candidate] and [GenerateContentResponse]
    of the SDK, with the fields that the service reads. Every field is
    optional in the SDK's types. *)
Record Blob : Type := mkBlob {
  mimeType : option string;
  data : option string
}.

Record Part : Type := mkPart {
  inlineData : option Blob;
  text : option string
}.

Record Content : Type := mkContent {
  parts : option (list Part)
}.

Record Candidate : Type := mkCandidate {
  content : option Content;
  finishReason : option string
}.

Record PromptFeedback : Type := mkPromptFeedback {
  blockReason : option string;
  blockReasonMessage : option string
}.

(** [responseText] is the accessor [response.text]. *)
Record GenerateContentResponse : Type := mkResponse {
  promptFeedback : option PromptFeedback;
  candidates : option (list Candidate);
  responseText : option string
}.

(** [dataUrlToPart]. *)
Definition dataUrlToPart (dataUrl : string) : Completion Part :=
  match dataUrlToParts dataUrl with
  | Normal p =>
      Normal {| inlineData := Some {| mimeType := Some (partsMimeType p);
                                      data := Some (partsData p) |};
                text := None |}
  | Thrown message => Thrown message
  | IllTyped => IllTyped
  end.

(** A value inside a template literal: [undefined] prints as its name. *)
Definition interpolate (v : option string) : string := default "undefined" v.

(** [x || ''] for an optional string. *)
Definition orEmpty (v : option string) : string :=
  if JS.truthy v then default "" v else "".

(** [candidate.content?.parts?.find(part => part.inlineData)], and then
    [imagePart?.inlineData]. *)
Definition imagePart (candidate : Candidate) : option Blob :=
  match content candidate with
  | Some c =>
      match parts c with
      | Some ps =>
          match List.find (fun part => bool_decide (is_Some (inlineData part))) ps with
          | Some part => inlineData part
          | None => None
          end
      | None => None
      end
  | None => None
  end.

(** The loop over the candidates: the image of the first candidate that
    has one. *)
Fixpoint firstImage (cs : list Candidate) : option Blob :=
  match cs with
  | [] => None
  | candidate :: cs' =>
      match imagePart candidate with
      | Some image => Some image
      | None => firstImage cs'
      end
  end.

(** An image that a data URL can carry: its MIME type is not empty and
    has no [;], no [,] and no line terminator, and its data has no [,]. *)
Definition plainImage (image : Blob) : bool :=
  match mimeType image, data image with
  | Some m, Some d =>
      JS.truthy (Some m) && negb (includes ";" m) && negb (includes "," m)
      && negb (includes "010" m) && negb (includes "013" m)
      && negb (includes "," d)
  | _, _ => false
  end.

Definition quote : string := String "034"%char "".

Section Response.

(** [String.prototype.trim]. *)
Variable trim : string -> string.

(** [handleApiResponse]. *)
Definition handleApiResponse (response : GenerateContentResponse)
  : Completion string :=
  let blocked :=
    match promptFeedback response with
    | Some feedback => if JS.truthy (blockReason feedback) then Some feedback else None
    | None => None
    end in
  match blocked with
  | Some feedback =>
      Thrown ("Request was blocked. Reason: " +:+ interpolate (blockReason feedback)
              +:+ ". " +:+ orEmpty (blockReasonMessage feedback))
  | None =>
      match firstImage (default [] (candidates response)) with
      | Some image =>
          Normal ("data:" +:+ interpolate (mimeType image) +:+ ";base64,"
                  +:+ interpolate (data image))
      | None =>
          let finishReason :=
            match candidates response with
            | Some (candidate :: _) => finishReason candidate
            | _ => None
            end in
          if JS.truthy finishReason && negb (bool_decide (finishReason = Some "STOP"))
          then
            Thrown ("Image generation stopped unexpectedly. Reason: "
                    +:+ interpolate finishReason
                    +:+ ". This often relates to safety settings.")
          else
            let textFeedback := trim <$> responseText response in
            Thrown ("The AI model did not return an image. " +:+
                    (if JS.truthy textFeedback
                     then "The model responded with text: " +:+ quote
                          +:+ interpolate textFeedback +:+ quote
                     else "This can happen due to safety filters or if the request is too complex. Please try a different image."))
      end
  end.

(** The argument of [ai.models.generateContent]. *)
Record Request : Type := mkRequest {
  model : string;
  contents : list Part;
  responseModalities : list string
}.

(** How a call of [ai.models.generateContent] settles. *)
Inductive Answer : Type :=
| Responded (response : GenerateContentResponse)
| Failed (message : string).

Variable generateContent : Request -> Answer.

Definition imageModel : string := "gemini-2.5-flash-image-preview".

(** The body of an image request after its image part has been built:
    the result of the promise, with the requests that were sent. *)
Definition requestImage (imagePart : Completion Part) (prompt : string)
  : Completion string * list Request :=
  match imagePart with
  | Normal part =>
      let request :=
        {| model := imageModel;
           contents := [part; {| inlineData := None; text := Some prompt |}];
           responseModalities := ["IMAGE"; "TEXT"] |} in
      (match generateContent request with
       | Responded response => handleApiResponse response
       | Failed message => Thrown message
       end, [request])
  | Thrown message => (Thrown message, [])
  | IllTyped => (IllTyped, [])
  end.

(** [generatePoseVariation]. *)
Definition generatePoseVariation (tryOnImageUrl poseInstruction : string)
  : Completion string * list Request :=
  let tryOnImagePart := dataUrlToPart tryOnImageUrl in
  let prompt :=
    "You are an expert fashion photographer AI. Take this image and regenerate it. The person, all clothing, and the background style must remain identical. The only change is the person's pose, which should now be: "
    +:+ quote +:+ poseInstruction +:+ quote +:+ ". Return ONLY the final image." in
  requestImage tryOnImagePart prompt.

(** [generateBackground]. *)
Definition generateBackground (baseImageUrl prompt : string)
  : Completion string * list Request :=
  let baseImagePart := dataUrlToPart baseImageUrl in
  let fullPrompt :=
    "You are a professional photo editor. Your task is to seamlessly change the background of the provided image. The subject (person and their clothing) must remain completely unchanged, including their lighting and shadows. The new background should be photorealistic and match this description: "
    +:+ quote +:+ prompt +:+ quote +:+ ". Return ONLY the edited image." in
  requestImage baseImagePart fullPrompt.

End Response.

End GeminiService.

(** ** The event stylist ([handleEventStylist])

    The handler asks for a new background and for a style suggestion at
    once and waits for both with [Promise.all]. The request for the
    suggestion does not go through [Gateway.Call]; how it settles is given
    beside the gateway. The cell [isEventStylistOpen] of the dialog is
    left out. *)

Module Stylist.
Import Types App.



Section Handlers.

Variable gateway : Gateway.Call -> Gateway.Settled.
Variable getFriendlyErrorMessage : string -> string -> string.

(** How [getStyleSuggestion(imageUrl, context)] settles, and whether it
    does so before [generateBackground]. *)
Variable getStyleSuggestion : string -> string -> Gateway.Settled.
Variable suggestionSettlesFirst : bool.


Definition quote : string := String (Ascii.ascii_of_nat 34) "".


End Handlers.

End Stylist.

(** ** The rows of the outfit stack ([components/OutfitStack.tsx]) *)

Module Stack.
Import Types App.

(** The rows on which the stack renders the repattern button,
    [layer.garment && <button onClick={() => onRepattern({ layerIndex:
    index, garmentName: layer.garment!.name })}>], each with the target
    that a click hands to [onRepattern]. *)
Definition repatternButtons (layers : list OutfitLayer) : list (Z * string) :=
  omap (fun row : nat * OutfitLayer =>
          match garment row.2 with
          | Some g => Some (Z.of_nat row.1, name g)
          | None => None
          end)
       (zip (seq 0 (length layers)) layers).

(** The label of a row: [layer.garment ? layer.garment.name : 'Base Model']. *)
Definition rowLabel (layer : OutfitLayer) : string :=
  match garment layer with
  | Some g => name g
  | None => "Base Model"
  end.

(** Every layer above the base carries a garment. *)
Definition dressedAbove (s : EditorState) : Prop :=
  forall i layer, outfitHistory s !! S i = Some layer -> garment layer <> None.

End Stack.

(** ** The style blender of the wardrobe panel ([components/WardrobePanel.tsx]) *)

Module WardrobePanel.
Import Types.

Inductive Slot : Type := item1 | item2.

(** The cells of the blender: [blendItem1], [blendItem2] and
    [isSelectingFor]. *)
Record Panel : Type := mkPanel {
  blendItem1 : option WardrobeItem;
  blendItem2 : option WardrobeItem;
  isSelectingFor : option Slot
}.

Definition initialPanel : Panel :=
  {| blendItem1 := None; blendItem2 := None; isSelectingFor := None |}.

Definition setBlendItem1 (item : option WardrobeItem) (p : Panel) : Panel :=
  {| blendItem1 := item; blendItem2 := blendItem2 p;
     isSelectingFor := isSelectingFor p |}.

Definition setBlendItem2 (item : option WardrobeItem) (p : Panel) : Panel :=
  {| blendItem1 := blendItem1 p; blendItem2 := item;
     isSelectingFor := isSelectingFor p |}.

Definition setIsSelectingFor (slot : option Slot) (p : Panel) : Panel :=
  {| blendItem1 := blendItem1 p; blendItem2 := blendItem2 p;
     isSelectingFor := slot |}.

(** [handleBlendSelection]. [item.id !== blendItem2?.id] holds when the
    other slot is empty. *)
Definition handleBlendSelection (item : WardrobeItem) (p : Panel) : Panel :=
  let p' :=
    match isSelectingFor p with
    | Some item1 =>
        if negb (bool_decide (Some (id item) = id <$> blendItem2 p))
        then setBlendItem1 (Some item) p else p
    | Some item2 =>
        if negb (bool_decide (Some (id item) = id <$> blendItem1 p))
        then setBlendItem2 (Some item) p else p
    | None => p
    end in
  setIsSelectingFor None p'.

(** What the user can do in the blender: open the choice for a slot
    ([BlendItemSlot]), go back, pick an item of the wardrobe. *)
Inductive PanelAction : Type :=
| OpenSlot (slot : Slot)
| Back
| Pick (item : WardrobeItem).

Definition panelStep (p : Panel) (act : PanelAction) : Panel :=
  match act with
  | OpenSlot slot => setIsSelectingFor (Some slot) p
  | Back => setIsSelectingFor None p
  | Pick item => handleBlendSelection item p
  end.

(** The arguments of [onStyleBlend] when the "Experiment" button is
    clicked; the button is disabled with
    [!blendItem1 || !blendItem2 || isLoading]. *)
Definition experiment (isLoading : bool) (p : Panel)
  : option (WardrobeItem * WardrobeItem) :=
  match blendItem1 p, blendItem2 p with
  | Some first, Some second => if isLoading then None else Some (first, second)
  | _, _ => None
  end.

End WardrobePanel.

(** * Properties of the undo/redo hook *)

Module HookLaws.
Import UndoableState.

Section Laws.

Context {T : Type} (sameJSON : T -> T -> bool).
Implicit Types (h : Undoable (T := T)) (st cur before r : T).

Lemma state_wf h st : state h = Some st -> wf h.
Proof. unfold state, wf. apply lookup_lt_Some. Qed.

Lemma wf_state h : wf h -> exists st, state h = Some st.
Proof. unfold state, wf. intros Hlt. by apply lookup_lt_is_Some_2. Qed.

(** What [install] builds when the resolved state differs. *)
Lemma install_distinct r st h :
  state h = Some st -> sameJSON r st = false ->
  install sameJSON r st h =
    {| history := take (currentIndex h + 1) (history h) ++ [r];
       currentIndex := currentIndex h + 1 |}.
Proof.
  intros Hst Hne. apply state_wf in Hst. unfold wf in Hst.
  unfold install. rewrite Hne. cbn. f_equal.
  rewrite length_app, length_take. cbn. lia.
Qed.

Lemma install_same r st h : sameJSON r st = true -> install sameJSON r st h = h.
Proof. intros Heq. unfold install. by rewrite Heq. Qed.

Lemma install_wf r st h : state h = Some st -> wf (install sameJSON r st h).
Proof.
  intros Hst. destruct (sameJSON r st) eqn:E.
  - rewrite install_same by done. by eapply state_wf.
  - rewrite install_distinct by done. apply state_wf in Hst.
    unfold wf in *. cbn. rewrite length_app, length_take. cbn. lia.
Qed.

Lemma install_state r st h :
  state h = Some st -> sameJSON r st = false ->
  state (install sameJSON r st h) = Some r.
Proof.
  intros Hst Hne. rewrite install_distinct by done.
  apply state_wf in Hst. unfold wf in Hst. unfold state. cbn.
  rewrite lookup_app_r; rewrite length_take; [|lia].
  replace (currentIndex h + 1 - _) with 0 by lia. done.
Qed.

(** The entries up to the cursor survive a [setState]. *)
Lemma install_keeps r st h i :
  state h = Some st -> sameJSON r st = false -> i <= currentIndex h ->
  history (install sameJSON r st h) !! i = history h !! i.
Proof.
  intros Hst Hne Hi. rewrite install_distinct by done.
  apply state_wf in Hst. unfold wf in Hst. cbn.
  rewrite lookup_app_l by (rewrite length_take; lia).
  apply lookup_take_lt. lia.
Qed.

Lemma undo_wf h : wf h -> wf (undo h).
Proof. unfold wf, undo. case_bool_decide; cbn; lia. Qed.

Lemma redo_wf h : wf h -> wf (redo h).
Proof. unfold wf, redo. case_bool_decide; cbn; lia. Qed.

Lemma undo_history h : history (undo h) = history h.
Proof. unfold undo. by case_bool_decide. Qed.

Lemma redo_history h : history (redo h) = history h.
Proof. unfold redo. by case_bool_decide. Qed.

Lemma undo_cursor h : currentIndex (undo h) = currentIndex h - 1.
Proof. unfold undo. case_bool_decide; cbn; lia. Qed.

Lemma undo_at_start h : canUndo h = false -> undo h = h.
Proof. unfold canUndo, undo. by intros ->. Qed.

Lemma redo_undo h : wf h -> canUndo h = true -> redo (undo h) = h.
Proof.
  unfold wf, canUndo, undo. intros Hwf Hcan. rewrite Hcan.
  apply bool_decide_eq_true in Hcan. unfold redo. cbn.
  rewrite bool_decide_eq_true_2 by lia.
  destruct h as [hist i]. cbn in *. f_equal. lia.
Qed.

(** A [setState] that is not coalesced is undone by [undo]. *)
Lemma undo_install r st h :
  state h = Some st -> sameJSON r st = false ->
  state (undo (install sameJSON r st h)) = Some st.
Proof.
  intros Hst Hne. unfold state. rewrite undo_history, undo_cursor.
  rewrite install_keeps by (done || (rewrite install_distinct by done; cbn; lia)).
  rewrite install_distinct by done. cbn.
  replace (currentIndex h + 1 - 1) with (currentIndex h) by lia. done.
Qed.

Lemma setState_Value v h st :
  state h = Some st -> setState sameJSON (Value v) h = Normal (install sameJSON v st h).
Proof. intros Hst. unfold setState. by rewrite Hst. Qed.

(** C3 (no-op coalescing). In a hook whose current value is [st], a
    [setState] whose argument resolves to [r] completes normally. When [r]
    has the same JSON text as [st] the hook is unchanged, so neither the
    length of the history nor the cursor moves. Otherwise the entries after
    the cursor are dropped, [r] is appended and the cursor is the last
    position: the entries up to the old cursor are kept, the history has
    [currentIndex + 2] entries and [r] is the current value. *)
Theorem setState_coalesces (newState : SetStateAction) h st r :
  state h = Some st ->
  resolve newState st = Normal r ->
  exists h',
    setState sameJSON newState h = Normal h' /\
    (sameJSON r st = true -> h' = h) /\
    (sameJSON r st = false ->
       history h' = take (currentIndex h + 1) (history h) ++ [r] /\
       currentIndex h' = length (history h') - 1 /\
       currentIndex h' = currentIndex h + 1 /\
       length (history h') = currentIndex h + 2 /\
       (forall i, i <= currentIndex h -> history h' !! i = history h !! i) /\
       state h' = Some r).
Proof.
  intros Hst Hres. exists (install sameJSON r st h).
  split; [unfold setState; by rewrite Hst, Hres|].
  split; [apply install_same|].
  intros Hne. pose proof (state_wf _ _ Hst) as Hwf. unfold wf in Hwf.
  pose proof (install_distinct r st h Hst Hne) as Heq.
  rewrite Heq. cbn.
  assert (length (take (currentIndex h + 1) (history h) ++ [r]) = currentIndex h + 2) as Hlen.
  { rewrite length_app, length_take. cbn. lia. }
  repeat split; try lia; try done.
  - intros i Hi. rewrite <- (install_keeps r st h i Hst Hne Hi). by rewrite Heq.
  - pose proof (install_state r st h Hst Hne) as Hs. by rewrite Heq in Hs.
Qed.

(** What the calls of one render leave: the hook with the value of the
    last call that is not coalesced installed on the closure of the
    render, or the hook as written before when there is none. *)
Lemma setStatesInRender_total (calls : list SetStateAction) h written cur :
  state h = Some cur ->
  Forall (fun c => forall st, exists r, resolve c st = Normal r) calls ->
  setStatesInRender sameJSON calls h written =
    (Normal tt, match lastDistinct sameJSON cur calls with
                | Some r => install sameJSON r cur h
                | None => written
                end).
Proof.
  intros Hst Hall. revert written.
  induction Hall as [|c calls Hc _ IH]; intros written; [done|].
  cbn. rewrite Hst. destruct (Hc cur) as [r ->]. rewrite IH.
  destruct (lastDistinct sameJSON cur calls) as [r'|]; [done|].
  by destruct (sameJSON r cur).
Qed.

Lemma lastDistinct_distinct (calls : list SetStateAction) cur r :
  lastDistinct sameJSON cur calls = Some r -> sameJSON r cur = false.
Proof.
  induction calls as [|c calls IH]; [done|]. cbn.
  destruct (lastDistinct sameJSON cur calls) as [r'|]; [by intros [= ->]; apply IH|].
  destruct (resolve c cur) as [r'| |]; [|done..].
  destruct (sameJSON r' cur) eqn:E; [done|]. by intros [= <-].
Qed.

(** With at most one call in each render the value of the render is the
    value that the call before left. *)
Lemma one_call_per_render (renders : list (list SetStateAction)) cur before :
  Forall (fun calls => length calls <= 1) renders ->
  beforeMostRecentRender sameJSON before cur renders =
    beforeMostRecentDistinctSet sameJSON before cur (concat renders).
Proof.
  intros Hone. revert cur before.
  induction Hone as [|calls renders Hlen _ IH]; intros cur before; [done|].
  destruct calls as [|c [|c' calls]]; cbn in Hlen; [| |lia].
  - cbn. apply IH.
  - cbn. destruct (resolve c cur) as [r| |]; [|apply IH..].
    destruct (sameJSON r cur); apply IH.
Qed.

(** C2 (undo/redo inverse law), as amended. Start from a hook whose
    current value is [cur] and whose undo reaches [before], and run any
    sequence of renders, each with its [set] calls, values or functional
    updates that resolve. The run completes; an [undo] after it shows the
    value of the render that made the most recent [set] which was not
    coalesced, and when every render makes at most one call this is the
    value held just before that [set], as the law says; [undo] keeps the
    history and moves the cursor back by one, staying at position 0; and
    when there was something to undo, a [redo] right after the [undo]
    restores the hook, hence the value that was undone. *)
Theorem undo_redo_inverse h cur before (renders : list (list SetStateAction)) :
  state h = Some cur ->
  state (undo h) = Some before ->
  Forall (Forall (fun c => forall st, exists r, resolve c st = Normal r)) renders ->
  exists h',
    setStates sameJSON renders h = (Normal tt, h') /\
    state (undo h') = Some (beforeMostRecentRender sameJSON before cur renders) /\
    (Forall (fun calls => length calls <= 1) renders ->
       state (undo h') =
         Some (beforeMostRecentDistinctSet sameJSON before cur (concat renders))) /\
    history (undo h') = history h' /\
    currentIndex (undo h') = currentIndex h' - 1 /\
    (canUndo h' = false -> undo h' = h') /\
    (canUndo h' = true -> redo (undo h') = h' /\ state (redo (undo h')) = state h').
Proof.
  intros Hst Hundo Hall.
  assert (exists h',
            setStates sameJSON renders h = (Normal tt, h') /\
            wf h' /\
            state (undo h') = Some (beforeMostRecentRender sameJSON before cur renders))
    as (h' & Hrun & Hwf & Hback).
  { revert h cur before Hst Hundo.
    induction Hall as [|calls renders Hcalls _ IH]; intros h cur before Hst Hundo.
    - exists h. split; [done|]. split; [by eapply state_wf|done].
    - cbn. rewrite (setStatesInRender_total calls h h cur Hst Hcalls).
      destruct (lastDistinct sameJSON cur calls) as [r|] eqn:Hlast.
      + pose proof (lastDistinct_distinct calls cur r Hlast) as Hne.
        apply IH; [by apply install_state|by apply undo_install].
      + by apply IH. }
  exists h'. split; [done|]. split; [done|].
  split. { intros Hone. by rewrite Hback, one_call_per_render. }
  repeat split; auto using undo_history, undo_cursor, undo_at_start.
  - by apply redo_undo.
  - by rewrite redo_undo.
Qed.

End Laws.

(** A fresh hook and three renders: a value, a functional update that is
    coalesced, and two calls from one render, of which the last stands. *)
Lemma undo_redo_inverse_witness :
  exists h',
    setStates Nat.eqb
      [[Value 1]; [Functional (fun n => Normal n)];
       [Functional (fun n => Normal (n + 1)); Value 5]]
      (useUndoableState 0) = (Normal tt, h') /\
    history h' = [0; 1; 5] /\
    state (undo h') = Some 1.
Proof.
  destruct (undo_redo_inverse Nat.eqb (useUndoableState 0) 0 0
              [[Value 1]; [Functional (fun n => Normal n)];
               [Functional (fun n => Normal (n + 1)); Value 5]])
    as (h' & Hrun & Hback & _); [reflexivity|reflexivity| |].
  - repeat constructor; intros st; by eexists.
  - exists h'. split; [done|]. split; [|done].
    vm_compute in Hrun. by injection Hrun as <-.
Defined.

(** The law as the specification states it, for every sequence of [set]
    calls, fails for two calls made from one render: both read the value
    0 of that render, the second write replaces the first, and an [undo]
    shows 0, where the value held just before the most recent [set] of a
    store that takes the calls one after the other is 1. *)
Lemma undo_redo_inverse_counterexample :
  ~ (forall (renders : list (list (SetStateAction (T := nat)))) h cur before h',
       state h = Some cur ->
       state (undo h) = Some before ->
       setStates Nat.eqb renders h = (Normal tt, h') ->
       state (undo h') =
         Some (beforeMostRecentDistinctSet Nat.eqb before cur (concat renders))).
Proof.
  intros Hlaw.
  specialize (Hlaw [[Value 1; Value 2]] (useUndoableState 0) 0 0
                {| history := [0; 2]; currentIndex := 1 |}
                eq_refl eq_refl eq_refl).
  vm_compute in Hlaw. discriminate.
Qed.

Lemma setState_coalesces_witness :
  exists h',
    setState Nat.eqb (Functional (fun n => Normal (n + 1))) (useUndoableState 5)
      = Normal h' /\
    (Nat.eqb 6 5 = true -> h' = useUndoableState 5) /\
    (Nat.eqb 6 5 = false ->
       history h' = take (0 + 1) [5] ++ [6] /\
       currentIndex h' = length (history h') - 1 /\
       currentIndex h' = 0 + 1 /\
       length (history h') = 0 + 2 /\
       (forall i, i <= 0 -> history h' !! i = [5] !! i) /\
       state h' = Some 6).
Proof.
  apply (setState_coalesces Nat.eqb (Functional (fun n => Normal (n + 1)))
           (useUndoableState 5) 5 6); reflexivity.
Defined.

End HookLaws.

(** * Properties of arrays and dictionaries *)

Module JSFacts.

Lemma index_Some {A} (arr : list A) (i : Z) (x : A) :
  JS.index arr i = Some x <-> (0 <= i)%Z /\ arr !! Z.to_nat i = Some x.
Proof.
  unfold JS.index. destruct (Z.ltb_spec i 0); split.
  - done.
  - intros [? _]. lia.
  - intros. split; [lia|done].
  - by intros [_ ?].
Qed.

Lemma index_bounds {A} (arr : list A) (i : Z) (x : A) :
  JS.index arr i = Some x -> (0 <= i < Z.of_nat (length arr))%Z.
Proof.
  intros [Hi Hl]%index_Some. apply lookup_lt_Some in Hl. lia.
Qed.

Lemma index_in_range {A} (arr : list A) (i : Z) :
  (0 <= i < Z.of_nat (length arr))%Z -> exists x, JS.index arr i = Some x.
Proof.
  intros Hi. destruct (lookup_lt_is_Some_2 arr (Z.to_nat i)) as [x Hx]; [lia|].
  exists x. apply index_Some. split; [lia|done].
Qed.

Lemma index_None {A} (arr : list A) (i : Z) :
  (Z.of_nat (length arr) <= i)%Z -> JS.index arr i = None.
Proof.
  intros Hi. unfold JS.index. destruct (Z.ltb_spec i 0); [done|].
  apply lookup_ge_None. lia.
Qed.

Lemma index_elem_of {A} (arr : list A) (i : Z) (x : A) :
  JS.index arr i = Some x -> x ∈ arr.
Proof. intros [_ Hl]%index_Some. by eapply list_elem_of_lookup_2. Qed.

Lemma slice0_take {A} (arr : list A) (e : Z) :
  (0 <= e)%Z -> JS.slice0 arr e = take (Z.to_nat e) arr.
Proof. intros He. unfold JS.slice0. by destruct (Z.ltb_spec e 0); [lia|]. Qed.

Lemma length_slice0_le {A} (arr : list A) (e : Z) :
  length (JS.slice0 arr e) <= length arr.
Proof. unfold JS.slice0. destruct (e <? 0)%Z; rewrite length_take; lia. Qed.

Lemma slice0_subseteq {A} (arr : list A) (e : Z) (x : A) :
  x ∈ JS.slice0 arr e -> x ∈ arr.
Proof.
  unfold JS.slice0. destruct (e <? 0)%Z; intros Hx;
    by eapply subseteq_take.
Qed.

Lemma assign_in_range {A} (arr : list A) (i : Z) (x : A) :
  (0 <= i < Z.of_nat (length arr))%Z ->
  JS.assign arr i x = Some (<[Z.to_nat i := x]> arr).
Proof.
  intros Hi. unfold JS.assign.
  destruct (Z.leb_spec 0 i); [|lia]. destruct (Z.ltb_spec i (Z.of_nat (length arr))); [done|lia].
Qed.

(** The own keys are the keys that [get] finds. *)
Lemma get_keys (obj : JS.Dict) (k : string) :
  k ∈ JS.keys obj <-> is_Some (JS.get obj k).
Proof.
  unfold JS.keys. induction obj as [|[k' v'] rest IH]; cbn.
  - split; [by intros ?%elem_of_nil|by intros [? ?]].
  - case_bool_decide as Hk.
    + subst. split; [by eexists|]. intros _. apply elem_of_cons. by left.
    + rewrite <- IH. split; [|intros ?; apply elem_of_cons; by right].
      intros [?|?]%elem_of_cons; [congruence|done].
Qed.

Lemma get_replace_eq (obj : JS.Dict) (k v : string) :
  is_Some (JS.get obj k) -> JS.get (JS.replace obj k v) k = Some v.
Proof.
  induction obj as [|[k' v'] rest IH]; cbn; [by intros [? ?]|].
  case_bool_decide as Hk; cbn.
    - by rewrite bool_decide_eq_true_2.
    - rewrite bool_decide_eq_false_2 by done. apply IH.
Qed.

Lemma get_replace_ne (obj : JS.Dict) (k k' v : string) :
  k <> k' -> JS.get (JS.replace obj k v) k' = JS.get obj k'.
Proof.
  intros Hne. induction obj as [|[k0 v0] rest IH]; cbn; [done|].
  case_bool_decide as Hk; cbn.
  - subst k0. by rewrite bool_decide_eq_false_2.
  - by rewrite IH.
Qed.

Lemma keys_replace (obj : JS.Dict) (k v : string) :
  JS.keys (JS.replace obj k v) = JS.keys obj.
Proof.
  unfold JS.keys. induction obj as [|[k' v'] rest IH]; cbn; [done|].
  case_bool_decide; cbn; [done|]. by rewrite IH.
Qed.

Lemma get_insertIndex_eq (obj : JS.Dict) (n : Z) (k v : string) :
  JS.get obj k = None -> JS.get (JS.insertIndex obj n k v) k = Some v.
Proof.
  induction obj as [|[k' v'] rest IH]; cbn.
  - intros _. by rewrite bool_decide_eq_true_2.
  - case_bool_decide as Hk; [done|]. intros Hrest.
    destruct (JS.arrayIndex k') as [n'|]; [destruct (n' <? n)%Z|]; cbn.
    + rewrite bool_decide_eq_false_2 by done. by apply IH.
    + by rewrite bool_decide_eq_true_2.
    + by rewrite bool_decide_eq_true_2.
Qed.

Lemma get_insertIndex_ne (obj : JS.Dict) (n : Z) (k k' v : string) :
  k <> k' -> JS.get (JS.insertIndex obj n k v) k' = JS.get obj k'.
Proof.
  intros Hne. induction obj as [|[k0 v0] rest IH]; cbn.
  - by rewrite bool_decide_eq_false_2.
  - destruct (JS.arrayIndex k0) as [n'|]; [destruct (n' <? n)%Z|]; cbn.
    + by rewrite IH.
    + by rewrite bool_decide_eq_false_2.
    + by rewrite bool_decide_eq_false_2.
Qed.

Lemma get_app_new (obj : JS.Dict) (k k' v : string) :
  JS.get (obj ++ [(k, v)]) k' =
    match JS.get obj k' with
    | Some v' => Some v'
    | None => if bool_decide (k = k') then Some v else None
    end.
Proof.
  induction obj as [|[k0 v0] rest IH]; cbn; [done|].
  destruct (bool_decide (k0 = k')); [done|apply IH].
Qed.

Lemma get_set_eq (obj : JS.Dict) (k v : string) : JS.get (JS.set obj k v) k = Some v.
Proof.
  unfold JS.set. destruct (JS.get obj k) as [old|] eqn:Hget.
  - apply get_replace_eq. by rewrite Hget.
  - destruct (JS.arrayIndex k) as [n|].
    + by apply get_insertIndex_eq.
    + rewrite get_app_new, Hget. by rewrite bool_decide_eq_true_2.
Qed.

Lemma get_set_ne (obj : JS.Dict) (k k' v : string) :
  k <> k' -> JS.get (JS.set obj k v) k' = JS.get obj k'.
Proof.
  intros Hne. unfold JS.set. destruct (JS.get obj k) as [old|].
  - by apply get_replace_ne.
  - destruct (JS.arrayIndex k) as [n|].
    + by apply get_insertIndex_ne.
    + rewrite get_app_new. rewrite bool_decide_eq_false_2 by done.
      by destruct (JS.get obj k').
Qed.

Lemma set_nonempty (obj : JS.Dict) (k v : string) : JS.set obj k v <> [].
Proof.
  intros Hnil. pose proof (get_set_eq obj k v) as Hget. by rewrite Hnil in Hget.
Qed.

(** Writing a key that is no array index never changes which key comes
    first. *)
Lemma set_first_key (obj : JS.Dict) (k v k0 : string) :
  JS.arrayIndex k = None ->
  head (JS.keys obj) = Some k0 -> head (JS.keys (JS.set obj k v)) = Some k0.
Proof.
  intros Hk. unfold JS.set. destruct (JS.get obj k) as [old|].
  - by rewrite keys_replace.
  - rewrite Hk. by destruct obj as [|[k' v'] rest].
Qed.


Lemma has_keys (obj : JS.Dict) (k : string) :
  JS.inherited k = false -> JS.has obj k = true <-> k ∈ JS.keys obj.
Proof.
  intros Hk. rewrite get_keys. unfold JS.has.
  destruct (JS.get obj k) as [v|]; [split; [by eexists|done]|].
  rewrite Hk. split; [done|by intros [? ?]].
Qed.

Lemma first_key_elem_of (obj : JS.Dict) (k : string) :
  head (JS.keys obj) = Some k -> k ∈ JS.keys obj.
Proof. destruct obj as [|[k' v'] rest]; cbn; [done|]. intros [= ->]. apply elem_of_cons. by left. Qed.

Lemma first_key_nonempty (obj : JS.Dict) :
  obj <> [] -> exists k, head (JS.keys obj) = Some k.
Proof. destruct obj as [|[k' v'] rest]; [done|]. by exists k'. Qed.

(** The first value is the value of the first key. *)
Lemma first_value (obj : JS.Dict) (k0 : string) :
  head (JS.keys obj) = Some k0 -> head (JS.values obj) = JS.get obj k0.
Proof.
  destruct obj as [|[k' v'] rest]; cbn; [done|]. intros [= ->].
  by rewrite bool_decide_eq_true_2.
Qed.

End JSFacts.

(** * Properties of the editor *)

Module EditorProps.
Import Types App JSFacts HookLaws.

Lemma POSE_0_first : POSE_INSTRUCTIONS !! 0 = Some POSE_0.
Proof. reflexivity. Qed.

Lemma sameJSON_true (a b : EditorState) : sameJSON a b = true <-> a = b.
Proof. unfold sameJSON. apply bool_decide_eq_true. Qed.

(** After a [setEditorState] the current snapshot is the resolved one,
    whether it was appended or coalesced. *)
Lemma install_editorState (h : Undoable) (s s' : EditorState) :
  state h = Some s -> state (install sameJSON s' s h) = Some s'.
Proof.
  intros Hst. destruct (sameJSON s' s) eqn:E.
  - rewrite install_same by done. apply sameJSON_true in E. by subst.
  - by apply install_state.
Qed.

Lemma setEditorState_run (update : EditorState -> Completion EditorState)
    (w : World) (s s' : EditorState) :
  editorState (app w) = Some s -> update s = Normal s' ->
  setEditorState (Functional update) w =
    (Normal tt, {| app := setEditor (install sameJSON s' s (editor (app w))) (app w);
                   calls := calls w |}).
Proof.
  unfold editorState, setEditorState, setState. intros -> Hup. cbn. by rewrite Hup.
Qed.

Lemma inserts_first_key (obj : JS.Dict) (entries : list (string * string)) (k0 : string) :
  Forall (fun kv => JS.arrayIndex kv.1 = None) entries ->
  head (JS.keys obj) = Some k0 -> head (JS.keys (inserts obj entries)) = Some k0.
Proof.
  intros Hplain. revert obj.
  induction Hplain as [|[k v] entries Hk _ IH]; intros obj Hfirst; [done|].
  cbn. apply IH. by apply set_first_key.
Qed.

(** Reading a dictionary after further insertions. *)
Lemma get_inserts (obj : JS.Dict) (entries : list (string * string)) (k : string) :
  JS.get (inserts obj entries) k =
    match variant entries k with
    | Some image => Some image
    | None => JS.get obj k
    end.
Proof.
  revert obj. induction entries as [|[k1 v1] entries IH]; intros obj; [done|].
  cbn. rewrite IH. destruct (variant entries k) as [image|]; [done|].
  case_bool_decide as Hk.
  - subst k1. apply get_set_eq.
  - by apply get_set_ne.
Qed.

Lemma objectOf_get (writes : Variants) (k : string) :
  JS.get (objectOf writes) k = variant writes k.
Proof. unfold objectOf. rewrite get_inserts. by destruct (variant writes k). Qed.

Lemma objectOf_first (writes : Variants) :
  Forall (fun kv => JS.arrayIndex kv.1 = None) writes ->
  head (JS.values (objectOf writes)) =
    match firstInserted writes with
    | Some k0 => variant writes k0
    | None => None
    end.
Proof.
  destruct writes as [|[k0 v0] later]; [done|]. intros [Hk0 Hlater]%Forall_cons.
  cbn [firstInserted head fmap option_fmap option_map fst].
  rewrite <- objectOf_get. apply first_value.
  unfold objectOf. cbn [inserts foldl fst snd]. apply inserts_first_key; [done|].
  cbn in Hk0. unfold JS.set. cbn [JS.get]. by rewrite Hk0.
Qed.

(** C9 (displayed image), as amended. Let the dictionary of every layer of
    a snapshot be the object that the source builds from a sequence of
    writes, and let the active index be valid when there are layers. The
    image that the source displays is the one the specification derives
    from the writes: the model image with no layer, else the image last
    written to the active layer under the active pose if there is one,
    else, when no label written to the active layer is an array index and
    the active pose is not the name of an inherited member, the image last
    written under the key that was inserted first. *)
Theorem displayImageUrl_derivation (s : EditorState) (writes : list Variants) :
  poseImages <$> outfitHistory s = objectOf <$> writes ->
  (outfitHistory s <> [] -> validIndex s) ->
  (forall L, JS.index writes (currentOutfitIndex s) = Some L ->
             variant L (currentPose s) = None ->
             Forall (fun kv => JS.arrayIndex kv.1 = None) L /\
             JS.inherited (currentPose s) = false) ->
  displayImageUrl s =
    displayedImage (modelImageUrl s) writes (currentOutfitIndex s) (currentPose s).
Proof.
  intros Hobjects Hvalid Hplain. unfold displayImageUrl, displayedImage.
  destruct (outfitHistory s) as [|layer layers] eqn:Hlayers.
  { destruct writes; [done|discriminate]. }
  rewrite bool_decide_eq_false_2 by (cbn; lia).
  destruct writes as [|L0 writes']; [discriminate|].
  specialize (Hvalid ltac:(done)). unfold validIndex in Hvalid.
  rewrite Hlayers in Hvalid.
  assert (length (layer :: layers) = length (L0 :: writes')) as Hlen.
  { rewrite <- (length_fmap poseImages), Hobjects. by rewrite length_fmap. }
  destruct (index_in_range (layer :: layers) (currentOutfitIndex s) Hvalid)
    as [active Hactive].
  destruct (index_in_range (L0 :: writes') (currentOutfitIndex s)) as [L HL];
    [by rewrite <- Hlen|].
  rewrite Hactive, HL.
  assert (poseImages active = objectOf L) as ->.
  { apply index_Some in Hactive as [_ Hactive]. apply index_Some in HL as [_ HL].
    apply (f_equal (fun l => l !! Z.to_nat (currentOutfitIndex s))) in Hobjects.
    rewrite !list_lookup_fmap, Hactive, HL in Hobjects. cbn in Hobjects. congruence. }
  rewrite objectOf_get.
  destruct (variant L (currentPose s)) as [image|] eqn:Hvariant; [done|].
  apply objectOf_first. by apply Hplain.
Qed.

(** A layer written "front", "side", "front" again, read while the active
    pose "back" has no image: the displayed image is the latest image of
    "front", the key inserted first. *)
Lemma displayImageUrl_derivation_witness :
  let writes := [("front", "F1"); ("side", "S"); ("front", "F2")] in
  let s := {| modelImageUrl := Some "M";
              outfitHistory := [ {| garment := None; poseImages := objectOf writes |} ];
              currentOutfitIndex := 0; currentPose := "back" |} in
  displayImageUrl s = Some "F2" /\
  displayedImage (Some "M") [writes] 0 "back" = Some "F2".
Proof.
  intros writes s.
  rewrite (displayImageUrl_derivation s [writes]).
  - split; reflexivity.
  - reflexivity.
  - intros _. unfold validIndex. cbn. lia.
  - intros L [= <-] _. split; [repeat constructor|reflexivity].
Defined.

(** The claim as the specification states it, for every snapshot, fails
    for a label that is an array index: after the writes "front" and then
    "1", the source lists "1" first, and with no image for the active pose
    it displays the image of "1", not the image of "front", the key
    inserted first. *)
Lemma displayImageUrl_derivation_counterexample :
  ~ (forall (s : EditorState) (writes : list Variants),
       poseImages <$> outfitHistory s = objectOf <$> writes ->
       (outfitHistory s <> [] -> validIndex s) ->
       displayImageUrl s =
         displayedImage (modelImageUrl s) writes (currentOutfitIndex s)
           (currentPose s)).
Proof.
  intros Hclaim.
  specialize (Hclaim
    {| modelImageUrl := Some "M";
       outfitHistory :=
         [ {| garment := None; poseImages := objectOf [("front", "F"); ("1", "Y")] |} ];
       currentOutfitIndex := 0; currentPose := "back" |}
    [[("front", "F"); ("1", "Y")]] eq_refl).
  vm_compute in Hclaim.
  specialize (Hclaim ltac:(intros _; split; [discriminate|reflexivity])).
  discriminate.
Qed.

(** The rendered remove buttons are the indices from 1 up to the last
    index of the layers given to the stack. *)
Lemma elem_of_removeButtons (layers : list OutfitLayer) (k : Z) :
  k ∈ removeButtons layers <-> (0 < k < Z.of_nat (length layers))%Z.
Proof.
  unfold removeButtons. rewrite list_elem_of_filter, list_elem_of_fmap. split.
  - intros (Hk & n & -> & Hn). apply elem_of_seq in Hn. lia.
  - intros Hk. split; [lia|]. exists (Z.to_nat k). split; [lia|].
    apply elem_of_seq. lia.
Qed.

Lemma length_activeOutfitLayers (s : EditorState) :
  (0 <= currentOutfitIndex s)%Z ->
  Z.of_nat (length (activeOutfitLayers s)) =
    Z.min (currentOutfitIndex s + 1) (Z.of_nat (length (outfitHistory s))).
Proof.
  intros Hi. unfold activeOutfitLayers. rewrite slice0_take by lia.
  rewrite length_take. lia.
Qed.

(** The reads of [removeFrom] for an index between 1 and the number of
    layers. *)
Lemma lastValidLayer_defined (s : EditorState) (layerIndex : Z) :
  (0 < layerIndex <= Z.of_nat (length (outfitHistory s)))%Z ->
  exists layer,
    lastValidLayer layerIndex s = Some layer /\
    JS.index (outfitHistory s) (layerIndex - 1) = Some layer.
Proof.
  intros Hk. destruct (index_in_range (outfitHistory s) (layerIndex - 1)) as [layer Hl]; [lia|].
  exists layer. split; [|done]. unfold lastValidLayer.
  rewrite slice0_take by lia. apply index_Some in Hl as [? Hl].
  apply index_Some. split; [lia|]. rewrite lookup_take_lt by lia. done.
Qed.

Lemma lastValidPose_defined (s : EditorState) (layer : OutfitLayer) :
  posesNonEmpty s -> layer ∈ outfitHistory s ->
  exists pose, lastValidPose layer = Some pose /\ pose ∈ JS.keys (poseImages layer).
Proof.
  intros Hposes Hin. destruct (first_key_nonempty (poseImages layer)) as [pose Hp].
  { by apply Hposes. }
  exists pose. split; [done|]. by apply first_key_elem_of.
Qed.

(** What [removeFrom] returns for such an index. *)
Lemma removeFrom_defined (s : EditorState) (layerIndex : Z) :
  posesNonEmpty s ->
  (0 < layerIndex <= Z.of_nat (length (outfitHistory s)))%Z ->
  exists layer pose,
    JS.index (outfitHistory s) (layerIndex - 1) = Some layer /\
    (if JS.has (poseImages layer) (currentPose s) then pose = currentPose s
     else lastValidPose layer = Some pose /\ pose ∈ JS.keys (poseImages layer)) /\
    removeFrom layerIndex s =
      Normal {| modelImageUrl := modelImageUrl s;
                outfitHistory := take (Z.to_nat layerIndex) (outfitHistory s);
                currentOutfitIndex := layerIndex - 1;
                currentPose := pose |}.
Proof.
  intros Hposes Hk.
  destruct (lastValidLayer_defined s layerIndex Hk) as (layer & Hl & Hidx).
  destruct (lastValidPose_defined s layer Hposes) as (first & Hfirst & Hin).
  { by eapply index_elem_of. }
  unfold lastValidLayer in Hl. unfold removeFrom. rewrite Hl.
  rewrite slice0_take by lia.
  destruct (JS.has (poseImages layer) (currentPose s)) eqn:Hhas.
  - exists layer, (currentPose s). by rewrite Hhas.
  - exists layer, first. by rewrite Hfirst, Hhas.
Qed.

(** C10 (safety of [removeLayer]). In a snapshot whose layers all have a
    pose image and whose active index is a valid index, for every
    [layerIndex] from 1 to the active index the two reads of the update,
    the layer at [layerIndex - 1] and the first key of its dictionary, are
    defined and the update returns a snapshot; so are they for every index
    the stack renders a remove button for. The update itself checks
    nothing: at [layerIndex = 0] it reads [poseImages] of [undefined] and
    throws. Index 0 is kept out by the caller: the stack renders a remove
    button only for indices above 0, exactly those from 1 to the active
    index of a snapshot with a valid index, and each of them satisfies
    the precondition. *)
Theorem removeLayer_reads_defined (s : EditorState) :
  (forall layerIndex,
     posesNonEmpty s ->
     (currentOutfitIndex s < Z.of_nat (length (outfitHistory s)))%Z ->
     (1 <= layerIndex <= currentOutfitIndex s)%Z ->
     exists layer pose s',
       lastValidLayer layerIndex s = Some layer /\
       lastValidPose layer = Some pose /\
       removeFrom layerIndex s = Normal s') /\
  (forall layerIndex,
     posesNonEmpty s ->
     layerIndex ∈ removeButtons (activeOutfitLayers s) ->
     exists layer pose s',
       lastValidLayer layerIndex s = Some layer /\
       lastValidPose layer = Some pose /\
       removeFrom layerIndex s = Normal s') /\
  removeFrom 0 s =
    Thrown "Cannot read properties of undefined (reading 'poseImages')" /\
  (forall layerIndex,
     layerIndex ∈ removeButtons (activeOutfitLayers s) ->
     (0 < layerIndex)%Z) /\
  (forall layerIndex,
     validIndex s ->
     layerIndex ∈ removeButtons (activeOutfitLayers s) <->
     (1 <= layerIndex <= currentOutfitIndex s)%Z).
Proof.
  assert (forall k, posesNonEmpty s ->
            (0 < k <= Z.of_nat (length (outfitHistory s)))%Z ->
            exists layer pose s',
              lastValidLayer k s = Some layer /\
              lastValidPose layer = Some pose /\
              removeFrom k s = Normal s') as Hreads.
  { intros k Hposes Hk.
    destruct (lastValidLayer_defined s k Hk) as (layer & Hl & Hi).
    destruct (lastValidPose_defined s layer Hposes) as (pose & Hp & _).
    { by eapply index_elem_of. }
    destruct (removeFrom_defined s k Hposes Hk) as (? & pose' & _ & _ & Hr).
    eauto 10. }
  split; [|split; [|split; [|split]]].
  - intros k Hposes Hidx Hk. apply Hreads; [done|lia].
  - intros k Hposes Hk%elem_of_removeButtons. apply Hreads; [done|].
    pose proof (length_slice0_le (outfitHistory s) (currentOutfitIndex s + 1)).
    unfold activeOutfitLayers in Hk. lia.
  - unfold removeFrom. rewrite slice0_take by lia. done.
  - intros k Hk%elem_of_removeButtons. lia.
  - intros k [Hpos Hidx]. rewrite elem_of_removeButtons.
    pose proof (length_activeOutfitLayers s Hpos). lia.
Qed.

(** Three layers with the top one active: removing from index 2 reads the
    layer at index 1 and its first key. *)
Lemma removeLayer_reads_defined_witness :
  let base := {| garment := None; poseImages := [("front", "M")] |} in
  let top g := {| garment := Some {| id := g; name := g; url := g |};
                  poseImages := [("side", g)] |} in
  let s := {| modelImageUrl := Some "M";
              outfitHistory := [base; top "g1"; top "g2"];
              currentOutfitIndex := 2; currentPose := "front" |} in
  exists layer pose s',
    lastValidLayer 2 s = Some layer /\
    lastValidPose layer = Some pose /\
    removeFrom 2 s = Normal s'.
Proof.
  intros base top s.
  apply (proj1 (removeLayer_reads_defined s) 2%Z).
  - intros layer Hin. cbn in Hin.
    repeat (apply elem_of_cons in Hin as [-> | Hin]; [discriminate|]).
    by apply elem_of_nil in Hin.
  - cbn. lia.
  - cbn. lia.
Defined.




Section WithGateway.

Variable gateway : Gateway.Call -> Gateway.Settled.
Variable getFriendlyErrorMessage : string -> string -> string.
Variable createObjectURL : Gateway.File -> string.

(** C4 (redo shortcut). When the layer right after the active one exists
    and carries a garment with the id of the garment being applied,
    [applyGarment] makes no gateway call; and when it is entered, that is
    when the editor is not busy and shows an image, it leaves a snapshot
    whose active index is one more and whose layers, model image and
    active pose are those of before: the new active layer is the stashed
    one. *)
Theorem redo_shortcut (a : AppState) (s : EditorState)
    (garmentFile : Gateway.File) (garmentInfo : WardrobeItem) (enhance : bool)
    (nextLayer : OutfitLayer) (stashed : WardrobeItem) :
  editorState a = Some s ->
  JS.index (outfitHistory s) (currentOutfitIndex s + 1) = Some nextLayer ->
  garment nextLayer = Some stashed ->
  id stashed = id garmentInfo ->
  exists w,
    handleGarmentSelect gateway getFriendlyErrorMessage createObjectURL
      garmentFile garmentInfo enhance {| app := a; calls := [] |} = (Normal tt, w) /\
    calls w = [] /\
    (isBusy a = false ->
     JS.truthy (displayImageUrl s) = true ->
     exists s',
       editorState (app w) = Some s' /\
       currentOutfitIndex s' = (currentOutfitIndex s + 1)%Z /\
       outfitHistory s' = outfitHistory s /\
       modelImageUrl s' = modelImageUrl s /\
       currentPose s' = currentPose s /\
       JS.index (outfitHistory s') (currentOutfitIndex s') = Some nextLayer).
Proof.
  intros Hs Hnext Hgarment Hid.
  unfold handleGarmentSelect. run_handler. rewrite Hs. run_handler.
  destruct (displayImageUrl s) as [image|] eqn:Himage; [|by eexists].
  destruct (JS.truthy (Some image)) eqn:Htruthy; [|by eexists].
  destruct (isBusy a) eqn:Hbusy; [by eexists|]. run_handler. rewrite Hnext.
  unfold sameGarment. rewrite Hgarment.
  rewrite bool_decide_eq_true_2 by done.
  erewrite setEditorState_run by (cbn; done || reflexivity).
  eexists. split; [reflexivity|]. cbn.
  split; [done|]. intros _ _. eexists.
  split; [by apply install_editorState|]. by cbn.
Qed.

End WithGateway.

(** A snapshot with a stashed layer for "g1" after the active base layer,
    and a gateway that would reject every call. *)
Lemma redo_shortcut_witness :
  let g1 := {| id := "g1"; name := "Shirt"; url := "u1" |} in
  let base := {| garment := None; poseImages := [(POSE_0, "M")] |} in
  let stash := {| garment := Some g1; poseImages := [(POSE_0, "X")] |} in
  let s := {| modelImageUrl := Some "M"; outfitHistory := [base; stash];
              currentOutfitIndex := 0; currentPose := POSE_0 |} in
  let a := setEditor (resetState s) initialAppState in
  exists w s',
    handleGarmentSelect (fun _ => Gateway.Rejected "offline") (fun m _ => m) (fun f => f)
      "file" g1 false {| app := a; calls := [] |} = (Normal tt, w) /\
    calls w = [] /\
    editorState (app w) = Some s' /\
    currentOutfitIndex s' = 1%Z /\
    outfitHistory s' = [base; stash] /\
    modelImageUrl s' = Some "M" /\
    currentPose s' = POSE_0 /\
    JS.index (outfitHistory s') (currentOutfitIndex s') = Some stash.
Proof.
  intros g1 base stash s a.
  destruct (redo_shortcut (fun _ => Gateway.Rejected "offline") (fun m _ => m)
              (fun f => f) a s "file" g1 false stash g1)
    as (w & Hrun & Hcalls & Hentered); try reflexivity.
  destruct Hentered as (s' & H); try reflexivity.
  by exists w, s'.
Defined.

(** What [rewriteCurrentLayer] returns when the active layer exists. *)
Lemma rewriteCurrentLayer_defined
    (newPoseImages : EditorState -> JS.Dict -> JS.Dict)
    (newPose : EditorState -> string) (s : EditorState) (layer : OutfitLayer) :
  JS.index (outfitHistory s) (currentOutfitIndex s) = Some layer ->
  rewriteCurrentLayer newPoseImages newPose s =
    Normal {| modelImageUrl := modelImageUrl s;
              outfitHistory :=
                <[Z.to_nat (currentOutfitIndex s) :=
                    {| garment := garment layer;
                       poseImages := newPoseImages s (poseImages layer) |}]>
                  (outfitHistory s);
              currentOutfitIndex := currentOutfitIndex s;
              currentPose := newPose s |}.
Proof.
  intros Hl. unfold rewriteCurrentLayer. rewrite Hl.
  by rewrite assign_in_range by by eapply index_bounds.
Qed.

Lemma index_insert_eq {A} (arr : list A) (i : Z) (x y : A) :
  JS.index arr i = Some y -> JS.index (<[Z.to_nat i := x]> arr) i = Some x.
Proof.
  intros [Hi Hl]%index_Some. apply index_Some. split; [done|].
  apply list_lookup_insert_eq. by eapply lookup_lt_Some.
Qed.

Lemma index_insert_ne {A} (arr : list A) (i j : Z) (x : A) :
  (0 <= i)%Z -> i <> j -> JS.index (<[Z.to_nat i := x]> arr) j = JS.index arr j.
Proof.
  intros Hi Hne. unfold JS.index. destruct (Z.ltb_spec j 0); [done|].
  apply list_lookup_insert_ne. lia.
Qed.

Section WithGateway.

Variable gateway : Gateway.Call -> Gateway.Settled.
Variable getFriendlyErrorMessage : string -> string -> string.
Variable createObjectURL : Gateway.File -> string.


End WithGateway.


Lemma setEditorState_cases (newState : SetStateAction) (w : World) :
  (exists h, setEditorState newState w =
               (Normal tt, {| app := setEditor h (app w); calls := calls w |})) \/
  (exists m, setEditorState newState w = (Thrown m, w)) \/
  setEditorState newState w = (IllTyped, w).
Proof.
  unfold setEditorState.
  destruct (setState sameJSON newState (editor (app w))); eauto.
Qed.

Section WithGateway.

Variable gateway : Gateway.Call -> Gateway.Settled.
Variable getFriendlyErrorMessage : string -> string -> string.
Variable createObjectURL : Gateway.File -> string.

Lemma isBusy_false (a : AppState) :
  isBusy a = false -> isLoading a = false /\ isStyling a = false /\ isShooting a = false.
Proof. unfold isBusy. by destruct (isLoading a), (isStyling a), (isShooting a). Qed.

Lemma handleBackgroundChange_atomic (backgroundPrompt : string) (a : AppState) :
  atomicOnFailure getFriendlyErrorMessage gateway a
    (handleBackgroundChange gateway getFriendlyErrorMessage backgroundPrompt
       {| app := a; calls := [] |}).
Proof.
  unfold handleBackgroundChange. run_handler.
  destruct (editorState a) as [s|]; [|by settle_outcome]. run_handler.
  destruct (displayImageUrl s) as [image|]; [|by settle_outcome].
  destruct (JS.truthy (Some image)); [|by settle_outcome].
  destruct (isBusy a) eqn:Hbusy; [by settle_outcome|]. run_handler.
  apply isBusy_false in Hbusy as (Hl & Hst & Hsh).
  destruct (gateway (Gateway.generateBackground image backgroundPrompt)) as [v|m] eqn:Hgw.
  - match goal with |- context [setEditorState ?u ?w] =>
      destruct (setEditorState_cases u w) as [[h ->]|[[m ->]| ->]] end;
      run_handler; settle_outcome.
  - run_handler. settle_outcome. unfold isBusy. cbn. by rewrite Hst, Hsh.
Qed.

Lemma handleRepattern_atomic (patternPrompt : string) (a : AppState) :
  atomicOnFailure getFriendlyErrorMessage gateway a
    (handleRepattern gateway getFriendlyErrorMessage patternPrompt
       {| app := a; calls := [] |}).
Proof.
  unfold handleRepattern. run_handler.
  destruct (editorState a) as [s|]; [|by settle_outcome]. run_handler.
  destruct (displayImageUrl s) as [image|]; [|by settle_outcome].
  destruct (repatternTarget a) as [[layerIndex garmentName]|]; [|by settle_outcome].
  destruct (JS.truthy (Some image)); [|by settle_outcome].
  destruct (isBusy a) eqn:Hbusy; [by settle_outcome|]. run_handler.
  apply isBusy_false in Hbusy as (Hl & Hst & Hsh).
  destruct (gateway (Gateway.repatternGarment image garmentName patternPrompt))
    as [v|m] eqn:Hgw.
  - match goal with |- context [setEditorState ?u ?w] =>
      destruct (setEditorState_cases u w) as [[h ->]|[[m ->]| ->]] end;
      run_handler; settle_outcome.
  - run_handler. settle_outcome. unfold isBusy. cbn. by rewrite Hst, Hsh.
Qed.

Lemma handlePoseSelect_atomic (newPose : string) (a : AppState) :
  atomicOnFailure getFriendlyErrorMessage gateway a
    (handlePoseSelect gateway getFriendlyErrorMessage newPose
       {| app := a; calls := [] |}).
Proof.
  unfold handlePoseSelect. run_handler.
  destruct (editorState a) as [s|]; [|by settle_outcome]. run_handler.
  destruct (isBusy a) eqn:Hbusy; [by settle_outcome|].
  destruct (bool_decide (length (outfitHistory s) = 0)); [by settle_outcome|].
  destruct (bool_decide (newPose = currentPose s)); [by settle_outcome|].
  run_handler.
  apply isBusy_false in Hbusy as (Hl & Hst & Hsh).
  destruct (JS.index (outfitHistory s) (currentOutfitIndex s)) as [currentLayer|];
    [|by settle_outcome].
  destruct (JS.truthyAt (poseImages currentLayer) newPose).
  { match goal with |- context [setEditorState ?u ?w] =>
      destruct (setEditorState_cases u w) as [[h ->]|[[m ->]| ->]] end;
      by settle_outcome. }
  destruct (head (JS.values (poseImages currentLayer))) as [base|]; [|by settle_outcome].
  destruct (JS.truthy (Some base)); [|by settle_outcome]. run_handler.
  destruct (gateway (Gateway.generatePoseVariation base newPose)) as [v|m] eqn:Hgw.
  - match goal with |- context [setEditorState ?u ?w] =>
      destruct (setEditorState_cases u w) as [[h ->]|[[m ->]| ->]] end;
      run_handler; settle_outcome.
  - run_handler. settle_outcome. unfold isBusy. cbn. by rewrite Hst, Hsh.
Qed.

Lemma handleGarmentSelect_atomic (garmentFile : Gateway.File)
    (garmentInfo : WardrobeItem) (enhance : bool) (a : AppState) :
  atomicOnFailure getFriendlyErrorMessage gateway a
    (handleGarmentSelect gateway getFriendlyErrorMessage createObjectURL
       garmentFile garmentInfo enhance {| app := a; calls := [] |}).
Proof.
  unfold handleGarmentSelect. run_handler.
  destruct (editorState a) as [s|]; [|by settle_outcome]. run_handler.
  destruct (displayImageUrl s) as [image|]; [|by settle_outcome].
  destruct (JS.truthy (Some image)); [|by settle_outcome].
  destruct (isBusy a) eqn:Hbusy; [by settle_outcome|]. run_handler.
  apply isBusy_false in Hbusy as (Hl & Hst & Hsh).
  destruct (sameGarment _ garmentInfo).
  { match goal with |- context [setEditorState ?u ?w] =>
      destruct (setEditorState_cases u w) as [[h ->]|[[m ->]| ->]] end;
      by settle_outcome. }
  run_handler. destruct enhance; run_handler.
  - destruct (gateway (Gateway.cleanupGarmentImage garmentFile)) as [file|m] eqn:Hclean;
      run_handler.
    + destruct (gateway (Gateway.generateVirtualTryOnImage image file)) as [v|m] eqn:Hgw;
        run_handler.
      * match goal with |- context [setEditorState ?u ?w] =>
          destruct (setEditorState_cases u w) as [[h ->]|[[m ->]| ->]] end;
          run_handler; settle_outcome.
      * settle_outcome. unfold isBusy. cbn. by rewrite Hst, Hsh.
    + settle_outcome. unfold isBusy. cbn. by rewrite Hst, Hsh.
  - destruct (gateway (Gateway.generateVirtualTryOnImage image garmentFile)) as [v|m] eqn:Hgw;
      run_handler.
    + match goal with |- context [setEditorState ?u ?w] =>
        destruct (setEditorState_cases u w) as [[h ->]|[[m ->]| ->]] end;
        run_handler; settle_outcome.
    + settle_outcome. unfold isBusy. cbn. by rewrite Hst, Hsh.
Qed.

End WithGateway.

(** C6 (failure atomicity). For each of the four handlers that call the
    gateway to build a snapshot ([applyGarment], [selectPose],
    [changeBackground], [repattern]): when a gateway call of the handler
    was rejected, the handler returns, the hook with its history and cursor
    is exactly as before, an error message is set, and the loading flag and
    message are cleared, so the editor is not busy. Whenever the handler
    made a gateway call and completed, with or without failure, the loading
    flag and message are cleared. *)
Theorem failure_atomicity (getFriendlyErrorMessage : string -> string -> string)
    (createObjectURL : Gateway.File -> string) (e : Event) (a : AppState) :
  callsGateway (action e) = true ->
  atomicOnFailure getFriendlyErrorMessage (answers e) a
    (perform getFriendlyErrorMessage createObjectURL e a).
Proof.
  destruct e as [act gw]. unfold perform. cbn.
  destruct act; try discriminate; intros _; cbn.
  - apply handleGarmentSelect_atomic.
  - apply handlePoseSelect_atomic.
  - apply handleBackgroundChange_atomic.
  - apply handleRepattern_atomic.
Qed.

(** ** The layer invariant *)

Lemma layers_nonempty_index (s : EditorState) (i : Z) (layer : OutfitLayer) :
  JS.index (outfitHistory s) i = Some layer -> outfitHistory s <> [].
Proof. intros Hl%index_bounds Hnil. rewrite Hnil in Hl. cbn in Hl. lia. Qed.

(** Under the invariant an editor that shows an image has layers. *)
Lemma shown_has_layers (s : EditorState) (image : string) :
  snapshotInvariant s -> displayImageUrl s = Some image -> outfitHistory s <> [].
Proof.
  intros (Hmodel & _) Himage Hnil.
  unfold displayImageUrl in Himage. rewrite Hnil in Himage. cbn in Himage.
  by rewrite Hmodel in Himage.
Qed.

Lemma active_layer_defined (s : EditorState) :
  snapshotInvariant s -> outfitHistory s <> [] ->
  exists layer, JS.index (outfitHistory s) (currentOutfitIndex s) = Some layer.
Proof. intros (_ & Hidx & _) Hne. apply index_in_range. by apply Hidx. Qed.

Lemma advanceLayer_invariant (s : EditorState) (nextLayer : OutfitLayer) :
  snapshotInvariant s ->
  JS.index (outfitHistory s) (currentOutfitIndex s + 1) = Some nextLayer ->
  exists s', advanceLayer s = Normal s' /\ snapshotInvariant s'.
Proof.
  intros (Hmodel & Hidx & Hposes & Hlast) Hnext. eexists. split; [reflexivity|].
  pose proof (layers_nonempty_index _ _ _ Hnext) as Hne.
  apply index_bounds in Hnext. specialize (Hlast Hne). lia.
Qed.

Lemma appendLayer_invariant (s : EditorState) (newLayer : OutfitLayer) :
  snapshotInvariant s -> outfitHistory s <> [] -> poseImages newLayer <> [] ->
  exists s', appendLayer newLayer s = Normal s' /\ snapshotInvariant s'.
Proof.
  intros (Hmodel & Hidx & Hposes & Hlast) Hne Hnew. eexists. split; [reflexivity|].
  destruct (Hidx Hne) as [Hvalid Hbase]. unfold validIndex in Hvalid.
  cbn. rewrite slice0_take by lia.
  split; [|split; [|split]].
  - cbn. intros Hnil. by apply app_nil in Hnil as [_ ?].
  - cbn. intros _. split.
    + unfold validIndex. cbn. rewrite length_app, length_take. cbn. lia.
    + intros layer Hl. apply Hbase.
      apply index_Some in Hl as [_ Hl]. apply index_Some. split; [done|].
      cbn in Hl. change (Z.to_nat 0) with 0 in *.
      rewrite lookup_app_l in Hl by (rewrite length_take; lia).
      rewrite lookup_take_lt in Hl by lia. done.
  - intros layer Hin. cbn in Hin.
    apply elem_of_app in Hin as [Hin|Hin].
    + apply Hposes. by eapply subseteq_take.
    + apply list_elem_of_singleton in Hin. by subst.
  - intros _. cbn. rewrite length_app, length_take. cbn. lia.
Qed.

Lemma switchPose_invariant (s : EditorState) (newPose : string) :
  snapshotInvariant s ->
  exists s', switchPose newPose s = Normal s' /\ snapshotInvariant s'.
Proof. intros Hinv. eexists. split; [reflexivity|]. exact Hinv. Qed.

Lemma rewriteCurrentLayer_invariant
    (newPoseImages : EditorState -> JS.Dict -> JS.Dict)
    (newPose : EditorState -> string) (s : EditorState) (layer : OutfitLayer) :
  snapshotInvariant s ->
  JS.index (outfitHistory s) (currentOutfitIndex s) = Some layer ->
  (forall images, newPoseImages s images <> []) ->
  exists s', rewriteCurrentLayer newPoseImages newPose s = Normal s' /\
             snapshotInvariant s'.
Proof.
  intros (Hmodel & Hidx & Hposes & Hlast) Hlayer Hnew.
  rewrite (rewriteCurrentLayer_defined _ _ s layer Hlayer).
  eexists. split; [reflexivity|].
  pose proof (layers_nonempty_index _ _ _ Hlayer) as Hne.
  destruct (Hidx Hne) as [Hvalid Hbase]. unfold validIndex in Hvalid.
  split; [|split; [|split]]; cbn.
  - intros Hnil. apply (f_equal length) in Hnil. rewrite length_insert in Hnil.
    by destruct (outfitHistory s).
  - intros _. split.
    + unfold validIndex. cbn. by rewrite length_insert.
    + intros layer' Hl. unfold outfitHistory at 1 in Hl.
      destruct (decide (currentOutfitIndex s = 0%Z)) as [Hz|Hnz].
      * rewrite Hz in Hl, Hlayer. erewrite index_insert_eq in Hl by done.
        injection Hl as <-. cbn. by apply Hbase.
      * rewrite index_insert_ne in Hl by lia. by apply Hbase.
  - intros layer' Hin. cbn in Hin.
    apply list_elem_of_lookup_1 in Hin as [i Hi].
    apply list_lookup_insert_Some in Hi as [(_ & <- & _)|(_ & Hi)].
    + cbn. apply Hnew.
    + apply Hposes. by eapply list_elem_of_lookup_2.
  - intros _. cbn. rewrite length_insert. by apply Hlast.
Qed.

Lemma removeFrom_invariant (s : EditorState) (layerIndex : Z) :
  snapshotInvariant s ->
  match removeFrom layerIndex s with
  | Normal s' => snapshotInvariant s'
  | Thrown _ => True
  | IllTyped => False
  end.
Proof.
  intros (Hmodel & Hidx & Hposes & _).
  destruct (lastValidLayer layerIndex s) as [layer|] eqn:Hlast.
  - assert (0 < layerIndex <= Z.of_nat (length (outfitHistory s)))%Z as Hk.
    { unfold lastValidLayer in Hlast. apply index_bounds in Hlast.
      assert (0 <= layerIndex)%Z as Hpos by lia.
      rewrite slice0_take, length_take in Hlast by done. lia. }
    destruct (removeFrom_defined s layerIndex Hposes Hk)
      as (layer' & pose & Hl & _ & ->).
    pose proof (layers_nonempty_index _ _ _ Hl) as Hne.
    destruct (Hidx Hne) as [Hvalid Hbase].
    split; [|split; [|split]]; cbn.
    + intros Hnil. apply (f_equal length) in Hnil.
      rewrite length_take in Hnil. cbn in Hnil. lia.
    + intros _. split.
      * unfold validIndex. cbn. rewrite length_take. lia.
      * intros base Hb. apply Hbase.
        apply index_Some in Hb as [_ Hb]. apply index_Some. split; [done|].
        cbn in Hb. change (Z.to_nat 0) with 0 in *.
        rewrite lookup_take_lt in Hb by lia. done.
    + intros layer'' Hin. cbn in Hin. apply Hposes. by eapply subseteq_take.
    + intros _. cbn. rewrite length_take. lia.
  - unfold lastValidLayer in Hlast. unfold removeFrom. by rewrite Hlast.
Qed.

Lemma invariant_editorState (a : AppState) :
  appInvariant a -> exists s, editorState a = Some s /\ snapshotInvariant s.
Proof.
  intros [Hwf Hall]. destruct (wf_state _ Hwf) as [s Hs]. exists s.
  split; [done|]. by eapply Forall_lookup_1.
Qed.

Lemma install_invariant (h : Undoable) (s s' : EditorState) :
  state h = Some s -> Forall snapshotInvariant (history h) -> snapshotInvariant s' ->
  Forall snapshotInvariant (history (install sameJSON s' s h)).
Proof.
  intros Hs Hall Hnew. destruct (sameJSON s' s) eqn:E.
  - by rewrite install_same.
  - rewrite install_distinct by done. cbn.
    apply Forall_app. split; [by apply Forall_take|by apply Forall_singleton].
Qed.

Lemma setEditorState_invariant (update : EditorState -> Completion EditorState)
    (w : World) (s : EditorState) :
  appInvariant (app w) ->
  editorState (app w) = Some s ->
  match update s with
  | Normal s' => snapshotInvariant s'
  | Thrown _ => True
  | IllTyped => False
  end ->
  (exists h,
     setEditorState (Functional update) w =
       (Normal tt, {| app := setEditor h (app w); calls := calls w |}) /\
     wf h /\ Forall snapshotInvariant (history h)) \/
  (exists m, setEditorState (Functional update) w = (Thrown m, w)).
Proof.
  intros [Hwf Hall] Hs Hup. unfold setEditorState, setState.
  unfold editorState in Hs. rewrite Hs. cbn.
  destruct (update s) as [s'|m|]; [|by eauto|done].
  left. eexists. split; [reflexivity|].
  split; [by apply install_wf|by apply install_invariant].
Qed.

Lemma resetState_invariant (s : EditorState) (a : AppState) :
  snapshotInvariant s -> appInvariant (setEditor (resetState s) a).
Proof.
  intros Hs. split; cbn; [unfold wf; cbn; lia|]. by apply Forall_singleton.
Qed.

Lemma undo_invariant (a : AppState) :
  appInvariant a -> appInvariant (setEditor (undo (editor a)) a).
Proof.
  intros [Hwf Hall]. split; cbn; [by apply undo_wf|]. by rewrite undo_history.
Qed.

Lemma redo_invariant (a : AppState) :
  appInvariant a -> appInvariant (setEditor (redo (editor a)) a).
Proof.
  intros [Hwf Hall]. split; cbn; [by apply redo_wf|]. by rewrite redo_history.
Qed.

Lemma initial_invariant : appInvariant initialAppState.
Proof.
  split; cbn; [unfold wf; cbn; lia|]. apply Forall_singleton.
  split; [done|]. split; [done|]. split.
  - intros layer Hin. by apply elem_of_nil in Hin.
  - intros Hne. by destruct Hne.
Qed.

Lemma finalized_invariant (url : string) :
  snapshotInvariant
    {| modelImageUrl := Some url;
       outfitHistory := [ {| garment := None; poseImages := [(POSE_0, url)] |} ];
       currentOutfitIndex := 0;
       currentPose := POSE_0 |}.
Proof.
  split; [done|]. split.
  - intros _. split; [unfold validIndex; cbn; lia|].
    intros layer Hl. cbn in Hl. by injection Hl as <-.
  - split; [|by intros _].
    intros layer Hin. apply list_elem_of_singleton in Hin. by subst.
Qed.

(** Closing a branch of a handler in which the hook was not written, or
    was written with a hook [h] known to be well formed. *)
Ltac keeps :=
  split; [done|];
  match goal with
  | Hinv : appInvariant _ |- _ => destruct Hinv; split; cbn; done
  end.

Ltac with_setEditorState Hinv Hs :=
  match goal with
  | |- context [setEditorState (Functional ?u) ?w] =>
      let Hwf := fresh "Hwf" in
      let Hall := fresh "Hall" in
      destruct (setEditorState_invariant u w _ Hinv Hs)
        as [(?h & -> & Hwf & Hall)|(?m & ->)]
  end.

Section WithGateway.

Variable gateway : Gateway.Call -> Gateway.Settled.
Variable getFriendlyErrorMessage : string -> string -> string.
Variable createObjectURL : Gateway.File -> string.

Lemma handleBackgroundChange_invariant (backgroundPrompt : string) (a : AppState) :
  appInvariant a ->
  keepsInvariant (handleBackgroundChange gateway getFriendlyErrorMessage
                    backgroundPrompt {| app := a; calls := [] |}).
Proof.
  intros Hinv. destruct (invariant_editorState a Hinv) as (s & Hs & Hsnap).
  unfold handleBackgroundChange. run_handler. rewrite Hs. run_handler.
  destruct (displayImageUrl s) as [image|] eqn:Himage; [|by keeps].
  destruct (JS.truthy (Some image)); [|by keeps].
  destruct (isBusy a); [by keeps|]. run_handler.
  destruct (gateway _) as [v|m]; [|by keeps].
  destruct (active_layer_defined s Hsnap) as [layer Hlayer];
    [by eapply shown_has_layers|].
  with_setEditorState Hinv Hs.
  - destruct (rewriteCurrentLayer_invariant
                (fun prev images => JS.set images (currentPose prev) v)
                currentPose s layer Hsnap Hlayer) as (s' & Hrun & Hs').
    { intros images. apply set_nonempty. }
    unfold replacePoseImage. by rewrite Hrun.
  - run_handler. split; [done|]. by split.
  - run_handler. by keeps.
Qed.

Lemma handleRepattern_invariant (patternPrompt : string) (a : AppState) :
  appInvariant a ->
  keepsInvariant (handleRepattern gateway getFriendlyErrorMessage
                    patternPrompt {| app := a; calls := [] |}).
Proof.
  intros Hinv. destruct (invariant_editorState a Hinv) as (s & Hs & Hsnap).
  unfold handleRepattern. run_handler. rewrite Hs. run_handler.
  destruct (displayImageUrl s) as [image|] eqn:Himage; [|by keeps].
  destruct (repatternTarget a) as [[layerIndex garmentName]|]; [|by keeps].
  destruct (JS.truthy (Some image)); [|by keeps].
  destruct (isBusy a); [by keeps|]. run_handler.
  destruct (gateway _) as [v|m]; [|by keeps].
  destruct (active_layer_defined s Hsnap) as [layer Hlayer];
    [by eapply shown_has_layers|].
  with_setEditorState Hinv Hs.
  - destruct (rewriteCurrentLayer_invariant
                (fun prev _ => [(currentPose prev, v)])
                currentPose s layer Hsnap Hlayer) as (s' & Hrun & Hs'); [done|].
    unfold repatternLayer. by rewrite Hrun.
  - run_handler. split; [done|]. by split.
  - run_handler. by keeps.
Qed.

Lemma handlePoseSelect_invariant (newPose : string) (a : AppState) :
  appInvariant a ->
  keepsInvariant (handlePoseSelect gateway getFriendlyErrorMessage
                    newPose {| app := a; calls := [] |}).
Proof.
  intros Hinv. destruct (invariant_editorState a Hinv) as (s & Hs & Hsnap).
  unfold handlePoseSelect. run_handler. rewrite Hs. run_handler.
  destruct (isBusy a); [by keeps|].
  destruct (bool_decide (length (outfitHistory s) = 0)); [by keeps|].
  destruct (bool_decide (newPose = currentPose s)); [by keeps|].
  run_handler.
  destruct (JS.index (outfitHistory s) (currentOutfitIndex s))
    as [currentLayer|] eqn:Hlayer; [|by keeps].
  destruct (JS.truthyAt (poseImages currentLayer) newPose).
  { with_setEditorState Hinv Hs.
    - by destruct (switchPose_invariant s newPose Hsnap) as (s' & -> & Hs').
    - split; [done|]. by split.
    - by keeps. }
  destruct (head (JS.values (poseImages currentLayer))) as [base|]; [|by keeps].
  destruct (JS.truthy (Some base)); [|by keeps]. run_handler.
  destruct (gateway _) as [v|m]; [|by keeps].
  with_setEditorState Hinv Hs.
  - destruct (rewriteCurrentLayer_invariant
                (fun _ images => JS.set images newPose v)
                (fun _ => newPose) s currentLayer Hsnap Hlayer) as (s' & Hrun & Hs').
    { intros images. apply set_nonempty. }
    unfold addPoseImage. by rewrite Hrun.
  - run_handler. split; [done|]. by split.
  - run_handler. by keeps.
Qed.

Lemma handleGarmentSelect_invariant (garmentFile : Gateway.File)
    (garmentInfo : WardrobeItem) (enhance : bool) (a : AppState) :
  appInvariant a ->
  keepsInvariant (handleGarmentSelect gateway getFriendlyErrorMessage createObjectURL
                    garmentFile garmentInfo enhance {| app := a; calls := [] |}).
Proof.
  intros Hinv. destruct (invariant_editorState a Hinv) as (s & Hs & Hsnap).
  unfold handleGarmentSelect. run_handler. rewrite Hs. run_handler.
  destruct (displayImageUrl s) as [image|] eqn:Himage; [|by keeps].
  destruct (JS.truthy (Some image)); [|by keeps].
  destruct (isBusy a); [by keeps|]. run_handler.
  pose proof (shown_has_layers s image Hsnap Himage) as Hne.
  destruct (JS.index (outfitHistory s) (currentOutfitIndex s + 1))
    as [nextLayer|] eqn:Hnext.
  - destruct (sameGarment (Some nextLayer) garmentInfo).
    { with_setEditorState Hinv Hs.
      - by destruct (advanceLayer_invariant s nextLayer Hsnap Hnext) as (s' & -> & Hs').
      - split; [done|]. by split.
      - by keeps. }
    run_handler. destruct enhance; run_handler.
    + destruct (gateway (Gateway.cleanupGarmentImage garmentFile)) as [file|m];
        run_handler; [|by keeps].
      destruct (gateway _) as [v|m]; run_handler; [|by keeps].
      with_setEditorState Hinv Hs.
      * by edestruct appendLayer_invariant as (s' & -> & Hs').
      * run_handler. split; [done|]. by split.
      * run_handler. by keeps.
    + destruct (gateway _) as [v|m]; run_handler; [|by keeps].
      with_setEditorState Hinv Hs.
      * by edestruct appendLayer_invariant as (s' & -> & Hs').
      * run_handler. split; [done|]. by split.
      * run_handler. by keeps.
  - cbn [sameGarment]. run_handler. destruct enhance; run_handler.
    + destruct (gateway (Gateway.cleanupGarmentImage garmentFile)) as [file|m];
        run_handler; [|by keeps].
      destruct (gateway _) as [v|m]; run_handler; [|by keeps].
      with_setEditorState Hinv Hs.
      * by edestruct appendLayer_invariant as (s' & -> & Hs').
      * run_handler. split; [done|]. by split.
      * run_handler. by keeps.
    + destruct (gateway _) as [v|m]; run_handler; [|by keeps].
      with_setEditorState Hinv Hs.
      * by edestruct appendLayer_invariant as (s' & -> & Hs').
      * run_handler. split; [done|]. by split.
      * run_handler. by keeps.
Qed.

Lemma handleRemoveLayer_invariant (layerIndex : Z) (a : AppState) :
  appInvariant a ->
  keepsInvariant (handleRemoveLayer layerIndex {| app := a; calls := [] |}).
Proof.
  intros Hinv. destruct (invariant_editorState a Hinv) as (s & Hs & Hsnap).
  unfold handleRemoveLayer. run_handler.
  destruct (isBusy a); [by keeps|].
  with_setEditorState Hinv Hs.
  - by apply removeFrom_invariant.
  - split; [done|]. by split.
  - by keeps.
Qed.

(** Every handler keeps the invariant of the cells, whatever the gateway
    answers. *)
Lemma handler_invariant (act : Action) (a : AppState) :
  appInvariant a ->
  keepsInvariant (handler gateway getFriendlyErrorMessage createObjectURL act
                    {| app := a; calls := [] |}).
Proof.
  intros Hinv. destruct act; cbn [handler].
  - split; [done|]. apply resetState_invariant, finalized_invariant.
  - split; [done|]. cbn.
    destruct initial_invariant as [Hwf Hall]. by split.
  - by apply handleGarmentSelect_invariant.
  - by apply handlePoseSelect_invariant.
  - by apply handleBackgroundChange_invariant.
  - by keeps.
  - by apply handleRepattern_invariant.
  - by apply handleRemoveLayer_invariant.
  - split; [done|]. by apply undo_invariant.
  - split; [done|]. by apply redo_invariant.
Qed.

End WithGateway.

Lemma session_invariant (getFriendlyErrorMessage : string -> string -> string)
    (createObjectURL : Gateway.File -> string) (es : list Event) (a : AppState) :
  appInvariant a ->
  exists a', session getFriendlyErrorMessage createObjectURL es a = Some a' /\
             appInvariant a'.
Proof.
  revert a. induction es as [|e es IH]; intros a Hinv; [by exists a|].
  cbn. unfold after, perform.
  destruct (handler_invariant (answers e) getFriendlyErrorMessage createObjectURL
              (action e) a Hinv) as [Htyped Hafter].
  destruct (handler _ _ _ _ _) as [[[]|m|] w]; cbn in *; [by apply IH|by apply IH|done].
Qed.

(** C7 (layer invariant). Every sequence of user actions on the editor
    (finalizing a model, applying garments, selecting poses, changing the
    background, repatterning, removing layers, starting over, undo and
    redo), with any answers of the gateway, ends in cells whose current
    snapshot, like every snapshot that undo and redo can reach, has a valid
    active index whenever it has layers, and no garment in the layer at
    index 0. *)
Theorem layer_invariant (getFriendlyErrorMessage : string -> string -> string)
    (createObjectURL : Gateway.File -> string) (es : list Event) :
  exists a s,
    session getFriendlyErrorMessage createObjectURL es initialAppState = Some a /\
    editorState a = Some s /\
    (outfitHistory s <> [] -> validIndex s) /\
    (forall layer, JS.index (outfitHistory s) 0 = Some layer -> garment layer = None) /\
    (forall s', s' ∈ history (editor a) ->
       (outfitHistory s' <> [] -> validIndex s') /\
       (forall layer, JS.index (outfitHistory s') 0 = Some layer ->
          garment layer = None)).
Proof.
  destruct (session_invariant getFriendlyErrorMessage createObjectURL es
              initialAppState initial_invariant) as (a & Hrun & Hinv).
  destruct (invariant_editorState a Hinv) as (s & Hs & Hsnap).
  assert (forall s', snapshotInvariant s' ->
            (outfitHistory s' <> [] -> validIndex s') /\
            (forall layer, JS.index (outfitHistory s') 0 = Some layer ->
               garment layer = None)) as Hshape.
  { intros s' (_ & Hidx & _). split; [by intros []%Hidx|].
    intros layer Hl. pose proof (layers_nonempty_index _ _ _ Hl) as Hne.
    destruct (Hidx Hne) as [_ Hbase]. by apply Hbase. }
  exists a, s. split; [done|]. split; [done|].
  destruct (Hshape s Hsnap) as [Hvalid Hbase].
  split; [done|]. split; [done|].
  intros s' Hin. apply Hshape. destruct Hinv as [_ Hall].
  by eapply Forall_forall in Hall.
Qed.

(** ** Applying a garment through the gateway, and the scenario of
    section 8 *)

Section WithGateway.

Variable gateway : Gateway.Call -> Gateway.Settled.
Variable getFriendlyErrorMessage : string -> string -> string.
Variable createObjectURL : Gateway.File -> string.

(** The path of [applyGarment] that is not the redo shortcut: one gateway
    call with the displayed image, and a new layer appended after the
    active one. *)
Lemma applyGarment_through_gateway (a : AppState) (s : EditorState)
    (garmentFile : Gateway.File) (garmentInfo : WardrobeItem)
    (image newImageUrl : string) :
  editorState a = Some s ->
  isBusy a = false ->
  displayImageUrl s = Some image ->
  image <> "" ->
  sameGarment (JS.index (outfitHistory s) (currentOutfitIndex s + 1)) garmentInfo = false ->
  gateway (Gateway.generateVirtualTryOnImage image garmentFile)
    = Gateway.Fulfilled newImageUrl ->
  exists w,
    handleGarmentSelect gateway getFriendlyErrorMessage createObjectURL
      garmentFile garmentInfo false {| app := a; calls := [] |} = (Normal tt, w) /\
    calls w = [Gateway.generateVirtualTryOnImage image garmentFile] /\
    editor (app w) =
      install sameJSON
        {| modelImageUrl := modelImageUrl s;
           outfitHistory :=
             JS.slice0 (outfitHistory s) (currentOutfitIndex s + 1) ++
             [ {| garment := Some garmentInfo;
                  poseImages := [(currentPose s, newImageUrl)] |} ];
           currentOutfitIndex := currentOutfitIndex s + 1;
           currentPose := currentPose s |}
        s (editor a) /\
    isBusy (app w) = false.
Proof.
  intros Hs Hbusy Himage Hne Hnext Hanswer.
  unfold handleGarmentSelect. run_handler. rewrite Hs. run_handler.
  rewrite Himage. unfold JS.truthy. rewrite bool_decide_eq_false_2 by done.
  rewrite Hbusy. run_handler. rewrite Hnext. run_handler. rewrite Hanswer.
  erewrite setEditorState_run by (exact Hs || reflexivity).
  run_handler. eexists. split; [reflexivity|]. cbn.
  split; [done|]. split; [done|].
  apply isBusy_false in Hbusy as (_ & Hst & Hsh). unfold isBusy. cbn.
  by rewrite Hst, Hsh.
Qed.

End WithGateway.

(** C1 (scenario: apply, undo, apply again), as the code runs it. After
    [finalizeModel(M)] the editor shows [M] and has one layer. Applying
    [g1], with the gateway answering [X], shows [X] at active index 1. An
    [undo] shows [M] again at active index 0, and the current snapshot has
    one layer and none at index 1: the layer of [g1] is kept at index 1 of
    the next snapshot of the history, the one a [redo] makes current,
    without any gateway call. Applying [g1] again after the undo calls
    the gateway a second time and shows what it answers. *)
Theorem reapply_after_undo (gateway : Gateway.Call -> Gateway.Settled)
    (getFriendlyErrorMessage : string -> string -> string)
    (createObjectURL : Gateway.File -> string)
    (M X : string) (garmentFile : Gateway.File) (g1 : WardrobeItem) :
  M <> "" ->
  gateway (Gateway.generateVirtualTryOnImage M garmentFile) = Gateway.Fulfilled X ->
  exists a1 a2 a3 w4 s2 wRedo,
    reapplyScenario gateway getFriendlyErrorMessage createObjectURL M garmentFile g1
      = Some (a1, a2, a3, w4) /\
    shown a1 = Some (Some M, 0%Z) /\
    (exists s1, editorState a1 = Some s1 /\ length (outfitHistory s1) = 1) /\
    shown a2 = Some (Some X, 1%Z) /\
    shown a3 = Some (Some M, 0%Z) /\
    (exists s3, editorState a3 = Some s3 /\ length (outfitHistory s3) = 1) /\
    layerAt a3 1 = None /\
    history (editor a3) !! 1 = Some s2 /\
    JS.index (outfitHistory s2) 1 =
      Some {| garment := Some g1; poseImages := [(POSE_0, X)] |} /\
    perform getFriendlyErrorMessage createObjectURL
      {| action := Redo; answers := gateway |} a3 = (Normal tt, wRedo) /\
    calls wRedo = [] /\
    editorState (app wRedo) = Some s2 /\
    shown (app wRedo) = Some (Some X, 1%Z) /\
    calls w4 = [Gateway.generateVirtualTryOnImage M garmentFile] /\
    shown (app w4) = Some (Some X, 1%Z).
Proof.
  intros HM Hanswer.
  set (base := {| garment := None; poseImages := [(POSE_0, M)] |}).
  set (top := {| garment := Some g1; poseImages := [(POSE_0, X)] |}).
  set (s1 := {| modelImageUrl := Some M; outfitHistory := [base];
                currentOutfitIndex := 0; currentPose := POSE_0 |}).
  set (s2 := {| modelImageUrl := Some M; outfitHistory := [base; top];
                currentOutfitIndex := 1; currentPose := POSE_0 |}).
  set (a1 := setEditor (resetState s1) initialAppState).
  assert (sameJSON s2 s1 = false) as Hdistinct.
  { apply not_true_is_false. intros Heq%sameJSON_true. discriminate Heq. }
  (* the first application *)
  destruct (applyGarment_through_gateway gateway getFriendlyErrorMessage
              createObjectURL a1 s1 garmentFile g1 M X)
    as (w2 & Hrun2 & _ & Heditor2 & Hbusy2); try done.
  change (install sameJSON _ s1 (editor a1))
    with (install sameJSON s2 s1 (resetState s1)) in Heditor2.
  rewrite install_distinct in Heditor2 by done. cbn in Heditor2.
  (* the undo *)
  set (a3 := setEditor (undo (editor (app w2))) (app w2)).
  assert (editor a3 = {| history := [s1; s2]; currentIndex := 0 |}) as Heditor3.
  { unfold a3. cbn. by rewrite Heditor2. }
  assert (editorState a3 = Some s1) as Hs3.
  { unfold editorState. by rewrite Heditor3. }
  (* the second application *)
  destruct (applyGarment_through_gateway gateway getFriendlyErrorMessage
              createObjectURL a3 s1 garmentFile g1 M X)
    as (w4 & Hrun4 & Hcalls4 & Heditor4 & _); try done.
  change (install sameJSON _ s1 (editor a3))
    with (install sameJSON s2 s1 (editor a3)) in Heditor4.
  rewrite install_distinct, Heditor3 in Heditor4 by done. cbn in Heditor4.
  exists a1, (app w2), a3, w4, s2.
  eexists {| app := setEditor (redo (editor a3)) a3; calls := [] |}.
  split.
  { unfold reapplyScenario, after, perform. cbn [action answers handler].
    change (handleModelFinalized M {| app := initialAppState; calls := [] |})
      with (Normal tt, {| app := a1; calls := [] |}).
    cbn [app]. rewrite Hrun2. cbn [app].
    change (handleUndo {| app := app w2; calls := [] |})
      with (Normal tt, {| app := a3; calls := [] |}).
    cbn [app]. by rewrite Hrun4. }
  split; [done|]. split; [by exists s1|].
  split. { unfold shown, editorState. by rewrite Heditor2. }
  split. { unfold shown. by rewrite Hs3. }
  split; [by exists s1|].
  split. { unfold layerAt. by rewrite Hs3. }
  split. { by rewrite Heditor3. }
  split; [done|]. split; [done|]. split; [done|].
  split. { unfold editorState. cbn [app setEditor editor]. by rewrite Heditor3. }
  split. { unfold shown, editorState. cbn [app setEditor editor]. by rewrite Heditor3. }
  split; [done|].
  unfold shown, editorState. by rewrite Heditor4.
Qed.

Lemma reapply_after_undo_witness :
  let g1 := {| id := "g1"; name := "Shirt"; url := "u1" |} in
  exists a1 a2 a3 w4,
    reapplyScenario (fun _ => Gateway.Fulfilled "X") (fun m _ => m) (fun f => f)
      "M" "file" g1 = Some (a1, a2, a3, w4) /\
    layerAt a3 1 = None /\
    calls w4 = [Gateway.generateVirtualTryOnImage "M" "file"].
Proof.
  intros g1.
  destruct (reapply_after_undo (fun _ => Gateway.Fulfilled "X") (fun m _ => m)
              (fun f => f) "M" "X" "file" g1)
    as (a1 & a2 & a3 & w4 & s2 & wRedo & Hrun & H);
    [discriminate | reflexivity |].
  exists a1, a2, a3, w4. split; [done|].
  destruct H as (_ & _ & _ & _ & _ & Hlayer & _ & _ & _ & _ & _ & _ & Hcalls & _).
  by split.
Defined.

(** The scenario as the specification tells it fails on the code: after
    the undo the current snapshot has no layer at index 1, and the second
    application calls the gateway. *)
Lemma reapply_after_undo_counterexample :
  ~ scenarioAsSpecified "M" "X" {| id := "g1"; name := "Shirt"; url := "u1" |}
      (reapplyScenario (fun _ => Gateway.Fulfilled "X") (fun m _ => m) (fun f => f)
         "M" "file" {| id := "g1"; name := "Shirt"; url := "u1" |}).
Proof.
  intros (a1 & a2 & a3 & w4 & Hrun & _ & _ & _ & _ & _ & _ & Hcalls).
  vm_compute in Hrun. injection Hrun as <- <- <- <-. discriminate Hcalls.
Qed.

(** A gateway that is offline while a new pose is requested: the hook is
    untouched, the error is set and the editor is not busy. *)
Lemma failure_atomicity_witness :
  let friendly := fun message context => context +:+ ": " +:+ message in
  let e := {| action := PoseSelect "Side profile view";
              answers := fun _ => Gateway.Rejected "offline" |} in
  let s := {| modelImageUrl := Some "M";
              outfitHistory := [ {| garment := None; poseImages := [(POSE_0, "M")] |} ];
              currentOutfitIndex := 0; currentPose := POSE_0 |} in
  let a := setEditor (resetState s) initialAppState in
  let outcome := perform friendly (fun f => f) e a in
  outcome.1 = Normal tt /\
  editor (app outcome.2) = editor a /\
  (exists message context, error (app outcome.2) = Some (friendly message context)) /\
  isLoading (app outcome.2) = false /\
  loadingMessage (app outcome.2) = "" /\
  isBusy (app outcome.2) = false.
Proof.
  intros friendly e s a outcome.
  apply (failure_atomicity friendly (fun f => f) e a eq_refl).
  exists (Gateway.generatePoseVariation "M" "Side profile view").
  split; [|reflexivity]. vm_compute. apply elem_of_cons. by left.
Defined.

(** X30. In every state the editor reaches through its handlers no layer
    follows the active one, so the redo shortcut of [handleGarmentSelect]
    finds no stashed layer: a layer set aside by an undo lives in a later
    snapshot of the history, not in the current layer sequence. *)
Lemma no_stashed_layer (getFriendlyErrorMessage : string -> string -> string)
    (createObjectURL : Gateway.File -> string) (es : list Event) :
  exists a s,
    session getFriendlyErrorMessage createObjectURL es initialAppState = Some a /\
    editorState a = Some s /\
    JS.index (outfitHistory s) (currentOutfitIndex s + 1) = None /\
    (forall garmentInfo,
       sameGarment (JS.index (outfitHistory s) (currentOutfitIndex s + 1)) garmentInfo
         = false).
Proof.
  destruct (session_invariant getFriendlyErrorMessage createObjectURL es
              initialAppState initial_invariant) as (a & Hrun & Hinv).
  destruct (invariant_editorState a Hinv) as (s & Hs & (_ & _ & _ & Hlast)).
  exists a, s. split; [done|]. split; [done|].
  assert (JS.index (outfitHistory s) (currentOutfitIndex s + 1) = None) as Hnone.
  { unfold activeIsLast in Hlast.
    destruct (outfitHistory s) as [|layer layers] eqn:Hlayers.
    - unfold JS.index. by destruct (_ <? 0)%Z.
    - apply index_None. rewrite Hlast by done. lia. }
  split; [done|]. intros garmentInfo. by rewrite Hnone.
Qed.

End EditorProps.

(** * Further properties of the undo/redo hook *)

Module HookMore.
Import UndoableState HookLaws.

Section Laws.

Context {T : Type} (sameJSON : T -> T -> bool).
Implicit Types (h : Undoable (T := T)) (st r : T).

(** X1. The cursor stays inside the history: from a hook whose cursor
    points into its history, every operation of the hook ([setState] with
    an argument that resolves to a value, [undo], [redo]) gives such a hook
    again, and so does [resetState]; the current value is never
    [undefined]. *)
Theorem cursor_stays_in_history h (newState : SetStateAction) st r :
  state h = Some st ->
  resolve newState st = Normal r ->
  (exists h', setState sameJSON newState h = Normal h' /\ wf h' /\
              exists st', state h' = Some st') /\
  (wf (undo h) /\ exists st', state (undo h) = Some st') /\
  (wf (redo h) /\ exists st', state (redo h) = Some st') /\
  (wf (resetState r) /\ state (resetState r) = Some r).
Proof.
  intros Hst Hres. pose proof (state_wf _ _ Hst) as Hwf.
  split; [|split; [|split]].
  - exists (install sameJSON r st h). unfold setState. rewrite Hst, Hres.
    split; [done|]. pose proof (install_wf sameJSON r st h Hst) as Hwf'.
    split; [done|]. by apply wf_state.
  - pose proof (undo_wf h Hwf) as Hwf'. split; [done|]. by apply wf_state.
  - pose proof (redo_wf h Hwf) as Hwf'. split; [done|]. by apply wf_state.
  - split; [unfold wf; cbn; lia|done].
Qed.

(** X2. A new value drops the redo branch: after a [setState] that is not
    coalesced the new value is the current one, the history is the old
    one up to the cursor followed by the new value, and there is
    something to undo and nothing to redo, whatever entries lay after the
    cursor before. *)
Theorem set_drops_redo h (newState : SetStateAction) st r :
  state h = Some st ->
  resolve newState st = Normal r ->
  sameJSON r st = false ->
  exists h',
    setState sameJSON newState h = Normal h' /\
    state h' = Some r /\
    history h' = take (currentIndex h + 1) (history h) ++ [r] /\
    canRedo h' = false /\
    canUndo h' = true /\
    redo h' = h'.
Proof.
  intros Hst Hres Hne. exists (install sameJSON r st h).
  unfold setState. rewrite Hst, Hres. split; [done|].
  split; [by apply install_state|].
  rewrite install_distinct by done. split; [done|].
  pose proof (state_wf _ _ Hst) as Hwf. unfold wf in Hwf.
  assert (length (take (currentIndex h + 1) (history h) ++ [r]) = currentIndex h + 2)
    as Hlen by (rewrite length_app, length_take; cbn; lia).
  unfold canRedo, canUndo, redo. cbn. rewrite Hlen.
  split; [apply bool_decide_eq_false_2; lia|].
  split; [apply bool_decide_eq_true_2; lia|].
  rewrite bool_decide_eq_false_2 by lia. done.
Qed.

(** X3. An [undo] right after a [redo] that had something to redo restores
    the hook. *)
Theorem undo_redo h : wf h -> canRedo h = true -> undo (redo h) = h.
Proof.
  unfold wf, canRedo, redo. intros Hwf Hcan. rewrite Hcan.
  apply bool_decide_eq_true in Hcan. unfold undo. cbn.
  rewrite bool_decide_eq_true_2 by lia.
  destruct h as [hist i]. cbn in *. f_equal. lia.
Qed.

(** X4. [canUndo] and [canRedo] tell exactly whether the operation would do
    something: [undo] leaves the hook as it is if and only if [canUndo] is
    false, and likewise for [redo]. *)
Theorem can_flags_exact h :
  (canUndo h = false <-> undo h = h) /\
  (canRedo h = false <-> redo h = h).
Proof.
  unfold canUndo, canRedo, undo, redo. split; split.
  - by intros ->.
  - case_bool_decide as Hc; [|done]. intros Heq.
    apply (f_equal currentIndex) in Heq. cbn in Heq. lia.
  - by intros ->.
  - case_bool_decide as Hc; [|done]. intros Heq.
    apply (f_equal currentIndex) in Heq. cbn in Heq. lia.
Qed.

Lemma iter_undo_history n h : history (Nat.iter n undo h) = history h.
Proof.
  induction n as [|n IH]; [done|].
  change (Nat.iter (S n) undo h) with (undo (Nat.iter n undo h)).
  by rewrite undo_history.
Qed.

Lemma iter_undo_cursor n h : currentIndex (Nat.iter n undo h) = currentIndex h - n.
Proof.
  induction n as [|n IH]; [cbn; lia|].
  change (Nat.iter (S n) undo h) with (undo (Nat.iter n undo h)).
  rewrite undo_cursor, IH. lia.
Qed.

Lemma iter_redo_cursor n h :
  wf h -> currentIndex h + n < length (history h) ->
  Nat.iter n redo h = {| history := history h; currentIndex := currentIndex h + n |}.
Proof.
  intros Hwf. induction n as [|n IH]; intros Hn.
  - destruct h. cbn. f_equal. lia.
  - change (Nat.iter (S n) redo h) with (redo (Nat.iter n redo h)).
    rewrite IH by lia. unfold redo. cbn.
    rewrite bool_decide_eq_true_2 by lia. f_equal. lia.
Qed.

(** X5. Several undos in a row: [n] undos walk the cursor back by [n],
    stopping at the first entry, and show the entry there without touching
    the history; as many redos bring the hook back when there were [n]
    entries to undo. *)
Theorem undo_many h n :
  wf h ->
  history (Nat.iter n undo h) = history h /\
  currentIndex (Nat.iter n undo h) = currentIndex h - n /\
  state (Nat.iter n undo h) = history h !! (currentIndex h - n) /\
  (n <= currentIndex h -> Nat.iter n redo (Nat.iter n undo h) = h).
Proof.
  intros Hwf. pose proof (iter_undo_history n h) as Hh.
  pose proof (iter_undo_cursor n h) as Hc.
  split; [done|]. split; [done|]. split.
  - unfold state. by rewrite Hh, Hc.
  - intros Hn. unfold wf in Hwf. rewrite iter_redo_cursor.
    + rewrite Hh, Hc. destruct h. cbn in *. f_equal. lia.
    + unfold wf. rewrite Hh, Hc. lia.
    + rewrite Hh, Hc. lia.
Qed.

(** X6. Setting the same value twice records it once: when the comparison
    accepts [r] as equal to itself, a second [setState] with [r] right
    after the first leaves the hook as the first left it. *)
Theorem set_twice h st r :
  state h = Some st ->
  sameJSON r r = true ->
  exists h',
    setState sameJSON (Value r) h = Normal h' /\
    setState sameJSON (Value r) h' = Normal h' /\
    (sameJSON r st = false -> state h' = Some r).
Proof.
  intros Hst Hrefl. exists (install sameJSON r st h).
  rewrite (setState_Value sameJSON r h st Hst). split; [done|].
  destruct (sameJSON r st) eqn:E.
  - rewrite install_same by done. split; [|done].
    rewrite (setState_Value sameJSON r h st Hst). by rewrite install_same.
  - pose proof (install_state sameJSON r st h Hst E) as Hr.
    split; [|done]. rewrite (setState_Value sameJSON r _ r Hr).
    by rewrite install_same.
Qed.

End Laws.

Lemma cursor_stays_in_history_witness :
  (exists h', setState Nat.eqb (Value 7) {| history := [1; 2; 3]; currentIndex := 1 |}
                = Normal h' /\ wf h' /\ exists st', state h' = Some st').
Proof.
  apply (cursor_stays_in_history Nat.eqb {| history := [1; 2; 3]; currentIndex := 1 |}
           (Value 7) 2 7); reflexivity.
Defined.

Lemma set_drops_redo_witness :
  exists h',
    setState Nat.eqb (Value 7) {| history := [1; 2; 3]; currentIndex := 1 |} = Normal h' /\
    state h' = Some 7 /\
    history h' = [1; 2; 7] /\
    canRedo h' = false /\ canUndo h' = true /\ redo h' = h'.
Proof.
  apply (set_drops_redo Nat.eqb {| history := [1; 2; 3]; currentIndex := 1 |}
           (Value 7) 2 7); reflexivity.
Defined.

Lemma undo_redo_witness :
  undo (redo {| history := [1; 2; 3]; currentIndex := 1 |})
    = {| history := [1; 2; 3]; currentIndex := 1 |}.
Proof.
  apply (undo_redo {| history := [1; 2; 3]; currentIndex := 1 |});
    [unfold wf; cbn; lia | reflexivity].
Defined.

Lemma undo_many_witness :
  let h := {| history := [1; 2; 3; 4]; currentIndex := 3 |} in
  state (Nat.iter 2 undo h) = Some 2 /\ Nat.iter 2 redo (Nat.iter 2 undo h) = h.
Proof.
  intros h.
  destruct (undo_many h 2) as (_ & _ & Hst & Hback); [unfold wf; cbn; lia|].
  split; [exact Hst | apply Hback; cbn; lia].
Defined.

Lemma set_twice_witness :
  exists h',
    setState Nat.eqb (Value 7) (useUndoableState 0) = Normal h' /\
    setState Nat.eqb (Value 7) h' = Normal h' /\
    (Nat.eqb 7 0 = false -> state h' = Some 7).
Proof. apply (set_twice Nat.eqb (useUndoableState 0) 0 7); reflexivity. Defined.

End HookMore.

(** * Further properties of the editor *)

Module EditorMore.
Import Types App JSFacts HookLaws EditorProps Edits EditsMore.

Lemma setEditorState_outcome (update : EditorState -> Completion EditorState)
    (w : World) (s : EditorState) :
  editorState (app w) = Some s ->
  (exists s', update s = Normal s' /\
     setEditorState (Functional update) w =
       (Normal tt, {| app := setEditor (install sameJSON s' s (editor (app w))) (app w);
                      calls := calls w |})) \/
  (exists m, setEditorState (Functional update) w = (Thrown m, w)) \/
  setEditorState (Functional update) w = (IllTyped, w).
Proof.
  unfold editorState, setEditorState, setState. intros ->. cbn.
  destruct (update s) as [s'|m|]; eauto.
Qed.

(** Closing a branch of a handler that left the hook alone. *)
Ltac hook_unchanged := intros _; by apply kept.

(** Splitting on the outcome of the [setEditorState] in the goal; [tac]
    names the edit that was made. *)
Ltac on_setEditorState Hs tac :=
  match goal with
  | |- context [setEditorState (Functional ?u) ?w] =>
      let Hup := fresh "Hup" in
      destruct (setEditorState_outcome u w _ Hs)
        as [(?s' & Hup & ->)|[(?m & ->)| ->]];
      run_handler;
      [ intros _; eapply edited; [exact Hs | tac | exact Hup | reflexivity]
      | hook_unchanged
      | try (intros Hno; by destruct Hno) ]
  end.

Section WithGateway.

Variable gateway : Gateway.Call -> Gateway.Settled.
Variable getFriendlyErrorMessage : string -> string -> string.
Variable createObjectURL : Gateway.File -> string.

(** An editing handler leaves the hook as it was or installs one edit of
    the current snapshot. *)
Lemma edit_action_step (act : Action) (a : AppState) :
  let outcome := handler gateway getFriendlyErrorMessage createObjectURL act
                   {| app := a; calls := [] |} in
  edits act = true ->
  outcome.1 <> IllTyped -> editStep a (editor (app outcome.2)).
Proof.
  destruct act; cbn [handler]; cbv zeta; try discriminate; intros _.
  - unfold handleGarmentSelect. run_handler.
    destruct (editorState a) as [s|] eqn:Hs; [|intros Hno; by destruct Hno].
    run_handler.
    destruct (displayImageUrl s) as [image|] eqn:Himage; [|hook_unchanged].
    destruct (JS.truthy (Some image)); [|hook_unchanged].
    destruct (isBusy a); [hook_unchanged|]. run_handler.
    destruct (JS.index (outfitHistory s) (currentOutfitIndex s + 1))
      as [nextLayer|] eqn:Hnext.
    + destruct (sameGarment (Some nextLayer) garmentInfo).
      { on_setEditorState Hs ltac:(by eapply edit_advance). }
      run_handler. destruct enhance; run_handler.
      * destruct (gateway (Gateway.cleanupGarmentImage garmentFile)) as [file|m];
          run_handler; [|hook_unchanged].
        destruct (gateway _) as [v|m]; run_handler; [|hook_unchanged].
        on_setEditorState Hs ltac:(by eapply edit_append).
      * destruct (gateway _) as [v|m]; run_handler; [|hook_unchanged].
        on_setEditorState Hs ltac:(by eapply edit_append).
    + cbn [sameGarment]. run_handler. destruct enhance; run_handler.
      * destruct (gateway (Gateway.cleanupGarmentImage garmentFile)) as [file|m];
          run_handler; [|hook_unchanged].
        destruct (gateway _) as [v|m]; run_handler; [|hook_unchanged].
        on_setEditorState Hs ltac:(by eapply edit_append).
      * destruct (gateway _) as [v|m]; run_handler; [|hook_unchanged].
        on_setEditorState Hs ltac:(by eapply edit_append).
  - unfold handlePoseSelect. run_handler.
    destruct (editorState a) as [s|] eqn:Hs; [|intros Hno; by destruct Hno].
    run_handler.
    destruct (isBusy a); [hook_unchanged|].
    destruct (bool_decide (length (outfitHistory s) = 0)); [hook_unchanged|].
    destruct (bool_decide (newPose = currentPose s)); [hook_unchanged|].
    run_handler.
    destruct (JS.index (outfitHistory s) (currentOutfitIndex s))
      as [currentLayer|] eqn:Hlayer; [|hook_unchanged].
    destruct (JS.truthyAt (poseImages currentLayer) newPose) eqn:Hcached.
    { on_setEditorState Hs ltac:(by eapply edit_switch). }
    destruct (head (JS.values (poseImages currentLayer))) as [base|]; [|hook_unchanged].
    destruct (JS.truthy (Some base)); [|hook_unchanged]. run_handler.
    destruct (gateway _) as [v|m]; run_handler; [|hook_unchanged].
    on_setEditorState Hs ltac:(by eapply edit_addPose).
  - unfold handleBackgroundChange. run_handler.
    destruct (editorState a) as [s|] eqn:Hs; [|intros Hno; by destruct Hno].
    run_handler.
    destruct (displayImageUrl s) as [image|] eqn:Himage; [|hook_unchanged].
    destruct (JS.truthy (Some image)); [|hook_unchanged].
    destruct (isBusy a); [hook_unchanged|]. run_handler.
    destruct (gateway _) as [v|m]; run_handler; [|hook_unchanged].
    on_setEditorState Hs ltac:(by eapply edit_replace).
  - hook_unchanged.
  - unfold handleRepattern. run_handler.
    destruct (editorState a) as [s|] eqn:Hs; [|intros Hno; by destruct Hno].
    run_handler.
    destruct (displayImageUrl s) as [image|] eqn:Himage; [|hook_unchanged].
    destruct (repatternTarget a) as [[layerIndex garmentName]|]; [|hook_unchanged].
    destruct (JS.truthy (Some image)); [|hook_unchanged].
    destruct (isBusy a); [hook_unchanged|]. run_handler.
    destruct (gateway _) as [v|m]; run_handler; [|hook_unchanged].
    on_setEditorState Hs ltac:(by eapply edit_repattern).
  - unfold handleRemoveLayer. run_handler.
    destruct (isBusy a); [hook_unchanged|].
    destruct (editorState a) as [s|] eqn:Hs.
    + on_setEditorState Hs ltac:(by apply edit_remove).
    + unfold setEditorState, setState. cbn [app]. unfold editorState in Hs.
      rewrite Hs. intros Hno. by destruct Hno.
Qed.

(** Every handler leaves the hook as it was, or installs one edit of the
    current snapshot, or resets the hook, or moves its cursor. *)
Lemma handler_transition (act : Action) (a : AppState) :
  let outcome := handler gateway getFriendlyErrorMessage createObjectURL act
                   {| app := a; calls := [] |} in
  outcome.1 <> IllTyped -> transition a (editor (app outcome.2)).
Proof.
  cbv zeta. intros Htyped.
  destruct (edits act) eqn:Hact; [by apply by_edit, edit_action_step|].
  destruct act; try discriminate; cbn.
  - by eapply model_finalized.
  - by apply started_over.
  - by apply undone.
  - by apply redone.
Qed.

End WithGateway.

Lemma rewriteCurrentLayer_Normal
    (newPoseImages : EditorState -> JS.Dict -> JS.Dict)
    (newPose : EditorState -> string) (s s' : EditorState) :
  rewriteCurrentLayer newPoseImages newPose s = Normal s' ->
  exists layer,
    JS.index (outfitHistory s) (currentOutfitIndex s) = Some layer /\
    s' = {| modelImageUrl := modelImageUrl s;
            outfitHistory :=
              <[Z.to_nat (currentOutfitIndex s) :=
                  {| garment := garment layer;
                     poseImages := newPoseImages s (poseImages layer) |}]>
                (outfitHistory s);
            currentOutfitIndex := currentOutfitIndex s;
            currentPose := newPose s |}.
Proof.
  intros Hrun.
  destruct (JS.index (outfitHistory s) (currentOutfitIndex s)) as [layer|] eqn:Hl.
  - rewrite (rewriteCurrentLayer_defined _ _ s layer Hl) in Hrun.
    injection Hrun as <-. by exists layer.
  - unfold rewriteCurrentLayer in Hrun. by rewrite Hl in Hrun.
Qed.

Lemma removeFrom_Normal (s s' : EditorState) (layerIndex : Z) :
  removeFrom layerIndex s = Normal s' ->
  exists layer pose,
    (0 < layerIndex <= Z.of_nat (length (outfitHistory s)))%Z /\
    JS.index (outfitHistory s) (layerIndex - 1) = Some layer /\
    (JS.has (poseImages layer) (currentPose s) = false ->
       pose ∈ JS.keys (poseImages layer)) /\
    (JS.has (poseImages layer) (currentPose s) = true -> pose = currentPose s) /\
    s' = {| modelImageUrl := modelImageUrl s;
            outfitHistory := take (Z.to_nat layerIndex) (outfitHistory s);
            currentOutfitIndex := layerIndex - 1;
            currentPose := pose |}.
Proof.
  intros Hrun. unfold removeFrom in Hrun.
  destruct (JS.index (JS.slice0 (outfitHistory s) layerIndex) (layerIndex - 1))
    as [layer|] eqn:Hl; [|done].
  assert (0 < layerIndex <= Z.of_nat (length (outfitHistory s)))%Z as Hk.
  { apply index_bounds in Hl. assert (0 <= layerIndex)%Z as Hpos by lia.
    rewrite slice0_take, length_take in Hl by done. lia. }
  rewrite slice0_take in Hl, Hrun by lia.
  assert (JS.index (outfitHistory s) (layerIndex - 1) = Some layer) as Hl'.
  { apply index_Some in Hl as [? Hl]. apply index_Some. split; [done|].
    rewrite lookup_take_lt in Hl by lia. done. }
  exists layer.
  destruct (JS.has (poseImages layer) (currentPose s)) eqn:Hhas.
  - exists (currentPose s). injection Hrun as <-. done.
  - destruct (lastValidPose layer) as [pose|] eqn:Hpose; [|done].
    exists pose. injection Hrun as <-.
    split; [done|]. split; [done|]. split; [|done].
    intros _. by apply first_key_elem_of.
Qed.

Lemma get_key (obj : JS.Dict) (k : string) :
  k ∈ JS.keys obj -> exists v, JS.get obj k = Some v.
Proof. by intros [v Hv]%get_keys; exists v. Qed.

Lemma truthy_Some (v : option string) :
  JS.truthy v = true -> exists image, v = Some image /\ image <> "".
Proof.
  destruct v as [image|]; [|done]. cbn. intros Hne%negb_true_iff.
  exists image. split; [done|]. by apply bool_decide_eq_false in Hne.
Qed.

(** No edit touches the model image. *)
Lemma edit_keeps_model (s s' : EditorState)
    (update : EditorState -> Completion EditorState) :
  edit s update -> update s = Normal s' -> modelImageUrl s' = modelImageUrl s.
Proof.
  intros Hedit Hrun. destruct Hedit.
  - by injection Hrun as <-.
  - by injection Hrun as <-.
  - by injection Hrun as <-.
  - apply rewriteCurrentLayer_Normal in Hrun as (? & _ & ->). done.
  - apply rewriteCurrentLayer_Normal in Hrun as (? & _ & ->). done.
  - apply rewriteCurrentLayer_Normal in Hrun as (? & _ & ->). done.
  - apply removeFrom_Normal in Hrun as (? & ? & _ & _ & _ & _ & ->). done.
Qed.

Lemma edit_snapshotInvariant (s s' : EditorState)
    (update : EditorState -> Completion EditorState) :
  snapshotInvariant s -> edit s update -> update s = Normal s' ->
  snapshotInvariant s'.
Proof.
  intros Hinv Hedit Hrun. destruct Hedit as
    [nextLayer Hnext|image info url Himage|layer newPose Hlayer Hcached
    |layer newPose url Hlayer|image url Himage|image url Himage|k].
  - destruct (advanceLayer_invariant s nextLayer Hinv Hnext) as (s'' & Hrun' & Hs'').
    rewrite Hrun in Hrun'. by injection Hrun' as ->.
  - edestruct (appendLayer_invariant s) as (s'' & Hrun' & Hs'');
      [exact Hinv|by eapply shown_has_layers| |].
    2: { rewrite Hrun in Hrun'. by injection Hrun' as ->. }
    done.
  - by injection Hrun as <-.
  - edestruct (rewriteCurrentLayer_invariant
                 (fun _ images => JS.set images newPose url) (fun _ => newPose) s)
      as (s'' & Hrun' & Hs''); [exact Hinv|exact Hlayer| |].
    { intros images. apply set_nonempty. }
    unfold addPoseImage in Hrun. rewrite Hrun in Hrun'. by injection Hrun' as ->.
  - destruct (active_layer_defined s Hinv) as [layer Hlayer];
      [by eapply shown_has_layers|].
    edestruct (rewriteCurrentLayer_invariant
                 (fun prev images => JS.set images (currentPose prev) url) currentPose s)
      as (s'' & Hrun' & Hs''); [exact Hinv|exact Hlayer| |].
    { intros images. apply set_nonempty. }
    unfold replacePoseImage in Hrun. rewrite Hrun in Hrun'. by injection Hrun' as ->.
  - destruct (active_layer_defined s Hinv) as [layer Hlayer];
      [by eapply shown_has_layers|].
    edestruct (rewriteCurrentLayer_invariant
                 (fun prev _ => [(currentPose prev, url)]) currentPose s)
      as (s'' & Hrun' & Hs''); [exact Hinv|exact Hlayer|done|].
    unfold repatternLayer in Hrun. rewrite Hrun in Hrun'. by injection Hrun' as ->.
  - pose proof (removeFrom_invariant s k Hinv) as Hrem. by rewrite Hrun in Hrem.
Qed.

Lemma poseIsCached_rewrite (s : EditorState) (layer : OutfitLayer)
    (images : JS.Dict) (pose image : string) :
  JS.index (outfitHistory s) (currentOutfitIndex s) = Some layer ->
  JS.get images pose = Some image ->
  poseIsCached
    {| modelImageUrl := modelImageUrl s;
       outfitHistory :=
         <[Z.to_nat (currentOutfitIndex s) :=
             {| garment := garment layer; poseImages := images |}]> (outfitHistory s);
       currentOutfitIndex := currentOutfitIndex s;
       currentPose := pose |}.
Proof.
  intros Hlayer Hget _. eexists _, image. cbn.
  split; [by eapply index_insert_eq|done].
Qed.

Lemma edit_steady (s s' : EditorState)
    (update : EditorState -> Completion EditorState) :
  steady s -> edit s update -> update s = Normal s' -> steady s'.
Proof.
  intros (Hinv & Hmodel) Hedit Hrun.
  pose proof (edit_snapshotInvariant s s' update Hinv Hedit Hrun) as Hinv'.
  pose proof (edit_keeps_model s s' update Hedit Hrun) as Hsame.
  split; [done|]. rewrite Hsame. intros Hnone. specialize (Hmodel Hnone).
  destruct Hinv' as (_ & _ & _ & _).
  destruct Hedit as
    [nextLayer Hnext|image info url Himage|layer newPose Hlayer Hnew
    |layer newPose url Hlayer|image url Himage|image url Himage|k].
  - by pose proof (layers_nonempty_index _ _ _ Hnext).
  - by pose proof (shown_has_layers s image Hinv Himage).
  - by pose proof (layers_nonempty_index _ _ _ Hlayer).
  - by pose proof (layers_nonempty_index _ _ _ Hlayer).
  - by pose proof (shown_has_layers s image Hinv Himage).
  - by pose proof (shown_has_layers s image Hinv Himage).
  - apply removeFrom_Normal in Hrun as (layer & pose & _ & Hl & _).
    by pose proof (layers_nonempty_index _ _ _ Hl).
Qed.

(** Every edit leaves the active pose cached, or keeps an active pose that
    is the name of an inherited member. *)
Lemma edit_caches (s s' : EditorState)
    (update : EditorState -> Completion EditorState) :
  steady s -> edit s update -> update s = Normal s' -> cachedUnlessInherited s'.
Proof.
  intros (Hinv & Hmodel) Hedit Hrun Hplain.
  pose proof Hinv as (_ & Hidx & _ & Hlast).
  destruct Hedit as
    [nextLayer Hnext|image info url Himage|layer newPose Hlayer Hnew
    |layer newPose url Hlayer|image url Himage|image url Himage|k].
  - pose proof (layers_nonempty_index _ _ _ Hnext) as Hne.
    apply index_bounds in Hnext. specialize (Hlast Hne). lia.
  - injection Hrun as <-. cbn.
    assert (outfitHistory s <> []) as Hne by by eapply shown_has_layers.
    destruct (Hidx Hne) as [Hvalid _]. unfold validIndex in Hvalid.
    intros _. eexists _, url. cbn. rewrite slice0_take by lia. split.
    + apply index_Some. split; [lia|].
      rewrite lookup_app_r; rewrite length_take; [|lia].
      replace (Z.to_nat (currentOutfitIndex s + 1) - _) with 0 by lia. done.
    + cbn. by rewrite bool_decide_eq_true_2.
  - injection Hrun as <-. intros _. cbn. cbn in Hplain.
    unfold JS.truthyAt in Hnew.
    destruct (JS.get (poseImages layer) newPose) as [image|] eqn:Hget; [|congruence].
    by exists layer, image.
  - apply rewriteCurrentLayer_Normal in Hrun as (layer' & Hl & ->).
    eapply poseIsCached_rewrite; [done|]. apply get_set_eq.
  - apply rewriteCurrentLayer_Normal in Hrun as (layer' & Hl & ->).
    eapply poseIsCached_rewrite; [done|]. apply get_set_eq.
  - apply rewriteCurrentLayer_Normal in Hrun as (layer' & Hl & ->).
    eapply poseIsCached_rewrite; [done|]. cbn. by rewrite bool_decide_eq_true_2.
  - apply removeFrom_Normal in Hrun as (layer & pose & Hk & Hl & Hfirst & Hkept & ->).
    cbn in Hplain. intros _.
    assert (pose ∈ JS.keys (poseImages layer)) as Hin.
    { destruct (JS.has (poseImages layer) (currentPose s)) eqn:Hhas; [|by apply Hfirst].
      rewrite (Hkept eq_refl) in Hplain |- *. by apply has_keys in Hhas. }
    destruct (get_key _ _ Hin) as [image Hget].
    exists layer, image. cbn. split; [|done].
    apply index_Some in Hl as [? Hl]. apply index_Some. split; [lia|].
    rewrite lookup_take_lt by lia. done.
Qed.

Lemma install_Forall (P : EditorState -> Prop) (h : Undoable) (s s' : EditorState) :
  state h = Some s -> Forall P (history h) -> P s' ->
  Forall P (history (install sameJSON s' s h)).
Proof.
  intros Hs Hall Hnew. destruct (sameJSON s' s) eqn:E.
  - by rewrite install_same.
  - rewrite install_distinct by done. cbn.
    apply Forall_app. split; [by apply Forall_take|by apply Forall_singleton].
Qed.

Lemma steady_initial : steady initialEditorState.
Proof.
  split; [|done].
  destruct initial_invariant as [_ Hall].
  apply (Forall_lookup_1 _ _ 0 initialEditorState Hall). reflexivity.
Qed.

Lemma steady_finalized (url : string) : steady (finalized url).
Proof. split; [apply finalized_invariant|done]. Qed.

Lemma steadyCells_invariant (a : AppState) : steadyCells a -> appInvariant a.
Proof.
  intros (Hwf & Hall & _). split; [done|].
  eapply Forall_impl; [exact Hall|]. by intros s [? _].
Qed.

Lemma steadyCells_initial : steadyCells initialAppState.
Proof.
  split; [unfold wf; cbn; lia|]. split.
  - apply Forall_singleton, steady_initial.
  - exists None. by apply Forall_singleton.
Qed.

Lemma transition_steady (a : AppState) (h' : Undoable) :
  steadyCells a -> transition a h' ->
  wf h' /\ Forall steady (history h') /\
  exists model, Forall (fun s => modelImageUrl s = model) (history h').
Proof.
  intros (Hwf & Hall & model & Hmodel) [[->|s s' update Hs Hedit Hrun ->]| -> |url -> | -> | ->].
  - eauto.
  - unfold editorState in Hs.
    assert (steady s) as Hsteady by by eapply Forall_lookup_1.
    assert (modelImageUrl s = model) as Hm by by eapply (Forall_lookup_1 _ _ _ _ Hmodel).
    split; [by apply install_wf|]. split.
    + apply install_Forall; [done|done|]. by eapply edit_steady.
    + exists model. apply install_Forall; [done|done|].
      by rewrite (edit_keeps_model s s' update Hedit Hrun).
  - split; [unfold wf; cbn; lia|]. split.
    + apply Forall_singleton, steady_initial.
    + exists None. by apply Forall_singleton.
  - split; [unfold wf; cbn; lia|]. split.
    + apply Forall_singleton, steady_finalized.
    + exists (Some url). by apply Forall_singleton.
  - rewrite undo_history. split; [by apply undo_wf|]. eauto.
  - rewrite redo_history. split; [by apply redo_wf|]. eauto.
Qed.

Lemma after_steady (getFriendlyErrorMessage : string -> string -> string)
    (createObjectURL : Gateway.File -> string) (e : Event) (a : AppState) :
  steadyCells a ->
  exists a', after getFriendlyErrorMessage createObjectURL e a = Some a' /\
             steadyCells a'.
Proof.
  intros Hsteady. unfold after, perform.
  destruct (handler_invariant (answers e) getFriendlyErrorMessage createObjectURL
              (action e) a (steadyCells_invariant a Hsteady)) as [Htyped _].
  pose proof (handler_transition (answers e) getFriendlyErrorMessage createObjectURL
                (action e) a Htyped) as Hstep.
  apply (transition_steady a _ Hsteady) in Hstep.
  destruct (handler _ _ _ _ _) as [[[]|m|] w]; cbn in *; [by eexists|by eexists|done].
Qed.

Lemma session_steady (getFriendlyErrorMessage : string -> string -> string)
    (createObjectURL : Gateway.File -> string) (es : list Event) (a : AppState) :
  steadyCells a ->
  exists a', session getFriendlyErrorMessage createObjectURL es a = Some a' /\
             steadyCells a'.
Proof.
  revert a. induction es as [|e es IH]; intros a Hsteady; [by exists a|].
  cbn. destruct (after_steady getFriendlyErrorMessage createObjectURL e a Hsteady)
    as (a' & -> & Hsteady'). by apply IH.
Qed.

Lemma steadyCells_editorState (a : AppState) :
  steadyCells a -> exists s, editorState a = Some s /\ steady s.
Proof.
  intros (Hwf & Hall & _). destruct (wf_state _ Hwf) as [s Hs]. exists s.
  split; [done|]. by eapply Forall_lookup_1.
Qed.

(** A property of snapshots that the first snapshots have and the edits
    of steady snapshots give holds of every snapshot of the history after
    any handler. *)
Lemma transition_keeps (P : EditorState -> Prop) (a : AppState) (h' : Undoable) :
  P initialEditorState ->
  (forall url, P (finalized url)) ->
  (forall s s' update,
     steady s -> P s -> edit s update -> update s = Normal s' -> P s') ->
  steadyCells a -> Forall P (history (editor a)) ->
  transition a h' -> Forall P (history h').
Proof.
  intros Hinitial Hfinalized Hedit (Hwf & Hsteady & _) Hall
    [[->|s s' update Hs Hup Hrun ->]| -> |url -> | -> | ->].
  - done.
  - unfold editorState in Hs. apply install_Forall; [done|done|].
    eapply Hedit; [| |done|done]; by eapply Forall_lookup_1.
  - by apply Forall_singleton.
  - by apply Forall_singleton.
  - by rewrite undo_history.
  - by rewrite redo_history.
Qed.

Lemma session_keeps (getFriendlyErrorMessage : string -> string -> string)
    (createObjectURL : Gateway.File -> string)
    (P : EditorState -> Prop) (es : list Event) (a : AppState) :
  P initialEditorState ->
  (forall url, P (finalized url)) ->
  (forall s s' update,
     steady s -> P s -> edit s update -> update s = Normal s' -> P s') ->
  steadyCells a -> Forall P (history (editor a)) ->
  exists a', session getFriendlyErrorMessage createObjectURL es a = Some a' /\
             steadyCells a' /\ Forall P (history (editor a')).
Proof.
  intros Hinitial Hfinalized Hedit. revert a.
  induction es as [|e es IH]; intros a Hsteady Hall; [by exists a|].
  cbn. unfold after, perform.
  destruct (handler_invariant (answers e) getFriendlyErrorMessage createObjectURL
              (action e) a (steadyCells_invariant a Hsteady)) as [Htyped _].
  pose proof (handler_transition (answers e) getFriendlyErrorMessage createObjectURL
                (action e) a Htyped) as Hstep.
  pose proof (transition_steady a _ Hsteady Hstep) as Hsteady'.
  pose proof (transition_keeps P a _ Hinitial Hfinalized Hedit Hsteady Hall Hstep)
    as Hall'.
  destruct (handler _ _ _ _ _) as [[[]|m|] w]; cbn in *; [by apply IH|by apply IH|done].
Qed.

(** X7. The displayed image does not fall back. After every sequence of
    user actions, with any answers of the gateway: when the snapshot has
    layers and its active pose is not the name of an inherited member, the
    active layer exists and holds an image for the active pose, and that
    image is the displayed one; with no layer nothing is displayed. *)
Theorem displayed_pose_is_cached (getFriendlyErrorMessage : string -> string -> string)
    (createObjectURL : Gateway.File -> string) (es : list Event) :
  exists a s,
    session getFriendlyErrorMessage createObjectURL es initialAppState = Some a /\
    editorState a = Some s /\
    (outfitHistory s <> [] ->
     JS.inherited (currentPose s) = false ->
       exists layer image,
         JS.index (outfitHistory s) (currentOutfitIndex s) = Some layer /\
         JS.get (poseImages layer) (currentPose s) = Some image /\
         displayImageUrl s = Some image) /\
    (outfitHistory s = [] -> displayImageUrl s = None).
Proof.
  destruct (session_keeps getFriendlyErrorMessage createObjectURL
              cachedUnlessInherited es initialAppState)
    as (a & Hrun & Hsteady & Hall).
  { intros _ Hne. by destruct Hne. }
  { intros url _ _.
    by exists {| garment := None; poseImages := [(POSE_0, url)] |}, url. }
  { intros s s' update Hs _. by apply edit_caches. }
  { apply steadyCells_initial. }
  { apply Forall_singleton. intros _ Hne. by destruct Hne. }
  destruct (steadyCells_editorState a Hsteady) as (s & Hs & Hinv & Hmodel).
  destruct Hsteady as (Hwf & _).
  pose proof (Forall_lookup_1 _ _ _ _ Hall Hs) as Hcached.
  exists a, s. split; [done|]. split; [done|]. split.
  - intros Hne Hplain. destruct (Hcached Hplain Hne) as (layer & image & Hl & Hget).
    exists layer, image. split; [done|]. split; [done|].
    unfold displayImageUrl. rewrite Hl, Hget.
    rewrite bool_decide_eq_false_2; [done|].
    destruct (outfitHistory s); [done|]. cbn. lia.
  - intros Hnil. destruct Hinv as (Hnone & _).
    unfold displayImageUrl. by rewrite Hnil, Hnone.
Qed.

(** X8. The model image belongs to the whole history. After every sequence
    of user actions the current snapshot has a model image exactly when it
    has layers, and every snapshot that undo and redo can reach has the
    same model image as the current one. *)
Theorem model_image_fixed (getFriendlyErrorMessage : string -> string -> string)
    (createObjectURL : Gateway.File -> string) (es : list Event) :
  exists a s,
    session getFriendlyErrorMessage createObjectURL es initialAppState = Some a /\
    editorState a = Some s /\
    (modelImageUrl s = None <-> outfitHistory s = []) /\
    (forall s', s' ∈ history (editor a) -> modelImageUrl s' = modelImageUrl s).
Proof.
  destruct (session_steady getFriendlyErrorMessage createObjectURL es
              initialAppState steadyCells_initial) as (a & Hrun & Hsteady).
  destruct (steadyCells_editorState a Hsteady) as (s & Hs & Hinv & Hmodel).
  exists a, s. split; [done|]. split; [done|]. split.
  - split; [done|]. by destruct Hinv as (Hnone & _).
  - destruct Hsteady as (_ & _ & model & Hall). intros s' Hin.
    rewrite Forall_forall in Hall. rewrite (Hall s' Hin). symmetry. apply Hall.
    by eapply list_elem_of_lookup_2.
Qed.

Section WithGateway.

Variable gateway : Gateway.Call -> Gateway.Settled.
Variable getFriendlyErrorMessage : string -> string -> string.
Variable createObjectURL : Gateway.File -> string.

(** X9. Undo reverts exactly the last edit. When an editing handler
    (garment, pose, background, repattern, remove layer) changed the
    current snapshot, an undo right after it shows the snapshot from
    before the handler, and a redo after that undo shows the edited
    snapshot again. *)
Theorem undo_reverts_last_edit (e : Event) (a a' : AppState) (s : EditorState) :
  gated (action e) = true ->
  editorState a = Some s ->
  after getFriendlyErrorMessage createObjectURL e a = Some a' ->
  editorState a' <> Some s ->
  exists a'',
    after getFriendlyErrorMessage createObjectURL
      {| action := Undo; answers := answers e |} a' = Some a'' /\
    editorState a'' = Some s /\
    exists a''',
      after getFriendlyErrorMessage createObjectURL
        {| action := Redo; answers := answers e |} a'' = Some a''' /\
      editorState a''' = editorState a'.
Proof.
  intros Hact Hs Hafter Hchanged. unfold after, perform in Hafter.
  assert (edits (action e) = true) as Hedits by by destruct (action e).
  pose proof (edit_action_step (answers e) getFriendlyErrorMessage createObjectURL
                (action e) a Hedits) as Hstep. cbv zeta in Hstep.
  destruct (handler _ _ _ _ _) as [c w]. cbn in Hstep.
  assert (c <> IllTyped /\ a' = app w) as [Htyped ->].
  { destruct c as [[]|m|]; [| |done]; injection Hafter as <-; by split. }
  destruct (Hstep Htyped) as [Hkept|s0 s' update Hs0 Hedit Hrun Hh].
  { destruct Hchanged. unfold editorState. rewrite Hkept. exact Hs. }
  rewrite Hs in Hs0. injection Hs0 as <-. unfold editorState in Hs.
  assert (editorState (app w) = Some s') as Hs'.
  { unfold editorState. rewrite Hh. by apply install_editorState. }
  assert (sameJSON s' s = false) as Hne.
  { apply not_true_is_false. intros ->%sameJSON_true. by destruct Hchanged. }
  eexists. split; [reflexivity|]. cbn. split.
  { unfold editorState. cbn. rewrite Hh. by apply undo_install. }
  eexists. split; [reflexivity|]. unfold editorState. cbn.
  rewrite redo_undo; [done| |].
  - rewrite Hh. by apply install_wf.
  - rewrite Hh, install_distinct by done. unfold canUndo. cbn.
    apply bool_decide_eq_true_2. lia.
Qed.

End WithGateway.

Lemma set_absent (obj : JS.Dict) (k v : string) :
  JS.get obj k = None -> JS.arrayIndex k = None ->
  JS.set obj k v = obj ++ [(k, v)].
Proof. intros Hget Hk. unfold JS.set. by rewrite Hget, Hk. Qed.


Lemma displayImageUrl_active (s : EditorState) (layer : OutfitLayer) (image : string) :
  JS.index (outfitHistory s) (currentOutfitIndex s) = Some layer ->
  JS.get (poseImages layer) (currentPose s) = Some image ->
  displayImageUrl s = Some image.
Proof.
  intros Hl Hget. unfold displayImageUrl. rewrite Hl, Hget.
  rewrite bool_decide_eq_false_2; [done|].
  pose proof (layers_nonempty_index _ _ _ Hl) as Hne.
  destruct (outfitHistory s); [done|]. cbn. lia.
Qed.

Section WithGateway.

Variable gateway : Gateway.Call -> Gateway.Settled.
Variable getFriendlyErrorMessage : string -> string -> string.
Variable createObjectURL : Gateway.File -> string.

(** X11. Pose cache reuse. Selecting a pose for which the active layer
    already holds a non-empty image makes no gateway call: the snapshot
    after it differs from the one before only in the active pose, and the
    displayed image is the cached one. *)
Theorem pose_cache_reuse (a : AppState) (s : EditorState) (newPose : string)
    (currentLayer : OutfitLayer) (image : string) :
  editorState a = Some s ->
  isBusy a = false ->
  newPose <> currentPose s ->
  JS.index (outfitHistory s) (currentOutfitIndex s) = Some currentLayer ->
  JS.get (poseImages currentLayer) newPose = Some image ->
  image <> "" ->
  exists w s',
    handlePoseSelect gateway getFriendlyErrorMessage newPose
      {| app := a; calls := [] |} = (Normal tt, w) /\
    calls w = [] /\
    editorState (app w) = Some s' /\
    s' = {| modelImageUrl := modelImageUrl s; outfitHistory := outfitHistory s;
            currentOutfitIndex := currentOutfitIndex s; currentPose := newPose |} /\
    displayImageUrl s' = Some image /\
    isLoading (app w) = isLoading a /\
    error (app w) = error a.
Proof.
  intros Hs Hbusy Hpose Hlayer Hget Himage.
  unfold handlePoseSelect. run_handler. rewrite Hs. run_handler. rewrite Hbusy.
  rewrite (bool_decide_eq_false_2 (length _ = 0)).
  2: { pose proof (layers_nonempty_index _ _ _ Hlayer). by destruct (outfitHistory s). }
  rewrite (bool_decide_eq_false_2 (newPose = _)) by done.
  run_handler. rewrite Hlayer. unfold JS.truthyAt. rewrite Hget. unfold JS.truthy.
  rewrite bool_decide_eq_false_2 by done. run_handler.
  erewrite setEditorState_run by (exact Hs || reflexivity).
  eexists _, _. split; [reflexivity|]. cbn.
  split; [done|]. split; [by apply install_editorState|].
  split; [done|]. split; [|done].
  by apply (displayImageUrl_active _ currentLayer).
Qed.

(** X12. A new pose. Let the pose be neither the name of an inherited
    member nor an array index. Selecting it when the active layer has no
    image for it sends the first image of that layer (not the displayed
    one) to the gateway, once; when the gateway answers, the image is
    added to the active layer as its last entry under the new pose, the
    entries it had and all other layers stay as they were, the new pose
    becomes the active pose and its image the displayed one. *)
Theorem pose_generated (a : AppState) (s : EditorState) (newPose : string)
    (currentLayer : OutfitLayer) (base newImageUrl : string) :
  editorState a = Some s ->
  isBusy a = false ->
  newPose <> currentPose s ->
  JS.inherited newPose = false ->
  JS.arrayIndex newPose = None ->
  JS.index (outfitHistory s) (currentOutfitIndex s) = Some currentLayer ->
  JS.get (poseImages currentLayer) newPose = None ->
  head (JS.values (poseImages currentLayer)) = Some base ->
  base <> "" ->
  gateway (Gateway.generatePoseVariation base newPose) = Gateway.Fulfilled newImageUrl ->
  exists w s' layer',
    handlePoseSelect gateway getFriendlyErrorMessage newPose
      {| app := a; calls := [] |} = (Normal tt, w) /\
    calls w = [Gateway.generatePoseVariation base newPose] /\
    editorState (app w) = Some s' /\
    JS.index (outfitHistory s') (currentOutfitIndex s) = Some layer' /\
    poseImages layer' = poseImages currentLayer ++ [(newPose, newImageUrl)] /\
    garment layer' = garment currentLayer /\
    (forall j, j <> currentOutfitIndex s ->
       JS.index (outfitHistory s') j = JS.index (outfitHistory s) j) /\
    length (outfitHistory s') = length (outfitHistory s) /\
    currentOutfitIndex s' = currentOutfitIndex s /\
    currentPose s' = newPose /\
    displayImageUrl s' = Some newImageUrl /\
    isLoading (app w) = false.
Proof.
  intros Hs Hbusy Hpose Hplain Hindex Hlayer Hget Hbase Hne Hanswer.
  unfold handlePoseSelect. run_handler. rewrite Hs. run_handler. rewrite Hbusy.
  rewrite (bool_decide_eq_false_2 (length _ = 0)).
  2: { pose proof (layers_nonempty_index _ _ _ Hlayer). by destruct (outfitHistory s). }
  rewrite (bool_decide_eq_false_2 (newPose = _)) by done.
  run_handler. rewrite Hlayer. unfold JS.truthyAt. rewrite Hget, Hplain, Hbase.
  unfold JS.truthy. rewrite bool_decide_eq_false_2 by done. run_handler.
  rewrite Hanswer.
  erewrite setEditorState_run;
    [|exact Hs|by apply rewriteCurrentLayer_defined].
  run_handler. pose proof (index_bounds _ _ _ Hlayer) as Hbounds.
  eexists _, _, _. split; [reflexivity|].
  split; [done|]. split; [by apply install_editorState|]. cbn.
  split; [by eapply index_insert_eq|]. cbn.
  split; [by apply set_absent|]. split; [done|].
  split. { intros j Hj. apply index_insert_ne; [lia|done]. }
  split; [by rewrite length_insert|]. split; [done|]. split; [done|].
  split; [|done].
  eapply displayImageUrl_active; cbn; [by eapply index_insert_eq|].
  cbn. apply get_set_eq.
Qed.


End WithGateway.

Lemma noteGarment_ids (finalGarmentInfo : WardrobeItem) (prev : list WardrobeItem) :
  id <$> noteGarment finalGarmentInfo prev =
    if bool_decide (id finalGarmentInfo ∈ id <$> prev) then id <$> prev
    else (id <$> prev) ++ [id finalGarmentInfo].
Proof.
  unfold noteGarment.
  assert (existsb (fun item => bool_decide (id item = id finalGarmentInfo)) prev
          = bool_decide (id finalGarmentInfo ∈ id <$> prev)) as ->.
  { induction prev as [|item prev IH]; cbn.
    - symmetry. apply bool_decide_eq_false_2. by intros ?%elem_of_nil.
    - rewrite IH, <- bool_decide_or. apply bool_decide_ext.
      rewrite elem_of_cons.
      split; (intros [?|?]; [left; congruence|by right]). }
  case_bool_decide; [|by rewrite fmap_app].
  rewrite <- list_fmap_compose. apply list_fmap_ext. intros i item _. cbn.
  by case_bool_decide.
Qed.

Lemma noteGarment_elem_of (finalGarmentInfo : WardrobeItem) (prev : list WardrobeItem) :
  finalGarmentInfo ∈ noteGarment finalGarmentInfo prev.
Proof.
  unfold noteGarment.
  destruct (existsb _ prev) eqn:E.
  - apply existsb_exists in E as (item & Hin & Hid).
    apply bool_decide_eq_true in Hid. apply list_elem_of_fmap.
    exists item. split; [by rewrite bool_decide_eq_true_2|by apply list_elem_of_In].
  - apply elem_of_app. right. by apply list_elem_of_singleton.
Qed.

Section WithGateway.

Variable gateway : Gateway.Call -> Gateway.Settled.
Variable getFriendlyErrorMessage : string -> string -> string.
Variable createObjectURL : Gateway.File -> string.


End WithGateway.

(** X15. Applying garments keeps the ids of the wardrobe distinct: the
    update of the wardrobe leaves the list of ids as it was when the id of
    the garment is in it (the items with that id are replaced by the
    garment), and otherwise puts the garment last. *)
Theorem wardrobe_ids_distinct (finalGarmentInfo : WardrobeItem)
    (prev : list WardrobeItem) :
  NoDup (id <$> prev) ->
  NoDup (id <$> noteGarment finalGarmentInfo prev) /\
  finalGarmentInfo ∈ noteGarment finalGarmentInfo prev /\
  (id finalGarmentInfo ∈ id <$> prev ->
     id <$> noteGarment finalGarmentInfo prev = id <$> prev) /\
  (id finalGarmentInfo ∉ id <$> prev ->
     noteGarment finalGarmentInfo prev = prev ++ [finalGarmentInfo]).
Proof.
  intros Hnodup. pose proof (noteGarment_ids finalGarmentInfo prev) as Hids.
  split; [|split; [apply noteGarment_elem_of|split]].
  - rewrite Hids. case_bool_decide as Hin; [done|].
    apply NoDup_app. split; [done|]. split; [|apply NoDup_singleton].
    intros i Hi ->%list_elem_of_singleton. done.
  - intros Hin. by rewrite Hids, bool_decide_eq_true_2.
  - intros Hnot. unfold noteGarment.
    destruct (existsb _ prev) eqn:E; [|done].
    apply existsb_exists in E as (item & Hitem & Hid).
    apply bool_decide_eq_true in Hid. destruct Hnot. rewrite <- Hid.
    apply list_elem_of_fmap. exists item. split; [done|by apply list_elem_of_In].
Qed.

Lemma wardrobe_ids_distinct_witness :
  let enhanced := {| id := "white-tee"; name := "White T-Shirt"; url := "blob:1" |} in
  NoDup (id <$> noteGarment enhanced defaultWardrobe) /\
  id <$> noteGarment enhanced defaultWardrobe = ["gray-sweatshirt"; "white-tee"].
Proof.
  intros enhanced.
  assert (NoDup (id <$> defaultWardrobe)) as Hnodup.
  { cbn. apply NoDup_cons. split; [|apply NoDup_singleton].
    intros Hin%list_elem_of_singleton. discriminate. }
  destruct (wardrobe_ids_distinct enhanced defaultWardrobe Hnodup)
    as (Hnew & _ & Hids & _).
  split; [exact Hnew|]. apply Hids. cbn. apply elem_of_cons. right.
  apply elem_of_cons. by left.
Defined.

Lemma undo_reverts_last_edit_witness :
  let e := {| action := BackgroundChange "beach";
              answers := fun _ => Gateway.Fulfilled "B" |} in
  exists a' a'',
    after (fun m _ => m) (fun f => f) e dressed = Some a' /\
    after (fun m _ => m) (fun f => f)
      {| action := Undo; answers := answers e |} a' = Some a'' /\
    editorState a'' = editorState dressed.
Proof.
  intros e.
  destruct (after (fun m _ => m) (fun f => f) e dressed) as [a'|] eqn:Hafter;
    [|vm_compute in Hafter; discriminate].
  destruct (undo_reverts_last_edit (fun m _ => m) (fun f => f) e dressed a'
              {| modelImageUrl := Some "M";
                 outfitHistory := outfitHistory
                   (default initialEditorState (editorState dressed));
                 currentOutfitIndex := 1; currentPose := POSE_0 |})
    as (a'' & Hundo & Hback & _); [reflexivity|reflexivity|exact Hafter| |].
  - vm_compute in Hafter. injection Hafter as <-. vm_compute. discriminate.
  - exists a', a''. split; [done|]. split; [done|]. exact Hback.
Defined.

Lemma pose_cache_reuse_witness :
  exists w s',
    handlePoseSelect (fun _ => Gateway.Rejected "offline") (fun m _ => m)
      "Side profile view" {| app := dressed; calls := [] |} = (Normal tt, w) /\
    calls w = [] /\
    editorState (app w) = Some s' /\
    displayImageUrl s' = Some "S".
Proof.
  destruct (pose_cache_reuse (fun _ => Gateway.Rejected "offline") (fun m _ => m)
              dressed (default initialEditorState (editorState dressed))
              "Side profile view"
              {| garment := Some {| id := "g1"; name := "Shirt"; url := "u1" |};
                 poseImages := [(POSE_0, "X"); ("Side profile view", "S")] |} "S")
    as (w & s' & Hrun & Hcalls & Hs' & _ & Hshown & _);
    try reflexivity; try discriminate.
  by exists w, s'.
Defined.

Lemma pose_generated_witness :
  exists w s' layer',
    handlePoseSelect (fun _ => Gateway.Fulfilled "W") (fun m _ => m)
      "Walking towards camera" {| app := dressed; calls := [] |} = (Normal tt, w) /\
    calls w = [Gateway.generatePoseVariation "X" "Walking towards camera"] /\
    editorState (app w) = Some s' /\
    JS.index (outfitHistory s') 1 = Some layer' /\
    poseImages layer' =
      [(POSE_0, "X"); ("Side profile view", "S"); ("Walking towards camera", "W")] /\
    displayImageUrl s' = Some "W".
Proof.
  destruct (pose_generated (fun _ => Gateway.Fulfilled "W") (fun m _ => m)
              dressed (default initialEditorState (editorState dressed))
              "Walking towards camera"
              {| garment := Some {| id := "g1"; name := "Shirt"; url := "u1" |};
                 poseImages := [(POSE_0, "X"); ("Side profile view", "S")] |} "X" "W")
    as (w & s' & layer' & Hrun & Hcalls & Hs' & Hl & Hposes & _ & _ & _ & _ & _ & Hshown & _);
    try reflexivity; try discriminate.
  by exists w, s', layer'.
Defined.



End EditorMore.

(** * Properties of the saved looks *)

Module LooksProps.
Import Types App JSFacts HookLaws EditorProps Edits EditorMore.
Import (notations) Looks.

Lemma isLookSaved_thumbnails (looks : list Looks.SavedLook) (image : string) :
  Looks.isLookSaved looks (Some image) = true <-> image ∈ Looks.thumbnailUrl <$> looks.
Proof.
  unfold Looks.isLookSaved. rewrite existsb_exists, list_elem_of_fmap. split.
  - intros (look & Hin & Heq). apply list_elem_of_In in Hin.
    apply bool_decide_eq_true in Heq. by exists look.
  - intros (look & -> & Hin). exists look.
    split; [by apply list_elem_of_In|by apply bool_decide_eq_true].
Qed.

(** What [handleSaveLook] does, by cases. *)
Lemma handleSaveLook_cases (timestamp isoDate : string) (st : Looks.Studio)
    (s : EditorState) :
  editorState (Looks.ui st) = Some s ->
  Looks.handleSaveLook timestamp isoDate st = Normal st \/
  exists image,
    displayImageUrl s = Some image /\ image <> "" /\
    JS.truthy (modelImageUrl s) = true /\
    (image ∉ Looks.thumbnailUrl <$> Looks.savedLooks st) /\
    Looks.handleSaveLook timestamp isoDate st =
      Normal {| Looks.ui := Looks.ui st;
                Looks.savedLooks :=
                  Looks.savedLooks st ++
                  [ {| Looks.id := "look-" +:+ timestamp; Looks.thumbnailUrl := image;
                       Looks.savedAt := isoDate; Looks.editorState := s |} ] |}.
Proof.
  intros Hs. unfold Looks.handleSaveLook. rewrite Hs.
  destruct (displayImageUrl s) as [image|]; [|by left].
  destruct (JS.truthy (Some image)) eqn:Himage; [|by left].
  destruct (JS.truthy (modelImageUrl s)) eqn:Hmodel; [|by left].
  destruct (Looks.isLookSaved _ _) eqn:Hsaved; [by left|]. right.
  exists image. split; [done|].
  apply truthy_Some in Himage as (? & [= <-] & Hne).
  split; [done|]. split; [done|]. split; [|done].
  intros Hin%isLookSaved_thumbnails. congruence.
Qed.

Section WithEnvironment.

Variable getFriendlyErrorMessage : string -> string -> string.
Variable createObjectURL : Gateway.File -> string.

Lemma studioStep_invariant (act : Looks.StudioAction) (st : Looks.Studio) :
  Looks.studioInvariant st ->
  exists st', Looks.studioStep getFriendlyErrorMessage createObjectURL act st = Some st' /\
              Looks.studioInvariant st'.
Proof.
  intros (Hcells & Hlooks & Hnodup). destruct act as [e|timestamp isoDate|lookId|lookId]; cbn.
  - destruct (after_steady getFriendlyErrorMessage createObjectURL e _ Hcells)
      as (a' & -> & Hcells'). eexists. split; [reflexivity|].
    split; [done|by split].
  - destruct (steadyCells_editorState _ Hcells) as (s & Hs & Hsteady).
    destruct (handleSaveLook_cases timestamp isoDate st s Hs)
      as [->|(image & Himage & Hne & _ & Hfresh & ->)].
    + eexists. split; [reflexivity|]. split; [done|by split].
    + eexists. split; [reflexivity|]. split; [done|]. cbn. split.
      * apply Forall_app. split; [done|]. apply Forall_singleton. by split.
      * rewrite fmap_app. apply NoDup_app. split; [done|].
        split; [|apply NoDup_singleton].
        intros x Hx ->%list_elem_of_singleton. done.
  - eexists. split; [reflexivity|]. unfold Looks.handleLoadLook.
    destruct (isBusy (Looks.ui st)); [split; [done|by split]|].
    destruct (List.find _ (Looks.savedLooks st)) as [look|] eqn:Hfind;
      [|split; [done|by split]].
    apply find_some in Hfind as [Hin%list_elem_of_In _].
    destruct (proj1 (Forall_forall _ _) Hlooks look Hin) as (Hsteady & _).
    split; [|by split]. cbn. split; [unfold wf; cbn; lia|]. cbn. split.
    + by apply Forall_singleton.
    + exists (modelImageUrl (Looks.editorState look)). by apply Forall_singleton.
  - eexists. split; [reflexivity|]. split; [done|]. cbn. split.
    + apply Forall_forall. intros look [_ Hin]%list_elem_of_filter.
      by apply (proj1 (Forall_forall _ _) Hlooks).
    + eapply sublist_NoDup; [exact Hnodup|].
      apply fmap_sublist, sublist_filter.
Qed.

Lemma studioSession_invariant (acts : list Looks.StudioAction) (st : Looks.Studio) :
  Looks.studioInvariant st ->
  exists st', Looks.studioSession getFriendlyErrorMessage createObjectURL acts st = Some st' /\
              Looks.studioInvariant st'.
Proof.
  revert st. induction acts as [|act acts IH]; intros st Hinv; [by exists st|].
  cbn. destruct (studioStep_invariant act st Hinv) as (st' & -> & Hinv').
  by apply IH.
Qed.

Lemma initialStudio_invariant : Looks.studioInvariant Looks.initialStudio.
Proof.
  split; [apply steadyCells_initial|]. split; [apply Forall_nil_2|apply NoDup_nil_2].
Qed.

(** X16. The layer invariant holds with the archive in play. Every
    sequence of user actions that also saves, loads and deletes looks,
    starting with an empty archive, ends in a current snapshot whose active
    index is valid whenever it has layers and whose layer at index 0 has no
    garment; the same holds of the snapshot of every look in the archive. *)
Theorem layer_invariant_with_looks (acts : list Looks.StudioAction) :
  exists st s,
    Looks.studioSession getFriendlyErrorMessage createObjectURL acts Looks.initialStudio
      = Some st /\
    editorState (Looks.ui st) = Some s /\
    (forall s',
       s' = s \/ (exists look, look ∈ Looks.savedLooks st /\ s' = Looks.editorState look) ->
       (outfitHistory s' <> [] -> validIndex s') /\
       (forall layer, JS.index (outfitHistory s') 0 = Some layer ->
          garment layer = None)).
Proof.
  destruct (studioSession_invariant acts _ initialStudio_invariant)
    as (st & Hrun & Hcells & Hlooks & _).
  destruct (steadyCells_editorState _ Hcells) as (s & Hs & Hsteady).
  exists st, s. split; [done|]. split; [done|].
  assert (forall s', steady s' ->
            (outfitHistory s' <> [] -> validIndex s') /\
            (forall layer, JS.index (outfitHistory s') 0 = Some layer ->
               garment layer = None)) as Hshape.
  { intros s' ((_ & Hidx & _) & _). split; [by intros []%Hidx|].
    intros layer Hl. pose proof (layers_nonempty_index _ _ _ Hl) as Hne.
    destruct (Hidx Hne) as [_ Hbase]. by apply Hbase. }
  intros s' [->|(look & Hin & ->)]; apply Hshape; [done|].
  rewrite Forall_forall in Hlooks. by destruct (Hlooks look Hin).
Qed.


End WithEnvironment.

Lemma find_first (before after : list Looks.SavedLook) (look : Looks.SavedLook)
    (lookId : string) :
  Looks.id look = lookId ->
  lookId ∉ Looks.id <$> before ->
  List.find (fun l => bool_decide (Looks.id l = lookId)) (before ++ look :: after)
    = Some look.
Proof.
  intros Hid. induction before as [|l before IH]; cbn; intros Hfresh.
  - by rewrite bool_decide_eq_true_2.
  - rewrite bool_decide_eq_false_2.
    + apply IH. intros Hin. apply Hfresh. apply elem_of_cons. by right.
    + intros Heq. apply Hfresh. apply elem_of_cons. by left.
Qed.

Lemma find_absent (looks : list Looks.SavedLook) (lookId : string) :
  lookId ∉ Looks.id <$> looks ->
  List.find (fun l => bool_decide (Looks.id l = lookId)) looks = None.
Proof.
  induction looks as [|l looks IH]; cbn; intros Hfresh; [done|].
  rewrite bool_decide_eq_false_2.
  - apply IH. intros Hin. apply Hfresh. apply elem_of_cons. by right.
  - intros Heq. apply Hfresh. apply elem_of_cons. by left.
Qed.

(** Whether a save adds a look does not depend on the time. *)
Lemma handleSaveLook_kept (timestamp isoDate timestamp' isoDate' : string)
    (st : Looks.Studio) :
  Looks.handleSaveLook timestamp isoDate st = Normal st ->
  Looks.handleSaveLook timestamp' isoDate' st = Normal st.
Proof.
  unfold Looks.handleSaveLook.
  destruct (editorState (Looks.ui st)) as [s|]; [|done].
  destruct (displayImageUrl s) as [image|]; [|done].
  destruct (_ || _); [done|]. intros [= Heq].
  apply (f_equal Looks.savedLooks) in Heq. cbn in Heq.
  apply (f_equal length) in Heq. rewrite length_app in Heq. cbn in Heq. lia.
Qed.

Section WithEnvironment.

Variable getFriendlyErrorMessage : string -> string -> string.
Variable createObjectURL : Gateway.File -> string.

(** Editing never touches the archive. *)
Lemma edits_keep_looks (es : list Event) (st st' : Looks.Studio) :
  Looks.studioSession getFriendlyErrorMessage createObjectURL (Looks.Edit <$> es) st
    = Some st' ->
  Looks.savedLooks st' = Looks.savedLooks st.
Proof.
  revert st. induction es as [|e es IH]; intros st; cbn.
  - by intros [= ->].
  - destruct (after _ _ e (Looks.ui st)) as [a|]; [|done].
    intros Hrun. by rewrite (IH _ Hrun).
Qed.

(** X18. Saving and loading a look is a round trip. When a save added a
    look under an id no other look of the archive has, then after any
    further editing, loading that id while the editor is not busy makes
    the saved snapshot the current one again, showing the image that was
    displayed at the save, with the error cleared and a history of that
    single snapshot: there is nothing to undo or redo. The archive is as
    the save left it. *)
Theorem look_round_trip (st st1 st2 : Looks.Studio) (s : EditorState)
    (timestamp isoDate : string) (es : list Event) :
  editorState (Looks.ui st) = Some s ->
  Looks.handleSaveLook timestamp isoDate st = Normal st1 ->
  Looks.savedLooks st1 <> Looks.savedLooks st ->
  ("look-" +:+ timestamp) ∉ Looks.id <$> Looks.savedLooks st ->
  Looks.studioSession getFriendlyErrorMessage createObjectURL (Looks.Edit <$> es) st1
    = Some st2 ->
  isBusy (Looks.ui st2) = false ->
  let st3 := Looks.handleLoadLook ("look-" +:+ timestamp) st2 in
  editor (Looks.ui st3) = resetState s /\
  editorState (Looks.ui st3) = Some s /\
  canUndo (editor (Looks.ui st3)) = false /\
  canRedo (editor (Looks.ui st3)) = false /\
  error (Looks.ui st3) = None /\
  Looks.savedLooks st3 = Looks.savedLooks st1 /\
  exists look,
    last (Looks.savedLooks st1) = Some look /\
    Looks.editorState look = s /\
    displayImageUrl s = Some (Looks.thumbnailUrl look).
Proof.
  intros Hs Hsave Hadded Hfresh Hrun Hbusy.
  destruct (handleSaveLook_cases timestamp isoDate st s Hs)
    as [Hsame|(image & Himage & _ & _ & _ & Hnew)]; rewrite Hsave in *.
  { injection Hsame as ->. by destruct Hadded. }
  injection Hnew as ->. clear Hsave Hadded.
  pose proof (edits_keep_looks es _ _ Hrun) as Hlooks. cbn in Hlooks.
  cbv zeta. unfold Looks.handleLoadLook. rewrite Hbusy, Hlooks.
  rewrite (find_first (Looks.savedLooks st) []
             {| Looks.id := "look-" +:+ timestamp; Looks.thumbnailUrl := image;
                Looks.savedAt := isoDate; Looks.editorState := s |}
             ("look-" +:+ timestamp) eq_refl Hfresh).
  cbn. repeat (split; [done|]). eexists. split; [apply last_snoc|]. by split.
Qed.

(** X19. Saving the same look twice archives it once: a second save right
    after a first one, at whatever time, leaves the archive as the first
    left it; and a save adds at most one look, at the end. *)
Theorem save_twice (st st1 : Looks.Studio) (s : EditorState)
    (timestamp isoDate timestamp' isoDate' : string) :
  editorState (Looks.ui st) = Some s ->
  Looks.handleSaveLook timestamp isoDate st = Normal st1 ->
  Looks.handleSaveLook timestamp' isoDate' st1 = Normal st1 /\
  Looks.ui st1 = Looks.ui st /\
  (Looks.savedLooks st1 = Looks.savedLooks st \/
   exists look, Looks.savedLooks st1 = Looks.savedLooks st ++ [look] /\
                displayImageUrl s = Some (Looks.thumbnailUrl look)).
Proof.
  intros Hs Hsave.
  destruct (handleSaveLook_cases timestamp isoDate st s Hs)
    as [Hsame|(image & Himage & Hne & Hmodel & Hfresh & Hnew)]; rewrite Hsave in *.
  - injection Hsame as ->. split; [|split; [done|by left]].
    by apply (handleSaveLook_kept timestamp isoDate).
  - injection Hnew as ->. split; [|split; [done|]].
    + assert (Looks.isLookSaved
                (Looks.savedLooks st ++
                 [ {| Looks.id := "look-" +:+ timestamp; Looks.thumbnailUrl := image;
                      Looks.savedAt := isoDate; Looks.editorState := s |} ])
                (Some image) = true) as Hsaved.
      { apply isLookSaved_thumbnails. rewrite fmap_app. apply elem_of_app. right.
        by apply list_elem_of_singleton. }
      unfold Looks.handleSaveLook. cbn [Looks.ui Looks.savedLooks].
      rewrite Hs, Himage, Hsaved. by rewrite !orb_true_r.
    + right. eexists. by split.
Qed.

(** X20. Deleting a look removes every look with that id and nothing
    else: the other looks stay, in their order, and the cells of the
    editor are not touched. Deleting an id the archive does not hold
    changes nothing, and after a deletion loading or deleting the same id
    again changes nothing either. *)
Theorem delete_look (st : Looks.Studio) (lookId : string) :
  let st' := Looks.handleDeleteLook lookId st in
  Looks.ui st' = Looks.ui st /\
  (forall look, look ∈ Looks.savedLooks st' <->
                look ∈ Looks.savedLooks st /\ Looks.id look <> lookId) /\
  Looks.savedLooks st' `sublist_of` Looks.savedLooks st /\
  (lookId ∉ Looks.id <$> Looks.savedLooks st -> st' = st) /\
  Looks.handleLoadLook lookId st' = st' /\
  Looks.handleDeleteLook lookId st' = st'.
Proof.
  cbv zeta.
  assert (forall looks : list Looks.SavedLook,
            lookId ∉ Looks.id <$> looks ->
            filter (fun look => Looks.id look <> lookId) looks = looks) as Hid.
  { intros looks. induction looks as [|l looks IH]; [done|]. intros Hnot.
    rewrite filter_cons_True.
    - rewrite IH; [done|]. intros Hin. apply Hnot. cbn. apply elem_of_cons. by right.
    - intros Heq. apply Hnot. cbn. apply elem_of_cons. by left. }
  assert (lookId ∉ Looks.id <$>
            filter (fun look => Looks.id look <> lookId) (Looks.savedLooks st)) as Hgone.
  { intros (look & -> & [Hne _]%list_elem_of_filter)%list_elem_of_fmap. done. }
  split; [done|]. split; [|split; [apply sublist_filter|split; [|split]]].
  - intros look. cbn. rewrite list_elem_of_filter. tauto.
  - intros Hnot. unfold Looks.handleDeleteLook. rewrite Hid by done. by destruct st.
  - unfold Looks.handleLoadLook. destruct (isBusy _); [done|]. cbn.
    by rewrite find_absent.
  - unfold Looks.handleDeleteLook at 1. cbn. by rewrite Hid.
Qed.

(** X21. Loading is gated and cannot be undone. While the editor is busy,
    or for an id the archive does not hold, loading changes nothing. When
    it finds a look, the snapshot of the first look with that id becomes
    the only entry of the history, so that an undo or a redo right after
    the load leaves the cells as the load left them. *)
Theorem load_look (st : Looks.Studio) (lookId : string) :
  (isBusy (Looks.ui st) = true -> Looks.handleLoadLook lookId st = st) /\
  (lookId ∉ Looks.id <$> Looks.savedLooks st -> Looks.handleLoadLook lookId st = st) /\
  (isBusy (Looks.ui st) = false ->
   forall before look after,
     Looks.savedLooks st = before ++ look :: after ->
     Looks.id look = lookId ->
     lookId ∉ Looks.id <$> before ->
     let st' := Looks.handleLoadLook lookId st in
     editorState (Looks.ui st') = Some (Looks.editorState look) /\
     history (editor (Looks.ui st')) = [Looks.editorState look] /\
     handleUndo {| app := Looks.ui st'; calls := [] |}
       = (Normal tt, {| app := Looks.ui st'; calls := [] |}) /\
     handleRedo {| app := Looks.ui st'; calls := [] |}
       = (Normal tt, {| app := Looks.ui st'; calls := [] |})).
Proof.
  split; [|split].
  - intros Hbusy. unfold Looks.handleLoadLook. by rewrite Hbusy.
  - intros Hnot. unfold Looks.handleLoadLook. destruct (isBusy _); [done|].
    by rewrite find_absent.
  - intros Hbusy before look after Hlooks Hid Hfirst. cbv zeta.
    unfold Looks.handleLoadLook. rewrite Hbusy, Hlooks.
    rewrite (find_first before after look lookId Hid Hfirst).
    cbn. split; [done|]. split; [done|]. split; reflexivity.
Qed.

End WithEnvironment.

Lemma look_round_trip_witness :
  let st := {| Looks.ui := EditsMore.dressed; Looks.savedLooks := [] |} in
  let e := {| action := BackgroundChange "beach";
              answers := fun _ => Gateway.Fulfilled "B" |} in
  exists st1 st2 s,
    editorState EditsMore.dressed = Some s /\
    Looks.handleSaveLook "17" "2024-01-01" st = Normal st1 /\
    Looks.studioSession (fun m _ => m) (fun f => f) [Looks.Edit e] st1 = Some st2 /\
    displayImageUrl s = Some "X" /\
    editorState (Looks.ui st2) <> Some s /\
    editorState (Looks.ui (Looks.handleLoadLook "look-17" st2)) = Some s.
Proof.
  intros st e.
  destruct (Looks.handleSaveLook "17" "2024-01-01" st) as [st1| |] eqn:Hsave;
    [|vm_compute in Hsave; discriminate..].
  destruct (Looks.studioSession (fun m _ => m) (fun f => f) [Looks.Edit e] st1)
    as [st2|] eqn:Hrun;
    [|vm_compute in Hsave; injection Hsave as <-; vm_compute in Hrun; discriminate].
  destruct (look_round_trip (fun m _ => m) (fun f => f) st st1 st2
              (default initialEditorState (editorState EditsMore.dressed))
              "17" "2024-01-01" [e])
    as (_ & Hback & _); [reflexivity|exact Hsave| | |exact Hrun| |].
  - vm_compute in Hsave. injection Hsave as <-. discriminate.
  - vm_compute. apply not_elem_of_nil.
  - vm_compute in Hsave. injection Hsave as <-. vm_compute in Hrun.
    injection Hrun as <-. reflexivity.
  - exists st1, st2, (default initialEditorState (editorState EditsMore.dressed)).
    split; [reflexivity|]. split; [reflexivity|]. split; [exact Hrun|].
    split; [reflexivity|]. split; [|exact Hback].
    vm_compute in Hsave. injection Hsave as <-. vm_compute in Hrun.
    injection Hrun as <-. vm_compute. discriminate.
Defined.

Lemma save_twice_witness :
  let st := {| Looks.ui := EditsMore.dressed; Looks.savedLooks := [] |} in
  exists st1 look,
    Looks.handleSaveLook "17" "2024-01-01" st = Normal st1 /\
    Looks.handleSaveLook "18" "2024-01-02" st1 = Normal st1 /\
    Looks.savedLooks st1 = [look] /\
    Looks.thumbnailUrl look = "X".
Proof.
  intros st.
  destruct (Looks.handleSaveLook "17" "2024-01-01" st) as [st1| |] eqn:Hsave;
    [|vm_compute in Hsave; discriminate..].
  destruct (save_twice st st1 (default initialEditorState (editorState EditsMore.dressed))
              "17" "2024-01-01" "18" "2024-01-02")
    as (Hagain & _ & _); [reflexivity|exact Hsave|].
  exists st1, {| Looks.id := "look-17"; Looks.thumbnailUrl := "X";
                 Looks.savedAt := "2024-01-01";
                 Looks.editorState := default initialEditorState (editorState EditsMore.dressed) |}.
  split; [reflexivity|]. split; [exact Hagain|].
  vm_compute in Hsave. injection Hsave as <-. split; reflexivity.
Defined.

End LooksProps.


(** * Properties of the image service *)

Module GeminiProps.
Import Stdlib.Strings.Ascii.
Import GeminiService.

#[local] Arguments String.append !_ _ / : simpl nomatch.

Lemma append_empty_r (s : string) : s +:+ "" = s.
Proof. induction s as [|c s IH]; simpl; [done|]. by rewrite IH. Qed.

Lemma append_assoc (a b c : string) : (a +:+ b) +:+ c = a +:+ (b +:+ c).
Proof. induction a as [|x a IH]; simpl; [done|]. by rewrite IH. Qed.

Lemma includes_app (c : ascii) (a b : string) :
  includes c (a +:+ b) = includes c a || includes c b.
Proof.
  induction a as [|c' a IH]; simpl; [done|]. rewrite IH. by destruct (bool_decide _).
Qed.

Lemma split_nonempty (sep : ascii) (s : string) : split sep s <> [].
Proof.
  destruct s as [|c s]; simpl; [done|].
  destruct (bool_decide _); [done|]. by destruct (split sep s).
Qed.

Lemma split_without (sep : ascii) (s : string) :
  includes sep s = false -> split sep s = [s].
Proof.
  induction s as [|c s IH]; simpl; [done|].
  case_bool_decide; [done|]. simpl. intros Hs. by rewrite IH.
Qed.

Lemma split_with (sep : ascii) (s : string) :
  includes sep s = true -> 2 <= length (split sep s).
Proof.
  induction s as [|c s IH]; simpl; [done|].
  case_bool_decide; simpl.
  - intros _. pose proof (split_nonempty sep s). destruct (split sep s); [done|simpl; lia].
  - intros Hs. specialize (IH Hs). destruct (split sep s); simpl in *; lia.
Qed.

Lemma split_app (sep : ascii) (a b : string) :
  includes sep a = false ->
  split sep (a +:+ String sep b) = a :: split sep b.
Proof.
  induction a as [|c a IH]; simpl.
  - intros _. by case_bool_decide.
  - case_bool_decide; [done|]. simpl. intros Ha. by rewrite IH.
Qed.

(** The first piece of a split and what follows it. *)
Lemma split_head (sep : ascii) (s a : string) (rest : list string) :
  split sep s = a :: rest ->
  includes sep a = false /\
  ((rest = [] /\ s = a) \/
   exists s', s = a +:+ String sep s' /\ split sep s' = rest).
Proof.
  revert a rest. induction s as [|c s IH]; intros a rest; simpl.
  - intros [= <- <-]. split; [done|]. by left.
  - case_bool_decide as Hc.
    + subst c. intros [= <- <-]. split; [done|]. right. by exists s.
    + destruct (split sep s) as [|p ps] eqn:Hsplit.
      { by destruct (split_nonempty sep s). }
      intros [= <- <-]. destruct (IH p ps eq_refl) as (Hp & Hrest).
      split.
      { simpl. rewrite Hp. by case_bool_decide. }
      destruct Hrest as [[-> ->]|(s' & -> & Hs')]; [by left|].
      right. by exists s'.
Qed.

(** The pieces of a split put back together. *)
Lemma split_inv (sep : ascii) (s a b : string) (rest : list string) :
  split sep s = a :: b :: rest ->
  includes sep a = false /\ includes sep b = false /\
  exists tail, s = a +:+ String sep (b +:+ tail) /\
               (tail = "" \/ exists r, tail = String sep r).
Proof.
  intros Hs. destruct (split_head sep s a _ Hs) as (Ha & [[? _]|(s' & -> & Hs')]);
    [done|].
  destruct (split_head sep s' b _ Hs') as (Hb & [[_ ->]|(s'' & -> & _)]).
  - split; [done|]. split; [done|]. exists "". split; [|by left].
    by rewrite append_empty_r.
  - split; [done|]. split; [done|]. exists (String sep s''). split; [done|].
    right. by exists s''.
Qed.

Lemma lazy_app (m rest : string) :
  includes ";" m = false -> includes "010" m = false -> includes "013" m = false ->
  lazyUntilSemicolon (m +:+ String ";" rest) = Some m.
Proof.
  induction m as [|c m IH]; simpl; [done|].
  unfold lineTerminator.
  destruct (bool_decide (c = ";"%char)); [done|].
  destruct (bool_decide (c = "010"%char)); [done|].
  destruct (bool_decide (c = "013"%char)); [done|].
  simpl. intros Hsemi Hlf Hcr. by rewrite IH.
Qed.

Lemma lazy_inv (s m : string) :
  lazyUntilSemicolon s = Some m ->
  includes ";" m = false /\ includes "010" m = false /\ includes "013" m = false /\
  exists after, s = m +:+ String ";" after.
Proof.
  revert m. induction s as [|c s IH]; intros m; simpl; [done|].
  case_bool_decide as Hsemi.
  - intros [= <-]. subst c. repeat (split; [done|]). by exists s.
  - unfold lineTerminator. destruct (bool_decide (c = "010"%char)) eqn:Hlf; [done|].
    destruct (bool_decide (c = "013"%char)) eqn:Hcr; [done|]. simpl.
    destruct (lazyUntilSemicolon s) as [m'|]; [|done]. simpl. intros [= <-].
    destruct (IH m' eq_refl) as (H1 & H2 & H3 & after & ->).
    simpl. rewrite H1, H2, H3, Hlf, Hcr. rewrite bool_decide_eq_false_2 by done.
    repeat (split; [done|]). by exists after.
Qed.

Lemma matchMime_inv (s m : string) :
  matchMime s = Some m ->
  includes ";" m = false /\ includes "010" m = false /\ includes "013" m = false /\
  exists before after, s = before +:+ String ":" (m +:+ String ";" after).
Proof.
  induction s as [|c s IH]; simpl; [done|].
  assert (matchMime s = Some m ->
          includes ";" m = false /\ includes "010" m = false /\
          includes "013" m = false /\
          exists before after,
            String c s = before +:+ String ":" (m +:+ String ";" after)) as Hlater.
  { intros Hs. destruct (IH Hs) as (H1 & H2 & H3 & before & after & ->).
    repeat (split; [done|]). by exists (String c before), after. }
  case_bool_decide as Hc; [|done]. subst c.
  destruct (lazyUntilSemicolon s) as [m'|] eqn:Hlazy; [|done].
  intros [= ->]. destruct (lazy_inv s m Hlazy) as (H1 & H2 & H3 & after & ->).
  repeat (split; [done|]). by exists "", after.
Qed.

Lemma truthy_nonempty (s : string) : JS.truthy (Some s) = true <-> s <> "".
Proof. simpl. case_bool_decide; simpl; split; done. Qed.

(** A data URL built the way [handleApiResponse] builds it is read back
    by [dataUrlToParts]. *)
Lemma dataUrlToParts_template (m d : string) :
  m <> "" ->
  includes ";" m = false -> includes "," m = false ->
  includes "010" m = false -> includes "013" m = false ->
  includes "," d = false ->
  dataUrlToParts ("data:" +:+ m +:+ ";base64," +:+ d)
    = Normal {| partsMimeType := m; partsData := d |}.
Proof.
  intros Hm Hsemi Hcomma Hlf Hcr Hd. unfold dataUrlToParts.
  assert ("data:" +:+ m +:+ ";base64," +:+ d
          = ("data:" +:+ m +:+ ";base64") +:+ String "," d) as ->.
  { rewrite !append_assoc. reflexivity. }
  rewrite split_app.
  2:{ rewrite !includes_app, Hcomma. reflexivity. }
  rewrite (split_without _ d Hd).
  assert (matchMime ("data:" +:+ m +:+ ";base64") = Some m) as ->.
  { change (matchMime ("data:" +:+ m +:+ ";base64"))
      with (match lazyUntilSemicolon (m +:+ String ";" "base64") with
            | Some group1 => Some group1
            | None => matchMime (m +:+ String ";" "base64")
            end).
    by rewrite (lazy_app m "base64" Hsemi Hlf Hcr). }
  apply truthy_nonempty in Hm. by rewrite Hm.
Qed.

Lemma plainImage_template (image : Blob) :
  plainImage image = true ->
  dataUrlToPart ("data:" +:+ interpolate (mimeType image) +:+ ";base64,"
                 +:+ interpolate (data image))
    = Normal {| inlineData := Some image; text := None |}.
Proof.
  unfold plainImage. destruct image as [[m|] [d|]]; try done. simpl mimeType.
  simpl data. intros Hplain.
  repeat (apply andb_true_iff in Hplain as [Hplain ?]).
  unfold dataUrlToPart, interpolate. simpl default.
  rewrite dataUrlToParts_template; [done|..]; try by apply negb_true_iff.
  by apply truthy_nonempty.
Qed.

Lemma find_inlineData (ps : list Part) (image : Blob) :
  match List.find (fun part => bool_decide (is_Some (inlineData part))) ps with
  | Some part => inlineData part
  | None => None
  end = Some image <->
  exists ps1 p ps2,
    ps = ps1 ++ p :: ps2 /\
    Forall (fun part => inlineData part = None) ps1 /\
    inlineData p = Some image.
Proof.
  split.
  - induction ps as [|p ps IH]; [done|]. simpl.
    case_bool_decide as Hp.
    + intros Himage. exists [], p, ps. split; [done|]. split; [constructor|done].
    + intros Hfind. destruct (IH Hfind) as (ps1 & p' & ps2 & -> & Hps1 & Himage).
      exists (p :: ps1), p', ps2. split; [done|]. split; [|done].
      apply Forall_cons. split; [|done].
      destruct (inlineData p) eqn:Hdata; [|done]. destruct Hp. by eexists.
  - intros (ps1 & p & ps2 & -> & Hps1 & Himage).
    induction Hps1 as [|p1 ps1 Hp1 _ IH]; simpl.
    + rewrite bool_decide_eq_true_2; [done|]. by eexists.
    + rewrite bool_decide_eq_false_2; [done|]. rewrite Hp1. by intros [? ?].
Qed.

Lemma imagePart_Some (candidate : Candidate) (image : Blob) :
  imagePart candidate = Some image <->
  exists c ps1 p ps2,
    content candidate = Some c /\ parts c = Some (ps1 ++ p :: ps2) /\
    Forall (fun part => inlineData part = None) ps1 /\
    inlineData p = Some image.
Proof.
  unfold imagePart. split.
  - destruct (content candidate) as [c|] eqn:Hc; [|done].
    destruct (parts c) as [ps|] eqn:Hps; [|done].
    intros (ps1 & p & ps2 & -> & Hps1 & Himage)%find_inlineData.
    by exists c, ps1, p, ps2.
  - intros (c & ps1 & p & ps2 & -> & -> & Hps1 & Himage).
    apply find_inlineData. by exists ps1, p, ps2.
Qed.

Lemma firstImage_Some (cs : list Candidate) (image : Blob) :
  firstImage cs = Some image <->
  exists cs1 candidate cs2,
    cs = cs1 ++ candidate :: cs2 /\
    Forall (fun c => imagePart c = None) cs1 /\
    imagePart candidate = Some image.
Proof.
  split.
  - induction cs as [|c cs IH]; [done|]. simpl.
    destruct (imagePart c) as [image'|] eqn:Hc.
    + intros [= ->]. exists [], c, cs. split; [done|]. split; [constructor|done].
    + intros Hfirst. destruct (IH Hfirst) as (cs1 & c' & cs2 & -> & Hcs1 & Himage).
      exists (c :: cs1), c', cs2. split; [done|]. split; [|done]. by apply Forall_cons.
  - intros (cs1 & c & cs2 & -> & Hcs1 & Himage).
    induction Hcs1 as [|c1 cs1 Hc1 _ IH]; simpl.
    + by rewrite Himage.
    + by rewrite Hc1.
Qed.

Section Service.

Variable trim : string -> string.

(** What [handleApiResponse] returns normally. *)
Lemma handleApiResponse_Normal (response : GenerateContentResponse) (url : string) :
  handleApiResponse trim response = Normal url <->
  (forall feedback, promptFeedback response = Some feedback ->
                    JS.truthy (blockReason feedback) = false) /\
  exists image,
    firstImage (default [] (candidates response)) = Some image /\
    url = "data:" +:+ interpolate (mimeType image) +:+ ";base64,"
          +:+ interpolate (data image).
Proof.
  unfold handleApiResponse. split.
  - destruct (promptFeedback response) as [feedback|].
    + destruct (JS.truthy (blockReason feedback)) eqn:Hblock; [done|].
      destruct (firstImage _) as [image|]; [|by destruct (_ && _)].
      intros [= <-]. split; [by intros ? [= <-]|]. by exists image.
    + destruct (firstImage _) as [image|]; [|by destruct (_ && _)].
      intros [= <-]. split; [done|]. by exists image.
  - intros (Hfree & image & -> & ->).
    destruct (promptFeedback response) as [feedback|]; [|done].
    by rewrite (Hfree feedback eq_refl).
Qed.

(** X22. The images of the service can be given back to it. When
    [handleApiResponse] returns a URL, the URL is built from the first
    image of the response; and when that image is plain (a MIME type that
    is not empty and has no semicolon, comma or line break, data without
    a comma), [dataUrlToPart] reads the URL back into the same image. *)
Theorem response_image_parses_back (response : GenerateContentResponse)
    (url : string) :
  handleApiResponse trim response = Normal url ->
  exists image,
    firstImage (default [] (candidates response)) = Some image /\
    url = "data:" +:+ interpolate (mimeType image) +:+ ";base64,"
          +:+ interpolate (data image) /\
    (plainImage image = true ->
     dataUrlToPart url = Normal {| inlineData := Some image; text := None |}).
Proof.
  intros (_ & image & Hfirst & ->)%handleApiResponse_Normal.
  exists image. split; [done|]. split; [done|]. apply plainImage_template.
Qed.

Lemma dataUrlToParts_invalid (dataUrl : string) :
  dataUrlToParts dataUrl = Thrown "Invalid data URL"
  <-> includes "," dataUrl = false.
Proof.
  unfold dataUrlToParts. split.
  - destruct (includes "," dataUrl) eqn:Hcomma; [|done].
    pose proof (split_with _ _ Hcomma) as Hlen.
    destruct (split "," dataUrl) as [|arr0 [|arr1 arr]]; simpl in Hlen; try lia.
    destruct (matchMime arr0) as [group1|]; [|done]. by destruct (negb _).
  - intros Hcomma. by rewrite (split_without _ _ Hcomma).
Qed.

Lemma dataUrlToParts_typed (dataUrl : string) : dataUrlToParts dataUrl <> IllTyped.
Proof.
  unfold dataUrlToParts.
  destruct (split "," dataUrl) as [|arr0 [|arr1 arr]]; try done.
  destruct (matchMime arr0) as [group1|]; [|done]. by destruct (negb _).
Qed.

(** X23. What [dataUrlToParts] accepts. A URL without a comma is refused
    as invalid, and only such a URL is. When a URL is accepted, the MIME
    type is not empty, has no semicolon and no line break, and stands in
    the URL between a colon and a semicolon before the first comma; the
    data is what stands between the first comma and the second one, or
    the end. The parser never leaves the declared types. *)
Theorem dataUrlToParts_cases (dataUrl : string) :
  (dataUrlToParts dataUrl = Thrown "Invalid data URL"
   <-> includes "," dataUrl = false) /\
  (forall p, dataUrlToParts dataUrl = Normal p ->
     partsMimeType p <> "" /\
     includes ";" (partsMimeType p) = false /\
     includes "010" (partsMimeType p) = false /\
     includes "013" (partsMimeType p) = false /\
     includes "," (partsData p) = false /\
     exists before after tail,
       dataUrl = (before +:+ ":" +:+ partsMimeType p +:+ ";" +:+ after)
                 +:+ "," +:+ partsData p +:+ tail /\
       includes "," (before +:+ ":" +:+ partsMimeType p +:+ ";" +:+ after) = false /\
       (tail = "" \/ exists r, tail = String "," r)) /\
  dataUrlToParts dataUrl <> IllTyped.
Proof.
  split; [apply dataUrlToParts_invalid|]. split; [|apply dataUrlToParts_typed].
  unfold dataUrlToParts.
  - intros p. destruct (split "," dataUrl) as [|arr0 [|arr1 arr]] eqn:Hsplit; try done.
    destruct (split_inv _ _ _ _ _ Hsplit) as (Harr0 & Harr1 & tail & -> & Htail).
    destruct (matchMime arr0) as [group1|] eqn:Hmatch; [|done].
    destruct (JS.truthy (Some group1)) eqn:Hgroup; [|done]. simpl.
    intros [= <-]. simpl.
    destruct (matchMime_inv _ _ Hmatch) as (Hsemi & Hlf & Hcr & before & after & ->).
    split; [by apply truthy_nonempty|]. repeat (split; [done|]).
    exists before, after, tail. rewrite !append_assoc in *. simpl in *.
    split; [|split]; try done.
Qed.

(** X24. Which image [handleApiResponse] returns. A response that is
    blocked throws, whatever images it carries. A response that is not
    blocked returns a URL exactly when one of its candidates has a part
    with inline data; the URL is then built from the first such part of
    the first such candidate, whatever the finish reason says. In every
    other case the function throws. *)
Theorem first_image_wins (response : GenerateContentResponse) :
  (forall feedback,
     promptFeedback response = Some feedback ->
     JS.truthy (blockReason feedback) = true ->
     exists message, handleApiResponse trim response = Thrown message) /\
  (forall url,
     handleApiResponse trim response = Normal url <->
     (forall feedback, promptFeedback response = Some feedback ->
                       JS.truthy (blockReason feedback) = false) /\
     exists cs1 candidate cs2 c ps1 p ps2 image,
       candidates response = Some (cs1 ++ candidate :: cs2) /\
       Forall (fun c => imagePart c = None) cs1 /\
       content candidate = Some c /\
       parts c = Some (ps1 ++ p :: ps2) /\
       Forall (fun part => inlineData part = None) ps1 /\
       inlineData p = Some image /\
       url = "data:" +:+ interpolate (mimeType image) +:+ ";base64,"
             +:+ interpolate (data image)) /\
  handleApiResponse trim response <> IllTyped.
Proof.
  split; [|split].
  - intros feedback Hfeedback Hblock. unfold handleApiResponse.
    rewrite Hfeedback, Hblock. by eexists.
  - intros url. rewrite handleApiResponse_Normal. split.
    + intros (Hfree & image & Hfirst & ->). split; [done|].
      apply firstImage_Some in Hfirst as (cs1 & candidate & cs2 & Hcs & Hcs1 & Himage).
      apply imagePart_Some in Himage as (c & ps1 & p & ps2 & Hc & Hps & Hps1 & Hp).
      exists cs1, candidate, cs2, c, ps1, p, ps2, image.
      destruct (candidates response) as [cs|]; simpl in Hcs.
      * by subst cs.
      * by destruct cs1.
    + intros (Hfree & cs1 & candidate & cs2 & c & ps1 & p & ps2 & image
              & Hcs & Hcs1 & Hc & Hps & Hps1 & Hp & ->).
      split; [done|]. exists image. split; [|done]. rewrite Hcs. simpl.
      apply firstImage_Some. exists cs1, candidate, cs2. split; [done|].
      split; [done|]. apply imagePart_Some. by exists c, ps1, p, ps2.
  - unfold handleApiResponse.
    destruct (promptFeedback response) as [feedback|].
    + destruct (JS.truthy (blockReason feedback)); [done|].
      destruct (firstImage _); [done|]. by destruct (_ && _).
    + destruct (firstImage _); [done|]. by destruct (_ && _).
Qed.

Variable generateContent : Request -> Answer.

Lemma requestImage_Normal (part : Completion Part) (prompt url : string)
    (sent : list Request) :
  requestImage trim generateContent part prompt = (Normal url, sent) ->
  exists image request response,
    part = Normal image /\
    sent = [request] /\
    head (contents request) = Some image /\
    generateContent request = Responded response /\
    handleApiResponse trim response = Normal url.
Proof.
  unfold requestImage. destruct part as [image| |]; [|done..].
  destruct (generateContent _) as [response|] eqn:Hanswer; [|done].
  intros [= Hurl <-]. eexists image, _, response. by repeat split.
Qed.

(** X25. An image that one request of the service returns is the image
    that the next request sends. When [generateBackground] returns a URL
    it has sent one request, and the URL is the data URL of the first
    image of the answer, [data:<mimeType>;base64,<data>]; when that image
    is plain, [generatePoseVariation] on the URL sends one request,
    whatever the model then answers, and the request carries that very
    image. *)
Theorem generated_image_is_reusable (baseImageUrl prompt poseInstruction url : string)
    (sent : list Request) :
  generateBackground trim generateContent baseImageUrl prompt = (Normal url, sent) ->
  exists request response image,
    sent = [request] /\
    generateContent request = Responded response /\
    firstImage (default [] (candidates response)) = Some image /\
    url = "data:" +:+ interpolate (mimeType image) +:+ ";base64,"
          +:+ interpolate (data image) /\
    (plainImage image = true ->
     exists request',
       (generatePoseVariation trim generateContent url poseInstruction).2
         = [request'] /\
       head (contents request') = Some {| inlineData := Some image; text := None |}).
Proof.
  unfold generateBackground. intros Hrun.
  apply requestImage_Normal in Hrun
    as (part & request & response & _ & -> & _ & Hanswer & Hurl).
  apply handleApiResponse_Normal in Hurl as (_ & image & Hfirst & ->).
  exists request, response, image. repeat (split; [done|]).
  intros Hplain. unfold generatePoseVariation, requestImage.
  rewrite (plainImage_template image Hplain). by eexists.
Qed.

(** X26. A request is sent only for an image that parses. Each of
    [generateBackground] and [generatePoseVariation] sends at most one
    request; it sends none exactly when [dataUrlToParts] refuses the URL,
    and the promise is then rejected with the parser's message, which for
    a URL without a comma, the empty one included, is
    ["Invalid data URL"]. *)
Theorem unparsed_image_is_not_sent (imageUrl instruction : string) :
  forall run,
    run ∈ [generateBackground trim generateContent imageUrl instruction;
           generatePoseVariation trim generateContent imageUrl instruction] ->
    length run.2 <= 1 /\
    (run.2 = [] <-> forall p, dataUrlToParts imageUrl <> Normal p) /\
    (forall message,
       dataUrlToParts imageUrl = Thrown message -> run = (Thrown message, [])) /\
    (includes "," imageUrl = false -> run = (Thrown "Invalid data URL", [])).
Proof.
  intros run Hrun.
  assert (exists prompt,
            run = requestImage trim generateContent (dataUrlToPart imageUrl) prompt)
    as (prompt & ->).
  { apply elem_of_cons in Hrun as [->|Hrun]; [by eexists|].
    apply list_elem_of_singleton in Hrun as ->. by eexists. }
  clear Hrun. unfold requestImage, dataUrlToPart.
  pose proof (proj2 (dataUrlToParts_invalid imageUrl)) as Hinvalid.
  pose proof (dataUrlToParts_typed imageUrl) as Htyped.
  destruct (dataUrlToParts imageUrl) as [p|message|] eqn:Hparts; [| |done].
  - split; [simpl; lia|]. split; [|split].
    + split; [done|]. intros Hnone. by destruct (Hnone p).
    + done.
    + intros Hcomma. by specialize (Hinvalid Hcomma).
  - split; [simpl; lia|]. split; [|split].
    + done.
    + by intros ? [= <-].
    + intros Hcomma. by injection (Hinvalid Hcomma) as ->.
Qed.

End Service.

Lemma response_image_parses_back_witness :
  let image := {| mimeType := Some "image/png"; data := Some "iVBORw0KGgo=" |} in
  let response :=
    {| promptFeedback := None;
       candidates :=
         Some [ {| content := None; finishReason := Some "STOP" |};
                {| content :=
                     Some {| parts :=
                               Some [ {| inlineData := None; text := Some "Here it is" |};
                                      {| inlineData := Some image; text := None |} ] |};
                   finishReason := Some "STOP" |} ];
       responseText := Some "Here it is" |} in
  handleApiResponse (fun s => s) response
    = Normal "data:image/png;base64,iVBORw0KGgo=" /\
  dataUrlToPart "data:image/png;base64,iVBORw0KGgo="
    = Normal {| inlineData := Some image; text := None |}.
Proof.
  intros image response. split; [reflexivity|].
  destruct (response_image_parses_back (fun s => s) response
              "data:image/png;base64,iVBORw0KGgo=" eq_refl)
    as (image' & Hfirst & _ & Hback).
  vm_compute in Hfirst. injection Hfirst as <-. apply Hback. reflexivity.
Defined.

Lemma generated_image_is_reusable_witness :
  let image := {| mimeType := Some "image/png"; data := Some "iVBORw0KGgo=" |} in
  let response :=
    {| promptFeedback := None;
       candidates :=
         Some [ {| content :=
                     Some {| parts := Some [ {| inlineData := Some image; text := None |} ] |};
                   finishReason := Some "STOP" |} ];
       responseText := None |} in
  let api := fun _ : Request => Responded response in
  exists url request',
    (generateBackground (fun s => s) api "data:image/jpeg;base64,/9j/4AAQ" "beach").1
      = Normal url /\
    url = "data:image/png;base64,iVBORw0KGgo=" /\
    (generatePoseVariation (fun s => s) api url "Side profile view").2 = [request'] /\
    head (contents request') = Some {| inlineData := Some image; text := None |}.
Proof.
  intros image response api.
  destruct (generateBackground (fun s => s) api "data:image/jpeg;base64,/9j/4AAQ" "beach")
    as [[url| |] sent] eqn:Hrun; [|vm_compute in Hrun; discriminate..].
  destruct (generated_image_is_reusable (fun s => s) api
              "data:image/jpeg;base64,/9j/4AAQ" "beach" "Side profile view" url sent Hrun)
    as (request & response' & image' & _ & Hanswer & Hfirst & Hurl & Hnext).
  injection Hanswer as <-. vm_compute in Hfirst. injection Hfirst as <-.
  destruct (Hnext eq_refl) as (request' & Hsent & Hhead).
  by exists url, request'.
Defined.

Lemma unparsed_image_is_not_sent_witness :
  generateBackground (fun s => s) (fun _ => Failed "offline")
    "https://example.com/model.png" "beach"
  = (Thrown "Invalid data URL", []).
Proof.
  destruct (unparsed_image_is_not_sent (fun s => s) (fun _ => Failed "offline")
              "https://example.com/model.png" "beach"
              (generateBackground (fun s => s) (fun _ => Failed "offline")
                 "https://example.com/model.png" "beach"))
    as (_ & _ & _ & Hinvalid).
  - apply elem_of_cons. by left.
  - apply Hinvalid. reflexivity.
Defined.

End GeminiProps.


(** * Properties of the event stylist *)

Module StylistProps.
Import Types App JSFacts HookLaws EditorProps Edits EditorMore Stylist.

Section WithGateway.

Variable gateway : Gateway.Call -> Gateway.Settled.
Variable getFriendlyErrorMessage : string -> string -> string.
Variable getStyleSuggestion : string -> string -> Gateway.Settled.
Variable suggestionSettlesFirst : bool.


End WithGateway.


End StylistProps.


(** * Properties of the outfit stack *)

Module StackProps.
Import Types App JSFacts HookLaws EditorProps Edits EditorMore Stack.

Lemma slice0_is_take {A} (arr : list A) (e : Z) :
  exists k, JS.slice0 arr e = take k arr.
Proof. unfold JS.slice0. destruct (e <? 0)%Z; by eexists. Qed.

Lemma dressed_take (s : EditorState) (k : nat) (layers : list OutfitLayer)
    (i : nat) (layer : OutfitLayer) :
  dressedAbove s -> layers = take k (outfitHistory s) ->
  layers !! S i = Some layer -> garment layer <> None.
Proof.
  intros Hdressed -> [Hl _]%lookup_take_Some. by eapply Hdressed.
Qed.

Lemma rewriteCurrentLayer_dressed (images : EditorState -> JS.Dict -> JS.Dict)
    (pose : EditorState -> string) (s s' : EditorState) :
  dressedAbove s -> rewriteCurrentLayer images pose s = Normal s' -> dressedAbove s'.
Proof.
  intros Hdressed. unfold rewriteCurrentLayer.
  destruct (JS.index _ _) as [old|] eqn:Hold; [|done].
  unfold JS.assign. destruct (_ && _); [|done]. intros [= <-] i layer. cbn.
  apply index_Some in Hold as [_ Hold].
  intros [(Hi & <- & _)|(_ & Hl)]%list_lookup_insert_Some.
  - cbn. rewrite Hi in Hold. by eapply Hdressed.
  - by eapply Hdressed.
Qed.

Lemma edit_dressed (s s' : EditorState)
    (update : EditorState -> Completion EditorState) :
  dressedAbove s -> edit s update -> update s = Normal s' -> dressedAbove s'.
Proof.
  intros Hdressed
    [next _|image g newImageUrl _|layer newPose _ _|layer newPose newImageUrl _
    |image newImageUrl _|image newImageUrl _|layerIndex].
  - by intros [= <-].
  - intros [= <-] i layer. cbn.
    destruct (slice0_is_take (outfitHistory s) (currentOutfitIndex s + 1)) as [k ->].
    intros [Hl|[_ Hl]]%lookup_app_Some.
    + by eapply dressed_take.
    + destruct (S i - length (take k (outfitHistory s))) as [|n]; [|done].
      by injection Hl as <-.
  - by intros [= <-].
  - by apply rewriteCurrentLayer_dressed.
  - by apply rewriteCurrentLayer_dressed.
  - by apply rewriteCurrentLayer_dressed.
  - unfold removeFrom. destruct (JS.index _ _) as [last|]; [|done].
    destruct (slice0_is_take (outfitHistory s) layerIndex) as [k Hk].
    destruct (JS.has _ _); [|destruct (lastValidPose last); [|done]];
      intros [= <-] i layer; cbn; by eapply dressed_take.
Qed.

Section WithEnvironment.

Variable getFriendlyErrorMessage : string -> string -> string.
Variable createObjectURL : Gateway.File -> string.

Lemma dressed_buttons (layers : list OutfitLayer) (k : nat) :
  Forall (fun layer => garment layer <> None) layers ->
  (omap (fun row : nat * OutfitLayer =>
           match garment row.2 with
           | Some g => Some (Z.of_nat row.1, name g)
           | None => None
           end)
        (zip (seq k (length layers)) layers)).*1
  = Z.of_nat <$> seq k (length layers).
Proof.
  intros Hall. revert k. induction Hall as [|layer layers Hlayer _ IH]; intros k; [done|].
  cbn. destruct (garment layer) as [g|] eqn:Hg; [|done]. cbn. by rewrite IH.
Qed.

Lemma filter_positive (k n : nat) :
  filter (fun index => (0 < index)%Z) (Z.of_nat <$> seq (S k) n)
  = Z.of_nat <$> seq (S k) n.
Proof.
  revert k. induction n as [|n IH]; intros k; [done|].
  change (seq (S k) (S n)) with (S k :: seq (S (S k)) n).
  rewrite fmap_cons, filter_cons_True by lia. by rewrite IH.
Qed.

(** X28. The rows of the outfit stack. After every sequence of user
    actions, with any answers of the gateway, the stack is given all the
    layers of the snapshot; its first row, and no other, is without a
    garment; and the rows with a repattern button are exactly the rows
    with a remove button, the rows above the first, in the same order. A
    click on a repattern button hands over the index of its row and the
    label of that row, the name of its garment. *)
Theorem stack_rows (es : list Event) :
  exists a s,
    session getFriendlyErrorMessage createObjectURL es initialAppState = Some a /\
    editorState a = Some s /\
    activeOutfitLayers s = outfitHistory s /\
    (forall i layer,
       JS.index (activeOutfitLayers s) i = Some layer ->
       (garment layer = None <-> i = 0%Z)) /\
    (repatternButtons (activeOutfitLayers s)).*1
      = removeButtons (activeOutfitLayers s) /\
    (forall index garmentName,
       (index, garmentName) ∈ repatternButtons (activeOutfitLayers s) ->
       exists layer,
         JS.index (outfitHistory s) index = Some layer /\
         rowLabel layer = garmentName /\
         garment layer <> None).
Proof.
  destruct (session_keeps getFriendlyErrorMessage createObjectURL
              dressedAbove es initialAppState) as (a & Hrun & Hsteady & Hall).
  { by intros [|i] layer. }
  { by intros url [|[|i]] layer. }
  { intros s s' update _. apply edit_dressed. }
  { apply steadyCells_initial. }
  { apply Forall_singleton. by intros [|i] layer. }
  destruct Hsteady as (Hwf & Hsteady & _).
  destruct (wf_state _ Hwf) as [s Hs].
  pose proof (Forall_lookup_1 _ _ _ _ Hsteady Hs) as ((_ & Hbase & _ & Hlast) & _).
  pose proof (Forall_lookup_1 _ _ _ _ Hall Hs) as Hdressed.
  exists a, s. split; [done|]. split; [done|].
  assert (activeOutfitLayers s = outfitHistory s) as Hactive.
  { unfold activeOutfitLayers. unfold activeIsLast in Hlast.
    destruct (outfitHistory s) as [|base rest] eqn:Hlayers.
    - unfold JS.slice0. destruct (_ <? 0)%Z; by rewrite take_nil.
    - rewrite Hlast by done. rewrite slice0_take by lia.
      apply take_ge. lia. }
  rewrite Hactive. split; [done|].
  assert (forall i layer,
            JS.index (outfitHistory s) i = Some layer ->
            garment layer = None <-> i = 0%Z) as Hrows.
  { intros i layer Hl. split.
    - intros Hbare. apply index_Some in Hl as [Hi Hl].
      destruct (Z.to_nat i) as [|n] eqn:Hn; [lia|]. by destruct (Hdressed n layer).
    - intros ->. destruct (Hbase (layers_nonempty_index _ _ _ Hl)) as [_ Hbare].
      by apply Hbare. }
  split; [done|].
  assert (forall layers : list OutfitLayer,
            (forall i layer, JS.index layers i = Some layer ->
                             garment layer = None <-> i = 0%Z) ->
            (repatternButtons layers).*1 = removeButtons layers /\
            forall index garmentName,
              (index, garmentName) ∈ repatternButtons layers ->
              exists layer, JS.index layers index = Some layer /\
                            rowLabel layer = garmentName /\
                            garment layer <> None) as Hbuttons.
  { clear. intros layers Hrows. split.
    - unfold repatternButtons, removeButtons.
      destruct layers as [|base rest]; [done|].
      assert (garment base = None) as Hbare by by apply (Hrows 0%Z).
      cbn. rewrite Hbare. rewrite decide_False by lia.
      rewrite filter_positive. apply dressed_buttons.
      apply Forall_lookup. intros n layer Hn Hnone.
      apply (Hrows (Z.of_nat (S n)) layer) in Hnone; [lia|].
      apply index_Some. split; [lia|]. by rewrite Nat2Z.id.
    - intros index garmentName. unfold repatternButtons.
      intros ([n layer] & Hin & Hrow)%list_elem_of_omap. cbn in Hrow.
      destruct (garment layer) as [g|] eqn:Hg; [|done]. injection Hrow as <- <-.
      apply list_elem_of_lookup in Hin as [j Hj].
      apply lookup_zip_Some in Hj as [Hseq Hl].
      apply lookup_seq in Hseq as [-> _]. cbn in Hl.
      exists layer. split; [|split].
      + apply index_Some. split; [lia|]. by rewrite Nat2Z.id.
      + unfold rowLabel. by rewrite Hg.
      + by rewrite Hg. }
  by apply Hbuttons.
Qed.

End WithEnvironment.

End StackProps.


(** * Properties of the style blender *)

Module PanelProps.
Import Types WardrobePanel.

(** The two slots never hold items with the same id. *)
Lemma panelStep_distinct (p : Panel) (act : PanelAction) :
  (forall first second,
     blendItem1 p = Some first -> blendItem2 p = Some second ->
     id first <> id second) ->
  forall first second,
    blendItem1 (panelStep p act) = Some first ->
    blendItem2 (panelStep p act) = Some second ->
    id first <> id second.
Proof.
  intros Hp first second. destruct act as [slot| |item]; cbn; [by apply Hp..|].
  unfold handleBlendSelection. destruct (isSelectingFor p) as [[]|]; cbn.
  - case_bool_decide as Hsame; cbn; [by apply Hp|].
    intros [= <-] Hsecond. rewrite Hsecond in Hsame. cbn in Hsame. congruence.
  - case_bool_decide as Hsame; cbn; [by apply Hp|].
    intros Hfirst [= <-]. rewrite Hfirst in Hsame. cbn in Hsame. congruence.
  - by apply Hp.
Qed.

Lemma panelStep_fills (p : Panel) (act : PanelAction) :
  (is_Some (blendItem1 p) -> is_Some (blendItem1 (panelStep p act))) /\
  (is_Some (blendItem2 p) -> is_Some (blendItem2 (panelStep p act))).
Proof.
  destruct act as [slot| |item]; cbn; [done..|].
  unfold handleBlendSelection.
  destruct (isSelectingFor p) as [[]|]; cbn; [| |done];
    destruct (negb _); cbn; split; by eauto.
Qed.

Lemma blender_distinct (acts : list PanelAction) (first second : WardrobeItem) :
  blendItem1 (foldl panelStep initialPanel acts) = Some first ->
  blendItem2 (foldl panelStep initialPanel acts) = Some second ->
  id first <> id second.
Proof.
  revert first second. induction acts as [|act acts IH] using rev_ind; [done|].
  rewrite foldl_app. cbn [foldl]. by apply panelStep_distinct.
Qed.

Lemma blender_fills (more : list PanelAction) (p : Panel) :
  is_Some (blendItem1 p) -> is_Some (blendItem2 p) ->
  is_Some (blendItem1 (foldl panelStep p more)) /\
  is_Some (blendItem2 (foldl panelStep p more)).
Proof.
  revert p. induction more as [|act more IH]; intros p H1 H2; [done|].
  cbn [foldl]. destruct (panelStep_fills p act) as [Hfirst Hsecond].
  apply IH; auto.
Qed.

(** X29. The blender never blends an item with itself. Whatever the user
    does in the blender, starting with both slots empty, the two items
    that the "Experiment" button hands to [onStyleBlend] have different
    ids; and once the button has two items it has two items after every
    further action: a slot is never emptied. *)
Theorem blend_items_differ (acts more : list PanelAction) (isLoading : bool)
    (first second : WardrobeItem) :
  experiment isLoading (foldl panelStep initialPanel acts) = Some (first, second) ->
  id first <> id second /\
  exists first' second',
    experiment false (foldl panelStep initialPanel (acts ++ more))
      = Some (first', second') /\
    id first' <> id second'.
Proof.
  unfold experiment at 1.
  destruct (blendItem1 _) as [a|] eqn:Ha; [|done].
  destruct (blendItem2 _) as [b|] eqn:Hb; [|done].
  destruct isLoading; [done|]. intros [= <- <-].
  split; [by eapply blender_distinct|].
  destruct (blender_fills more (foldl panelStep initialPanel acts))
    as [[a' Ha'] [b' Hb']]; [by rewrite Ha|by rewrite Hb|].
  rewrite <- foldl_app in Ha', Hb'.
  exists a', b'. unfold experiment. rewrite Ha', Hb'.
  split; [done|]. by eapply blender_distinct.
Qed.

Lemma blend_items_differ_witness :
  let shirt := {| id := "gemini-sweat"; name := "Gemini Sweat"; url := "u1" |} in
  let tee := {| id := "gemini-tee"; name := "Gemini Tee"; url := "u2" |} in
  let acts := [OpenSlot item1; Pick shirt; OpenSlot item2; Pick shirt;
               OpenSlot item2; Pick tee] in
  experiment false (foldl panelStep initialPanel acts) = Some (shirt, tee) /\
  id shirt <> id tee.
Proof.
  intros shirt tee acts. split; [reflexivity|].
  apply (blend_items_differ acts [] false shirt tee). reflexivity.
Defined.

End PanelProps.
